(** * Cloudlet support for OpenStack: a shallow embedding

    This development embeds the orchestration code of
    [api/cloudlet_api.py] (class [CloudletAPI], class [PortForwarding]) and
    [compute/cloudlet_driver.py] (class [CloudletDriver]) and checks the
    statements of the specification against it.

    Python values are modelled as the code uses them: byte strings as
    [string], dictionaries as [gmap], JSON replies as a small value type,
    exceptions as an inductive type carried by an exception-and-state
    monad.  The collaborators the code drives but does not implement
    (hypervisor, image service, RPC transport, the transfer worker
    process) appear as an explicit environment and as a trace of the
    calls made to them. *)

From Stdlib Require Import ZArith Ascii String List Lia.
From stdpp Require Import base option list strings gmap pretty.
From Equations Require Import Equations.
From Equations.Prop Require Import Logic.

Local Open Scope string_scope.
Local Open Scope list_scope.
Local Open Scope Z_scope.

(** ** Python values, exceptions and control flow *)

Module Py.

(** Exceptions raised or caught somewhere in the two modules.  Both
    [HandoffError] classes (the one declared in [cloudlet_api.py] and
    [elijah.provisioning.handoff.HandoffError]) carry a message only;
    they never meet in one process and share a constructor here. *)
Inductive exn : Type :=
| InstanceNotFound (instance_id : string)
| InstanceNotRunning (instance_id : string)
| InstanceInvalidState (instance_uuid : string)
| UnexpectedTaskStateError (instance_uuid : string)
| ImageNotFound (msg : string)
| HandoffError (msg : string)
| ValueError (msg : string)
| KeyError (key : string)
| IndexError
| TypeError (msg : string)
| AttributeError (msg : string)
| UnboundLocalError (name : string)
| IOError (path : string)
| OSError (path : string).

#[global] Instance exn_eq_dec : EqDecision exn.
Proof. solve_decision. Defined.

Inductive outcome (A : Type) : Type :=
| Return (a : A)
| Raise (e : exn).
Arguments Return {A} a.
Arguments Raise {A} e.

(** A computation reads and writes a store [St]; an exception leaves the
    store as it was when it was raised. *)
Definition M (St A : Type) : Type := St → outcome A * St.

#[global] Instance M_ret {St} : MRet (M St) :=
  λ A a s, (Return a, s).

#[global] Instance M_bind {St} : MBind (M St) :=
  λ A B f m s,
    match m s with
    | (Return a, s') => f a s'
    | (Raise e, s') => (Raise e, s')
    end.

#[global] Instance M_fmap {St} : FMap (M St) :=
  λ A B f m s,
    match m s with
    | (Return a, s') => (Return (f a), s')
    | (Raise e, s') => (Raise e, s')
    end.

Definition raise {St A} (e : exn) : M St A := λ s, (Raise e, s).
Definition get {St} : M St St := λ s, (Return s, s).
Definition gets {St A} (f : St → A) : M St A := λ s, (Return (f s), s).
Definition modify {St} (f : St → St) : M St unit := λ s, (Return tt, f s).

(** [try: m except e: h e]; the handler answers [None] for an exception
    its [except] clauses do not name. *)
Definition try_except {St A} (m : M St A) (h : exn → option (M St A)) : M St A :=
  λ s,
    match m s with
    | (Return a, s') => (Return a, s')
    | (Raise e, s') =>
        match h e with
        | Some k => k s'
        | None => (Raise e, s')
        end
    end.

(** [try: m finally: fin]: [fin] runs on every path; an exception of
    [fin] replaces the pending one. *)
Definition try_finally {St A} (m : M St A) (fin : M St unit) : M St A :=
  λ s,
    match m s with
    | (r, s') =>
        match fin s' with
        | (Return _, s'') => (r, s'')
        | (Raise e, s'') => (Raise e, s'')
        end
    end.

Definition when {St} (b : bool) (m : M St unit) : M St unit :=
  if b then m else mret tt.

(** *** Strings *)

Definition TAB : ascii := "009"%char.
Definition LF : ascii := "010"%char.
Definition tab : string := String TAB EmptyString.
Definition newline : string := String LF EmptyString.

(** [s.split(sep)] for a one-character separator: never empty, the last
    element is what follows the last separator. *)
Fixpoint split (sep : ascii) (s : string) : list string :=
  match s with
  | EmptyString => [EmptyString]
  | String c s' =>
      if Ascii.eqb c sep then EmptyString :: split sep s'
      else match split sep s' with
           | [] => [String c EmptyString]
           | w :: ws => String c w :: ws
           end
  end.

(** [l[-1]] *)
Fixpoint last_item {A} (l : list A) : option A :=
  match l with
  | [] => None
  | [x] => Some x
  | _ :: l' => last_item l'
  end.

Definition lower_ascii (c : ascii) : ascii :=
  let n := nat_of_ascii c in
  if ((65 <=? n) && (n <=? 90))%nat then ascii_of_nat (n + 32) else c.

(** [s.lower()] on a byte string *)
Fixpoint lower (s : string) : string :=
  match s with
  | EmptyString => EmptyString
  | String c s' => String (lower_ascii c) (lower s')
  end.

Definition is_space (c : ascii) : bool :=
  let n := nat_of_ascii c in
  ((n =? 32) || ((9 <=? n) && (n <=? 13)))%nat.

Fixpoint lstrip (s : string) : string :=
  match s with
  | String c s' => if is_space c then lstrip s' else s
  | EmptyString => EmptyString
  end.

Definition rstrip (s : string) : string :=
  String.rev (lstrip (String.rev s)).

Definition digit_of (c : ascii) : option Z :=
  let n := nat_of_ascii c in
  if ((48 <=? n) && (n <=? 57))%nat then Some (Z.of_nat (n - 48)) else None.

Fixpoint digits (acc : Z) (s : string) : option Z :=
  match s with
  | EmptyString => Some acc
  | String c s' =>
      match digit_of c with
      | Some d => digits (10 * acc + d) s'
      | None => None
      end
  end.

(** [int(s)] for a string: surrounding white space, an optional sign, at
    least one decimal digit; anything else is a [ValueError]. *)
Definition int_of_string (s : string) : option Z :=
  match rstrip (lstrip s) with
  | EmptyString => None
  | String c s' =>
      if Ascii.eqb c "-" then
        match s' with EmptyString => None | _ => Z.opp <$> digits 0 s' end
      else if Ascii.eqb c "+" then
        match s' with EmptyString => None | _ => digits 0 s' end
      else digits 0 (String c s')
  end.

(** [os.path.join(a, b)] for a relative [b] and a directory [a] that
    does not end with a slash. *)
Definition path_join (a b : string) : string := a +:+ "/" +:+ b.

End Py.
Import Py.

(** *** JSON values, as [jsonutils.loads] returns them *)

#[warnings="-register-all"]
Inductive json : Type :=
| JNull
| JBool (b : bool)
| JInt (z : Z)
| JStr (s : string)
| JList (l : list json)
| JObj (m : gmap string json).

Module Json.

#[global] Instance outcome_ret : MRet outcome := λ A a, Return a.
#[global] Instance outcome_bind : MBind outcome :=
  λ A B f m, match m with Return a => f a | Raise e => Raise e end.

Definition lift {St A} (r : outcome A) : M St A := λ s, (r, s).

(** [d[key]] *)
Definition subscript (d : json) (key : string) : outcome json :=
  match d with
  | JObj m => match m !! key with Some v => Return v | None => Raise (KeyError key) end
  | JNull => Raise (TypeError "'NoneType' object has no attribute '__getitem__'")
  | JList _ => Raise (TypeError "list indices must be integers")
  | JStr _ => Raise (TypeError "string indices must be integers")
  | JBool _ | JInt _ => Raise (TypeError "object has no attribute '__getitem__'")
  end.

(** [l[0]] *)
Definition first (l : json) : outcome json :=
  match l with
  | JList (x :: _) => Return x
  | JList [] => Raise IndexError
  | JStr (String c _) => Return (JStr (String c EmptyString))
  | JStr EmptyString => Raise IndexError
  | JObj _ => Raise (KeyError "0")
  | JNull | JBool _ | JInt _ => Raise (TypeError "object has no attribute '__getitem__'")
  end.

(** [d.get(key, None)] *)
Definition get (d : json) (key : string) : outcome json :=
  match d with
  | JObj m => Return (default JNull (m !! key))
  | _ => Raise (AttributeError "get")
  end.

(** [len(x) == 0] *)
Definition len_is_zero (x : json) : outcome bool :=
  match x with
  | JStr s => Return (bool_decide (s = ""))
  | JList l => Return (bool_decide (l = []))
  | JObj m => Return (bool_decide (m = ∅))
  | JNull | JBool _ | JInt _ => Raise (TypeError "object has no len()")
  end.

(** [int(x)] *)
Definition int (x : json) : outcome Z :=
  match x with
  | JInt z => Return z
  | JBool b => Return (if b then 1 else 0)
  | JStr s =>
      match int_of_string s with
      | Some z => Return z
      | None => Raise (ValueError "invalid literal for int() with base 10")
      end
  | JNull | JList _ | JObj _ =>
      Raise (TypeError "int() argument must be a string or a number")
  end.

Definition is_none (x : json) : bool :=
  match x with JNull => true | _ => false end.

(** [x == s] for a string [s] *)
Definition eq_str (x : json) (s : string) : bool :=
  match x with JStr s' => bool_decide (s' = s) | _ => false end.

(** [x == v] for [v] a string or [None] *)
Definition eq_opt_str (x : json) (v : option string) : bool :=
  match x, v with
  | JStr s', Some s => bool_decide (s' = s)
  | JNull, None => true
  | _, _ => false
  end.

End Json.

(** *** URLs: [urlparse.urlsplit] and [urlparse.urlparse]

    Scheme, network location and path as the Python 2.7 library computes
    them; query, fragment and parameters are dropped from the path and not
    kept, and the check of IPv6 brackets is left out. *)

Module Url.

Record split_result : Type := SplitResult {
  scheme : string;
  netloc : string;
  path : string }.

Fixpoint break_on (p : ascii → bool) (s : string) : string * string :=
  match s with
  | EmptyString => (EmptyString, EmptyString)
  | String c s' =>
      if p c then (EmptyString, s)
      else let '(a, b) := break_on p s' in (String c a, b)
  end.

Definition all_chars (p : ascii → bool) (s : string) : bool :=
  forallb p (list_ascii_of_string s).

Definition is_digit (c : ascii) : bool :=
  let n := nat_of_ascii c in ((48 <=? n) && (n <=? 57))%nat.

Definition is_letter (c : ascii) : bool :=
  let n := nat_of_ascii c in
  (((65 <=? n) && (n <=? 90)) || ((97 <=? n) && (n <=? 122)))%nat.

Definition scheme_char (c : ascii) : bool :=
  is_letter c || is_digit c || Ascii.eqb c "+" || Ascii.eqb c "-" || Ascii.eqb c ".".

Definition netloc_delim (c : ascii) : bool :=
  Ascii.eqb c "/" || Ascii.eqb c "?" || Ascii.eqb c "#".

Definition urlsplit (url : string) : split_result :=
  let '(pre, rest0) := break_on (Ascii.eqb ":") url in
  let '(sch, url1) :=
    match pre, rest0 with
    | String _ _, String _ rest =>
        if String.eqb pre "http" then ("http", rest)
        else if all_chars scheme_char pre then
          if String.eqb rest "" || negb (all_chars is_digit rest)
          then (lower pre, rest) else ("", url)
        else ("", url)
    | _, _ => ("", url)
    end in
  let '(loc, url2) :=
    match url1 with
    | String "/" (String "/" after) => break_on netloc_delim after
    | _ => ("", url1)
    end in
  let url3 := fst (break_on (Ascii.eqb "#") url2) in
  let url4 := fst (break_on (Ascii.eqb "?") url3) in
  {| scheme := sch; netloc := loc; path := url4 |}.

Definition uses_params : list string :=
  ["ftp"; "hdl"; "prospero"; "http"; "imap"; "https"; "shttp"; "rtsp";
   "rtspu"; "sip"; "sips"; "mms"; ""; "sftp"; "tel"].

(** the path of [_splitparams]: cut at the first semicolon of the last
    path segment *)
Definition strip_params (url : string) : string :=
  let '(last_rev, dir_rev) := break_on (Ascii.eqb "/") (String.rev url) in
  String.rev dir_rev +:+ fst (break_on (Ascii.eqb ";") (String.rev last_rev)).

Definition urlparse (url : string) : split_result :=
  let r := urlsplit url in
  if bool_decide (scheme r ∈ uses_params)
  then {| scheme := scheme r; netloc := netloc r; path := strip_params (path r) |}
  else r.

End Url.

(** ** Instances and task states shared by the API and the driver *)

Module Nova.

Inductive vm_state : Type :=
| ACTIVE | BUILDING | PAUSED | SUSPENDED | STOPPED | ERROR.

Inductive task_state : Type :=
| IMAGE_SNAPSHOT
| IMAGE_PENDING_UPLOAD
| IMAGE_UPLOADING
| OTHER_TASK (name : string).

#[global] Instance vm_state_eq_dec : EqDecision vm_state.
Proof. solve_decision. Defined.
#[global] Instance task_state_eq_dec : EqDecision task_state.
Proof. solve_decision. Defined.

Record context : Type := Context {
  ctx_user_id : string;
  ctx_project_id : string;
  ctx_is_admin : bool }.

Record instance : Type := Instance {
  uuid : string;
  vm_state_of : vm_state;
  task_state_of : option task_state;
  launched_at : bool;
  host : string;
  image_ref : option string;
  kernel_id : string;
  ramdisk_id : string;
  project_id : string;
  user_id : string;
  display_name : string;
  vcpus : Z;
  memory_mb : Z;
  root_gb : Z;
  system_metadata : gmap string string;
  metadata : option (gmap string string) }.

Definition set_task_state (ts : option task_state) (i : instance) : instance :=
  {| uuid := uuid i; vm_state_of := vm_state_of i; task_state_of := ts;
     launched_at := launched_at i; host := host i; image_ref := image_ref i;
     kernel_id := kernel_id i; ramdisk_id := ramdisk_id i;
     project_id := project_id i; user_id := user_id i;
     display_name := display_name i; vcpus := vcpus i;
     memory_mb := memory_mb i; root_gb := root_gb i;
     system_metadata := system_metadata i; metadata := metadata i |}.

End Nova.

(** ** [api/cloudlet_api.py]: class [CloudletAPI] *)

Module CloudletAPI.
Import Nova.

Definition PROPERTY_KEY_CLOUDLET : string := "is_cloudlet".
Definition PROPERTY_KEY_CLOUDLET_TYPE : string := "cloudlet_type".
Definition PROPERTY_KEY_NETWORK_INFO : string := "network".
Definition PROPERTY_KEY_BASE_UUID : string := "base_sha256_uuid".
Definition PROPERTY_KEY_BASE_RESOURCE : string := "base_resource_xml_str".

Definition IMAGE_TYPE_BASE_DISK : string := "cloudlet_base_disk".
Definition IMAGE_TYPE_BASE_MEM : string := "cloudlet_base_memory".
Definition IMAGE_TYPE_BASE_DISK_HASH : string := "cloudlet_base_disk_hash".
Definition IMAGE_TYPE_BASE_MEM_HASH : string := "cloudlet_base_memory_hash".
Definition IMAGE_TYPE_OVERLAY : string := "cloudlet_overlay".

(** The image dictionary handed to [image_api.create]. *)
Record sent_meta : Type := SentMeta {
  sm_name : string;
  sm_is_public : bool;
  sm_properties : gmap string json }.

(** The body of the create-server request, before [jsonutils.dumps];
    [imageRef] is sent as [str(basevm_uuid)]. *)
Record server_request : Type := ServerRequest {
  sr_name : string;
  sr_imageRef : json;
  sr_flavorRef : json;
  sr_handoff_info : string;
  sr_overlay_url : option string;
  sr_min_count : string;
  sr_max_count : string;
  sr_networks : list json }.

(** The [handoff_url] argument of the cast to the compute host: the
    caller's string, or ["tcp://%s:%s" % (server_ip, server_port)]. *)
Inductive handoff_url_value : Type :=
| UrlString (url : string)
| TcpFormat (server_ip server_port : json).

(** Calls that leave the API process, in the order they are made. *)
Inductive event : Type :=
| QuotaReserve (project user : string) (instances cores ram : Z)
| InstanceSave (inst : instance)
| HttpGet (netloc end_string : string) (token : option string)
| HttpPost (netloc url : string) (token : option string) (body : server_request)
| CallCreateBase (server : string) (inst : instance)
    (vm_name disk_meta_id memory_meta_id diskhash_meta_id memoryhash_meta_id : string)
| CastOverlayFinish (server : string) (inst : instance)
    (reservations : list string) (overlay_name overlay_id : string)
| CastHandoff (server : string) (inst : instance)
    (reservations : list string) (handoff_url : handoff_url_value)
    (residue_glance_id : option string).

(** What the API process can observe of its collaborators. *)
Record state : Type := State {
  glance : list (string * sent_meta);
  db_task_state : gmap string (option task_state);
  trace : list event }.

(** Answers of the collaborators. *)
Record env : Type := Env {
  (** [hashlib.sha256(s).hexdigest()] *)
  sha256_hexdigest : string → string;
  (** [network_api.get_vifs_by_instance]: uuid and address of each VIF *)
  vifs_by_instance : instance → list (string * string);
  (** the image dictionary that [utils.get_image_from_system_metadata]
      builds from the instance's system metadata, updated with the
      metadata of the image the instance was booted from *)
  image_from_system_metadata : instance → gmap string json;
  (** the id the image service gives to its n-th new record *)
  new_image_id : nat → string;
  (** [quotas.reservations] after [quotas.reserve] *)
  reservations_of : instance → list string;
  (** decoded body of a GET reply, by network location and request path *)
  http_get : string → string → gmap string (list json);
  (** decoded body of the reply to the create-server POST *)
  http_post : string → string → server_request → json }.

Definition log (e : event) : M state unit :=
  modify (λ s, {| glance := glance s; db_task_state := db_task_state s;
                  trace := trace s ++ [e] |}).

(** [image_api.create(context, sent_meta)] *)
Definition image_api_create (E : env) (meta : sent_meta) : M state (string * sent_meta) :=
  n ← gets (λ s, length (glance s));
  let rec := (new_image_id E n, meta) in
  modify (λ s, {| glance := glance s ++ [rec];
                  db_task_state := db_task_state s; trace := trace s |});;
  mret rec.

(** [instance.save(expected_task_state=expected)] *)
Definition instance_save (inst : instance) (expected : list (option task_state)) : M state unit :=
  stored ← gets (λ s, db_task_state s !! uuid inst);
  match stored with
  | None => raise (InstanceNotFound (uuid inst))
  | Some ts =>
      if bool_decide (ts ∈ expected) then
        modify (λ s, {| glance := glance s;
                        db_task_state := <[uuid inst := task_state_of inst]> (db_task_state s);
                        trace := trace s |});;
        log (InstanceSave inst)
      else raise (UnexpectedTaskStateError (uuid inst))
  end.

(** [@nova_api.check_instance_state(vm_state=[vm_states.ACTIVE])], with
    the decorator's defaults [task_state=(None,)] and
    [must_have_launched=True]. *)
Definition check_instance_state {A} (inst : instance) (f : M state A) : M state A :=
  if negb (bool_decide (vm_state_of inst = ACTIVE)) then raise (InstanceInvalidState (uuid inst))
  else if negb (bool_decide (task_state_of inst = None)) then raise (InstanceInvalidState (uuid inst))
  else if negb (launched_at inst) then raise (InstanceInvalidState (uuid inst))
  else f.

Definition _cloudlet_create_image (E : env) (ctx : context) (inst : instance)
    (name image_type : string) (extra_properties : option (gmap string json))
  : M state (string * sent_meta) :=
  let extra_properties := default ∅ extra_properties in
  let properties : gmap string json :=
    <["instance_uuid" := JStr (uuid inst)]>
      (<["user_id" := JStr (ctx_user_id ctx)]>
         (<["image_type" := JStr image_type]> ∅)) in
  let sent_properties := image_from_system_metadata E inst in
  (* The properties set up above and in extra_properties have precedence *)
  let properties := extra_properties ∪ properties in
  image_api_create E
    {| sm_name := name; sm_is_public := false;
       sm_properties := properties ∪ sent_properties |}.

Definition base_properties (image_type : string) (net_info : json)
    (base_sha256_uuid : string) : gmap string json :=
  <[PROPERTY_KEY_CLOUDLET := JBool true]>
    (<[PROPERTY_KEY_CLOUDLET_TYPE := JStr image_type]>
       (<[PROPERTY_KEY_NETWORK_INFO := net_info]>
          (<[PROPERTY_KEY_BASE_UUID := JStr base_sha256_uuid]> ∅))).

Definition cloudlet_create_base (E : env) (ctx : context) (inst : instance)
    (base_name : string) (extra_properties : option (gmap string json))
  : M state ((string * sent_meta) * (string * sent_meta)) :=
  check_instance_state inst (
    (* add network info *)
    let net_info :=
      JList ((λ vif, JObj (<["id" := JStr vif.1]> (<["mac_address" := JStr vif.2]> ∅)))
               <$> vifs_by_instance E inst) in
    (* add instance resource info *)
    let base_sha256_uuid := sha256_hexdigest E (uuid inst) in
    let extra := default ∅ extra_properties in
    let disk_properties := extra ∪ base_properties IMAGE_TYPE_BASE_DISK net_info base_sha256_uuid in
    let mem_properties := extra ∪ base_properties IMAGE_TYPE_BASE_MEM net_info base_sha256_uuid in
    let diskhash_properties :=
      extra ∪ base_properties IMAGE_TYPE_BASE_DISK_HASH net_info base_sha256_uuid in
    let memhash_properties :=
      extra ∪ base_properties IMAGE_TYPE_BASE_MEM_HASH net_info base_sha256_uuid in
    let disk_name := base_name +:+ "-disk" in
    let diskhash_name := base_name +:+ "-disk-meta" in
    let mem_name := base_name +:+ "-mem" in
    let memhash_name := base_name +:+ "-mem-meta" in
    let snapshot := "snapshot" in
    recv_mem_meta ← _cloudlet_create_image E ctx inst mem_name snapshot (Some mem_properties);
    recv_diskhash_meta ←
      _cloudlet_create_image E ctx inst diskhash_name snapshot (Some diskhash_properties);
    recv_memhash_meta ←
      _cloudlet_create_image E ctx inst memhash_name snapshot (Some memhash_properties);
    (* add reference for the other base vm information to get it later *)
    let disk_properties :=
      <[IMAGE_TYPE_BASE_MEM := JStr recv_mem_meta.1]>
        (<[IMAGE_TYPE_BASE_DISK_HASH := JStr recv_diskhash_meta.1]>
           (<[IMAGE_TYPE_BASE_MEM_HASH := JStr recv_memhash_meta.1]> disk_properties)) in
    recv_disk_meta ←
      _cloudlet_create_image E ctx inst disk_name snapshot (Some disk_properties);
    let inst := set_task_state (Some IMAGE_SNAPSHOT) inst in
    instance_save inst [None];;
    (* api request *)
    log (CallCreateBase (host inst) inst base_name recv_disk_meta.1 recv_mem_meta.1
           recv_diskhash_meta.1 recv_memhash_meta.1);;
    mret (recv_disk_meta, recv_mem_meta)).

Definition _create_reservations (E : env) (inst : instance)
    (project user : string) : M state (list string) :=
  log (QuotaReserve project user (-1) (- vcpus inst) (- memory_mb inst));;
  mret (reservations_of E inst).

(** [quotas_obj.ids_from_instance(context, instance)] *)
Definition ids_from_instance (ctx : context) (inst : instance) : string * string :=
  (if ctx_is_admin ctx && negb (bool_decide (ctx_project_id ctx = project_id inst))
   then project_id inst else ctx_project_id ctx,
   if negb (bool_decide (ctx_user_id ctx = user_id inst))
   then user_id inst else ctx_user_id ctx).

Definition cloudlet_create_overlay_finish (E : env) (ctx : context) (inst : instance)
    (overlay_name : string) (extra_properties : option (gmap string json))
  : M state (string * sent_meta) :=
  check_instance_state inst (
    let '(project, user) := ids_from_instance ctx inst in
    reservations ← _create_reservations E inst project user;
    let overlay_meta_properties : gmap string json :=
      default ∅ extra_properties ∪
        <[PROPERTY_KEY_CLOUDLET := JBool true]>
          (<[PROPERTY_KEY_CLOUDLET_TYPE := JStr IMAGE_TYPE_OVERLAY]> ∅) in
    recv_overlay_meta ←
      _cloudlet_create_image E ctx inst overlay_name "snapshot" (Some overlay_meta_properties);
    let inst := set_task_state (Some IMAGE_SNAPSHOT) inst in
    instance_save inst [None];;
    log (CastOverlayFinish (host inst) inst reservations overlay_name recv_overlay_meta.1);;
    mret recv_overlay_meta).

Definition _get_server_info (E : env) (end_point : Url.split_result)
    (token : option string) (request_list : string) (version : option string)
  : M state (option (list json)) :=
  if negb (bool_decide
             (request_list ∈ ["images"; "flavors"; "extensions"; "servers"; "networks"]))
  then mret None
  else
    let str_version := default "None" version in
    let end_string :=
      if String.eqb request_list "extensions" then
        Url.path end_point +:+ "/" +:+ request_list
      else if String.eqb request_list "images" then
        match version with
        | None => Url.path end_point +:+ "/" +:+ request_list +:+ "/detail"
        | Some v => "/" +:+ v +:+ "/" +:+ request_list
        end
      else if String.eqb request_list "networks" then
        "/" +:+ str_version +:+ "/" +:+ request_list
      else Url.path end_point +:+ "/" +:+ request_list +:+ "/detail" in
    (* HTTP response *)
    log (HttpGet (Url.netloc end_point) end_string token);;
    let dd := http_get E (Url.netloc end_point) end_string in
    match dd !! request_list with
    | Some l => mret (Some l)
    | None => raise (KeyError request_list)
    end.

(** [for item in listing], for the value [_get_server_info] returned *)
Definition iterable {St} (listing : option (list json)) : M St (list json) :=
  match listing with
  | Some l => mret l
  | None => raise (TypeError "'NoneType' object is not iterable")
  end.

(** The loop over [image_list]; the result is [basevm_uuid]. *)
Fixpoint find_basevm (image_list : list json) (requested_basevm_id : string) : outcome json :=
  match image_list with
  | [] => Return JNull
  | image_item :: rest =>
      properties ← Json.get image_item "cloudlet_type";
      if Json.is_none properties then find_basevm rest requested_basevm_id
      else
        empty ← Json.len_is_zero properties;
        if (empty : bool) then find_basevm rest requested_basevm_id
        else if negb (Json.eq_str properties IMAGE_TYPE_BASE_DISK)
        then find_basevm rest requested_basevm_id
        else
          base_sha256_uuid ← Json.get image_item PROPERTY_KEY_BASE_UUID;
          if Json.eq_str base_sha256_uuid requested_basevm_id
          then Json.subscript image_item "id"
          else find_basevm rest requested_basevm_id
  end.

(** The loop over [newtork_list].  [network_uuid] is a local variable
    that the loop body binds: [None] here is the unbound variable,
    [Some JNull] the Python value [None]. *)
Fixpoint find_network (newtork_list : list json) (project : string)
    (dest_network : option string) (network_uuid : option json) : outcome (option json) :=
  match newtork_list with
  | [] => Return network_uuid
  | network_item :: rest =>
      owner ← Json.subscript network_item "project_id";
      if negb (Json.eq_str owner project)
      then find_network rest project dest_network network_uuid
      else
        (* network_uuid = None *)
        name ← Json.subscript network_item "name";
        if Json.eq_opt_str name dest_network then
          id ← Json.subscript network_item "id";
          find_network rest project dest_network (Some id)
        else find_network rest project dest_network (Some JNull)
  end.

Fixpoint find_matching_flavor (flavor_list : list json) (cpu_count memory_mb : Z)
  : outcome (json * json) :=
  match flavor_list with
  | [] => Return (JNull, JNull)
  | flavor :: rest =>
      vcpus_field ← Json.subscript flavor "vcpus";
      vcpu ← Json.int vcpus_field;
      ram_field ← Json.subscript flavor "ram";
      ram_mb ← Json.int ram_field;
      if ((vcpu =? cpu_count) && (ram_mb =? memory_mb))%Z then
        links ← Json.subscript flavor "links";
        link ← Json.first links;
        flavor_ref ← Json.subscript link "href";
        flavor_id ← Json.subscript flavor "id";
        Return (flavor_ref, flavor_id)
      else find_matching_flavor rest cpu_count memory_mb
  end.

Definition truthy (s : option string) : bool :=
  match s with Some (String _ _) => true | _ => false end.

(** The three catalogue look-ups of [_prepare_handoff_dest], each with
    the check that follows its loop. *)

Definition select_basevm (E : env) (end_point glance_url : Url.split_result)
    (dest_token : option string) (requested_basevm_id : string) : M state json :=
  (* testing image api v2 *)
  image_list ← _get_server_info E glance_url dest_token "images" (Some "v2");
  image_list ← iterable image_list;
  basevm_uuid ← Json.lift (find_basevm image_list requested_basevm_id);
  if Json.is_none basevm_uuid then
    raise (HandoffError ("Cannot find matching Base VM with (" +:+ requested_basevm_id
                           +:+ ") at (" +:+ Url.netloc end_point +:+ ")"))
  else mret basevm_uuid.

Definition select_network (E : env) (end_point neutron_url : Url.split_result)
    (dest_token : option string) (inst : instance) (dest_network : option string)
  : M state json :=
  (* testing networking api v2.0 *)
  newtork_list ← _get_server_info E neutron_url dest_token "networks" (Some "v2.0");
  newtork_list ← iterable newtork_list;
  network_uuid ← Json.lift (find_network newtork_list (project_id inst) dest_network None);
  match network_uuid with
  | None => raise (UnboundLocalError "network_uuid")
  | Some network_uuid =>
      if Json.is_none network_uuid then
        raise (HandoffError ("Cannot find Networking with (None) at ("
                               +:+ Url.netloc end_point +:+ ")"))
      else mret network_uuid
  end.

Definition select_flavor (E : env) (end_point : Url.split_result)
    (dest_token : option string) (flavor_cpu flavor_memory : Z) : M state (json * json) :=
  flavor_list ← _get_server_info E end_point dest_token "flavors" None;
  flavor_list ← iterable flavor_list;
  '(flavor_ref, flavor_id) ←
    Json.lift (find_matching_flavor flavor_list flavor_cpu flavor_memory);
  if Json.is_none flavor_ref || Json.is_none flavor_id then
    raise (HandoffError ("Cannot find matching flavor with cpu=" +:+ pretty flavor_cpu
                           +:+ ", memory=" +:+ pretty flavor_memory
                           +:+ " at " +:+ Url.netloc end_point))
  else mret (flavor_ref, flavor_id).

Definition _prepare_handoff_dest (E : env)
    (end_point glance_url neutron_url : Url.split_result) (dest_token : option string)
    (inst : instance) (dest_vmname dest_network : option string) : M state json :=
  (* information of current VM at source *)
  let instance_name :=
    if truthy dest_vmname then default "" dest_vmname
    else display_name inst +:+ "-handoff" in
  let flavor_memory := memory_mb inst in
  let flavor_cpu := vcpus inst in
  requested_basevm_id ←
    match system_metadata inst !! "image_base_sha256_uuid" with
    | Some v => mret v
    | None => raise (KeyError "image_base_sha256_uuid")
    end;
  let original_overlay_url := default ∅ (metadata inst) !! "overlay_url" in
  basevm_uuid ← select_basevm E end_point glance_url dest_token requested_basevm_id;
  network_uuid ← select_network E end_point neutron_url dest_token inst dest_network;
  (* Find matching flavor. *)
  '(flavor_ref, flavor_id) ← select_flavor E end_point dest_token flavor_cpu flavor_memory;
  (* generate request *)
  let s :=
    {| sr_name := instance_name; sr_imageRef := basevm_uuid;
       sr_flavorRef := flavor_id; sr_handoff_info := instance_name;
       sr_overlay_url := original_overlay_url;
       sr_min_count := "1"; sr_max_count := "1";
       sr_networks := [network_uuid] |} in
  let url := Url.path end_point +:+ "/servers" in
  log (HttpPost (Url.netloc end_point) url dest_token s);;
  mret (http_post E (Url.netloc end_point) url s).

Definition cloudlet_handoff (E : env) (ctx : context) (inst : instance)
    (handoff_url glance_url neutron_url : string)
    (dest_token dest_vmname dest_network : option string)
    (extra_properties : option (gmap string json)) : M state (option string) :=
  check_instance_state inst (
    let '(project, user) := ids_from_instance ctx inst in
    reservations ← _create_reservations E inst project user;
    let parsed_handoff_url := Url.urlsplit handoff_url in
    '(inst, handoff_url, residue_glance_id) ←
      (if String.eqb (Url.scheme parsed_handoff_url) "file" then
         (* save the VM residue to glance file *)
         let dest_vm_name := Url.netloc parsed_handoff_url in
         let residue_meta_properties : gmap string json :=
           default ∅ extra_properties ∪
             <[PROPERTY_KEY_CLOUDLET := JBool true]>
               (<[PROPERTY_KEY_CLOUDLET_TYPE := JStr IMAGE_TYPE_OVERLAY]> ∅) in
         recv_residue_meta ←
           _cloudlet_create_image E ctx inst dest_vm_name "snapshot"
             (Some residue_meta_properties);
         let inst := set_task_state (Some IMAGE_SNAPSHOT) inst in
         instance_save inst [None];;
         mret (inst, UrlString handoff_url, Some recv_residue_meta.1)
       else if String.eqb (Url.scheme parsed_handoff_url) "http" then
         (* handoff to other OpenStack: send message to the destination *)
         ret_value ←
           _prepare_handoff_dest E (Url.urlparse handoff_url) (Url.urlparse glance_url)
             (Url.urlparse neutron_url) dest_token inst dest_vmname dest_network;
         (* parse handoff URL from the return *)
         handoff_dest_addr ← Json.lift (Json.get ret_value "handoff");
         if Json.is_none handoff_dest_addr then
           raise (HandoffError "Cannot get handoff URL from the destination message")
         else
           server_ip ← Json.lift (Json.subscript handoff_dest_addr "server_ip");
           server_port ← Json.lift (Json.subscript handoff_dest_addr "server_port");
           mret (inst, TcpFormat server_ip server_port, None)
       else mret (inst, UrlString handoff_url, None));
    (* api request *)
    log (CastHandoff (host inst) inst reservations handoff_url residue_glance_id);;
    mret residue_glance_id).

End CloudletAPI.

(** ** [api/cloudlet_api.py]: class [PortForwarding]

    A socket end is what its peer still has to deliver: the segments that
    successive [recv] calls find, in order; when none is left the peer
    has closed.  Socket errors are not modelled. *)

Module PortForwarding.

Inductive endpoint : Type := Client | Server.

Inductive event : Type :=
| Recv (source : endpoint) (d : string)
| SendAll (dest : endpoint) (d : string)
| ClosedCallback.

Record state : Type := State {
  from_client : list string;
  from_server : list string;
  trace : list event }.

Definition incoming (e : endpoint) (s : state) : list string :=
  match e with Client => from_client s | Server => from_server s end.

Definition set_incoming (e : endpoint) (l : list string) (s : state) : state :=
  match e with
  | Client => {| from_client := l; from_server := from_server s; trace := trace s |}
  | Server => {| from_client := from_client s; from_server := l; trace := trace s |}
  end.

Definition log (ev : event) (s : state) : state :=
  {| from_client := from_client s; from_server := from_server s;
     trace := trace s ++ [ev] |}.

(** [source.recv(bufsize)]: at most [bufsize] bytes of the next segment;
    the empty string once the peer has closed. *)
Definition recv (source : endpoint) (bufsize : nat) (s : state) : string * state :=
  match incoming source s with
  | [] => ("", log (Recv source "") s)
  | seg :: rest =>
      let d := substring 0 bufsize seg in
      let remainder := substring bufsize (String.length seg - bufsize) seg in
      let rest' := if String.eqb remainder "" then rest else remainder :: rest in
      (d, log (Recv source d) (set_incoming source rest' s))
  end.

(** [dest.sendall(d)] *)
Definition sendall (dest : endpoint) (d : string) (s : state) : state :=
  log (SendAll dest d) s.

(** [self.closed_callback] and the default [lambda: None] *)
Definition closed_callback (s : state) : state := log ClosedCallback s.
Definition no_callback (s : state) : state := s.

#[warnings="-abstract-large-number"]
Definition CHUNK : nat := 32384.

(** Bytes and segments the peer of [source] has still to deliver. *)
Definition pending (source : endpoint) (s : state) : nat :=
  list_sum ((λ seg, S (String.length seg)) <$> incoming source s).

(** [forward(self, source, dest, cb)] *)
Equations? forward (source dest : endpoint) (cb : state → state) (s : state)
  : state by wf (pending source s) lt :=
forward source dest cb s with inspect (String.eqb (recv source CHUNK s).1 "") := {
  | exist _ true _ => cb (recv source CHUNK s).2
  | exist _ false Hd =>
      forward source dest cb (sendall dest (recv source CHUNK s).1 (recv source CHUNK s).2) }.
Proof.
  assert (Hpre : ∀ (n : nat) (x : string),
             String.length (substring 0 n x) = Nat.min n (String.length x)).
  { intros n x; revert n; induction x as [|c x IH]; intros [|n]; simpl; try reflexivity.
    now rewrite IH. }
  assert (Hsuf : ∀ (n : nat) (x : string),
             String.length (substring n (String.length x - n) x)
             = (String.length x - n)%nat).
  { intros n x; revert n; induction x as [|c x IH]; intros [|n]; simpl; try reflexivity.
    - f_equal. specialize (IH 0%nat). rewrite Nat.sub_0_r in IH. apply IH.
    - apply IH. }
  change (pending source (recv source CHUNK s).2 < pending source s)%nat.
  revert Hd. generalize CHUNK as bufsize. intros bufsize.
  unfold recv, pending. destruct (incoming source s) as [|seg rest] eqn:Hin.
  - simpl. discriminate.
  - cbn [fst snd]. intros Hd.
    assert (0 < String.length (substring 0 bufsize seg))%nat as Hlen
      by (destruct (substring 0 bufsize seg); simpl in *; [discriminate | lia]).
    rewrite Hpre in Hlen.
    specialize (Hsuf bufsize seg).
    destruct (String.eqb (substring bufsize (String.length seg - bufsize) seg) "") eqn:Hr;
      destruct source; simpl; unfold fmap; lia.
Qed.

(** [port_forwarding(self)]: after [accept] and [connect], the two
    greenlets handed to [eventlet.spawn_n]. *)
Definition port_forwarding : list (state → state) :=
  [ forward Client Server closed_callback;
    forward Server Client no_callback ].

End PortForwarding.

(** ** [compute/cloudlet_driver.py]: class [CloudletDriver] *)

Module CloudletDriver.
Import Nova.

(** An image as [image_service.show] returns it; the image service keeps
    property values as strings. *)
Record image_meta : Type := ImageMeta {
  im_id : string;
  im_name : string;
  im_container_format : option string;
  im_properties : option (gmap string string) }.

(** The dictionary [_get_snapshot_metadata] builds. *)
Record snapshot_metadata : Type := SnapshotMetadata {
  md_is_public : bool;
  md_status : string;
  md_name : string;
  md_properties : gmap string string;
  md_disk_format : string;
  md_container_format : string }.

(** [synthesis.VM_Overlay]: a resumed base VM whose changes can be packed
    into an overlay. *)
Record VM_Overlay : Type := VMOverlay {
  vo_base_disk : string;
  vo_base_mem : string;
  vo_base_diskmeta : string;
  vo_base_memmeta : string;
  vo_base_hashvalue : option string;
  vo_nova_xml : string;
  overlay_zipfile : option string }.

(** [synthesis.SynthesizedVM]; [machine] is the hypervisor domain, [None]
    once it is given up. *)
Record SynthesizedVM : Type := MkSynthesizedVM {
  sv_launch_disk : string;
  sv_launch_mem : string;
  fuse_mountpoint : string;
  fuse_modified_disk_chunks : list Z;
  qemu_logfile : string;
  qmp_channel : string;
  machine : option string;
  sv_nova_xml : string }.

Record interface : Type := Interface {
  if_type : option string;
  if_xml : string }.

(** A hypervisor domain: the [devices/interface] elements of its XML
    description. *)
Record domain : Type := Domain {
  dom_interfaces : list interface }.

(** One observation of the transfer worker while it runs: what
    [os.read] on its standard output gave. *)
Inductive poll : Type :=
| ReadOk (buf : string)
| ReadError (errno : Z).

(** A run of the external transfer worker: the reads made while
    [proc.poll()] is [None], then its exit. *)
Record worker_run : Type := WorkerRun {
  polls : list poll;
  returncode : Z;
  remaining_stdout : string;
  writes_output : bool }.

(** Arguments of [HandoffDataSend.save_data]. *)
Record handoff_data_send : Type := HandoffDataSend {
  hs_base_vm_paths : list string;
  hs_base_hashvalue : option string;
  hs_dest_handoff_url : string;
  hs_mountpoint : string;
  hs_qemu_logfile : string;
  hs_qmp_channel : string;
  hs_machine_id : string;
  hs_modified_disk_chunks : list Z;
  hs_libvirt_uri : string }.

(** *** The guest XML

    An element as [xml.etree.ElementTree] has it: a tag, attributes and
    children; text is not kept. *)
#[warnings="-register-all"]
Inductive element : Type :=
| Element (tag : string) (attrib : gmap string string) (children : list element).

Definition etag (x : element) : string := let 'Element t _ _ := x in t.
Definition eattrib (x : element) : gmap string string := let 'Element _ a _ := x in a.
Definition echildren (x : element) : list element := let 'Element _ _ c := x in c.

(** [parent.find(tag)]: the first child with the tag *)
Fixpoint find (tag : string) (l : list element) : option element :=
  match l with
  | [] => None
  | c :: rest => if String.eqb (etag c) tag then Some c else find tag rest
  end.

(** [parent.remove(parent.find(tag))]: the first child with the tag goes *)
Fixpoint remove_first (tag : string) (l : list element) : list element :=
  match l with
  | [] => []
  | c :: rest => if String.eqb (etag c) tag then rest else c :: remove_first tag rest
  end.

(** [for e in parent.findall(tag): parent.remove(e)]: every child with
    the tag goes *)
Fixpoint remove_all (tag : string) (l : list element) : list element :=
  match l with
  | [] => []
  | c :: rest =>
      if String.eqb (etag c) tag then remove_all tag rest else c :: remove_all tag rest
  end.

(** the first child with the tag, changed in place *)
Fixpoint update_first (tag : string) (f : element → element) (l : list element)
  : list element :=
  match l with
  | [] => []
  | c :: rest =>
      if String.eqb (etag c) tag then f c :: rest else c :: update_first tag f rest
  end.

(** [del hdd_driver.attrib['cache']] when the driver has one *)
Definition drop_cache (hdd_driver : element) : element :=
  match eattrib hdd_driver !! "cache" with
  | Some _ => Element (etag hdd_driver) (delete "cache" (eattrib hdd_driver))
                (echildren hdd_driver)
  | None => hdd_driver
  end.

(** the body of the loop over [devices/disk] *)
Definition polish_disk (disk_element : element) : outcome element :=
  match eattrib disk_element !! "device" with
  | None => Raise (KeyError "device")
  | Some disk_type =>
      if String.eqb disk_type "disk" then
        Return (Element (etag disk_element) (eattrib disk_element)
                  (update_first "driver" drop_cache (echildren disk_element)))
      else Return disk_element
  end.

(** the loop over the [disk] children of one [devices] element *)
Fixpoint polish_disks (l : list element) : outcome (list element) :=
  match l with
  | [] => Return []
  | c :: rest =>
      c' ← (if String.eqb (etag c) "disk" then polish_disk c else Return c);
      rest' ← polish_disks rest;
      Return (c' :: rest')
  end.

(** the loop over [xml.findall('devices/disk')]: every [devices] child,
    in document order *)
Fixpoint polish_devices (l : list element) : outcome (list element) :=
  match l with
  | [] => Return []
  | c :: rest =>
      c' ← (if String.eqb (etag c) "devices" then
              disks ← polish_disks (echildren c);
              Return (Element (etag c) (eattrib c) disks)
            else Return c);
      rest' ← polish_devices rest;
      Return (c' :: rest')
  end.

(** [_polish_VM_configuration], up to the serialisation of the result *)
Definition _polish_VM_configuration (xml : element) : outcome element :=
  (* remove cpu element *)
  let children := remove_first "cpu" (echildren xml) in
  (* TODO: Handle console/serial element properly *)
  match find "devices" children with
  | None => Raise (AttributeError "'NoneType' object has no attribute 'findall'")
  | Some _ =>
      let children :=
        update_first "devices"
          (λ device_element,
             Element (etag device_element) (eattrib device_element)
               (remove_all "serial" (remove_all "console" (echildren device_element))))
          children in
      (* remove O_DIRECT option since FUSE does not support it *)
      children ← polish_devices children;
      Return (Element (etag xml) (eattrib xml) children)
  end.

(** Calls to the collaborators and changes of the two session
    dictionaries, in the order they happen. *)
Inductive event : Type :=
| Pause (instance_uuid : string)
| DetachDevice (instance_uuid nic : string)
| UpdateTaskState (ts : task_state) (expected_state : option task_state)
| CacheImage (image_id fname : string) (size : option Z)
| ResumedRegistered (instance_uuid : string)
| ResumedRemoved (instance_uuid : string)
| SynthesizedRegistered (instance_uuid : string)
| SynthesizedRemoved (instance_uuid : string)
| CreateOverlay (overlay_zip : string)
| GlanceUpdate (meta_id filepath : string) (metadata : snapshot_metadata)
| Preload (diskhash_path memhash_path : string)
| SaveDataSend (data : handoff_data_send) (datafile : string)
| SaveDataRecv (base_vm_paths : list string) (base_hashvalue : option string)
    (launch_diskpath launch_memorypath datafile : string)
| Popen (cmd : list string)
| ProcExited (returncode : Z)
| RunFuse (launch_disk launch_memory : string) (disk_size memory_size : Z)
    (disk_overlay_map memory_overlay_map : string)
| Resume (launch_disk launch_memory : string)
| ResumeBaseVM (base_disk : string)
| RettachNic
| RecoverLaunchVM (overlay_url : string)
| CreateImage (instance_uuid : string)
| GetGuestXML (instance_uuid : string)
| PlugNetwork (instance_uuid : string)
| CreateDomainAndNetwork (instance_uuid : string)
| DestroyDomain (instance_uuid : string)
| TerminateOverlay (instance_uuid : string)
| TerminateSynthesized (instance_uuid : string)
| WaitForBoot (instance_uuid : string).

Record state : Type := State {
  domains : gmap string domain;
  images : gmap string image_meta;
  files : gset string;
  resumed_vm_dict : gmap string VM_Overlay;
  synthesized_vm_dics : gmap string SynthesizedVM;
  trace : list event }.

Record env : Type := Env {
  (** [hashlib.sha1(s).hexdigest()] *)
  sha1_hexdigest : string → string;
  (** [CONF.instances_path], [CONF.image_cache_subdirectory_name],
      [CONF.libvirt.snapshots_directory] *)
  instances_path : string;
  image_cache_subdirectory_name : string;
  snapshots_directory : string;
  (** [libvirt_utils.get_instance_path(instance)] *)
  get_instance_path : instance → string;
  (** [tempfile.gettempdir()] and the random part of a [mkdtemp] name,
      chosen against the files that exist *)
  gettempdir : string;
  mkdtemp_suffix : gset string → string;
  (** [uuid.uuid4().hex] *)
  uuid4_hex : string;
  (** [Cloudlet_Const.OVERLAY_ZIP] *)
  OVERLAY_ZIP : string;
  (** [self._uri()] *)
  libvirt_uri : string;
  (** where [VM_Overlay.create_overlay] leaves the packed overlay *)
  overlay_zip_path : VM_Overlay → string;
  (** the run of [/usr/local/bin/handoff-proc] and of
      [/usr/local/bin/handoff-server-proc] for a given request file *)
  send_worker : string → worker_run;
  recv_worker : string → worker_run;
  (** the object [synthesis.SynthesizedVM(...)] builds and [resume] starts *)
  new_synthesized_vm : string → string → string → SynthesizedVM;
  (** the guest XML of the parent driver, parsed, and
      [ElementTree.tostring] *)
  guest_xml : instance → element;
  tostring : element → string;
  (** the exception a call into the hypervisor, the parent driver or the
      synthesis library ends with, when it fails *)
  library_error : event → option exn;
  (** the domain the hypervisor runs for an instance once it is started *)
  new_domain : instance → domain;
  (** launch disk and launch memory of [synthesis.recover_launchVM] *)
  recovered_launch_paths : string → string * string;
  (** [META_BASE_VM_SHA256] of the overlay package at a URL *)
  overlay_base_sha256 : string → option string }.

Definition set_files (f : gset string → gset string) (s : state) : state :=
  {| domains := domains s; images := images s; files := f (files s);
     resumed_vm_dict := resumed_vm_dict s;
     synthesized_vm_dics := synthesized_vm_dics s; trace := trace s |}.

Definition set_resumed (f : gmap string VM_Overlay → gmap string VM_Overlay)
    (s : state) : state :=
  {| domains := domains s; images := images s; files := files s;
     resumed_vm_dict := f (resumed_vm_dict s);
     synthesized_vm_dics := synthesized_vm_dics s; trace := trace s |}.

Definition set_synthesized (f : gmap string SynthesizedVM → gmap string SynthesizedVM)
    (s : state) : state :=
  {| domains := domains s; images := images s; files := files s;
     resumed_vm_dict := resumed_vm_dict s;
     synthesized_vm_dics := f (synthesized_vm_dics s); trace := trace s |}.

Definition set_domains (f : gmap string domain → gmap string domain) (s : state) : state :=
  {| domains := f (domains s); images := images s; files := files s;
     resumed_vm_dict := resumed_vm_dict s;
     synthesized_vm_dics := synthesized_vm_dics s; trace := trace s |}.

Definition log (e : event) : M state unit :=
  modify (λ s, {| domains := domains s; images := images s; files := files s;
                  resumed_vm_dict := resumed_vm_dict s;
                  synthesized_vm_dics := synthesized_vm_dics s;
                  trace := trace s ++ [e] |}).

(** A call that can fail: it is made, and then raises what the
    collaborator raises. *)
Definition call (E : env) (e : event) : M state unit :=
  log e;;
  match library_error E e with
  | Some x => raise x
  | None => mret tt
  end.

(** *** The file system *)

(** [os.path.exists(p)] *)
Definition path_exists (p : string) : M state bool :=
  gets (λ s, bool_decide (p ∈ files s)).

(** a file written, a directory made *)
Definition create_path (p : string) : M state unit :=
  modify (set_files (λ fs, {[p]} ∪ fs)).

(** [os.remove(p)] *)
Definition os_remove (p : string) : M state unit :=
  present ← path_exists p;
  if (present : bool) then modify (set_files (λ fs, fs ∖ {[p]}))
  else raise (OSError p).

Definition under (dir p : string) : bool :=
  bool_decide (p = dir) || String.prefix (dir +:+ "/") p.

(** [shutil.rmtree(dir)] *)
Definition rmtree (dir : string) : M state unit :=
  present ← path_exists dir;
  if (present : bool)
  then modify (set_files (λ fs, filter (λ p, under dir p = false) fs))
  else raise (OSError dir).

(** [fileutils.ensure_tree(dir)] *)
Definition ensure_tree (dir : string) : M state unit := create_path dir.

(** [tempfile.mkdtemp(prefix=prefix)] under [dir] *)
Definition mkdtemp (E : env) (dir prefix : string) : M state string :=
  fs ← gets files;
  let p := path_join dir (prefix +:+ mkdtemp_suffix E fs) in
  create_path p;;
  mret p.

(** [with utils.tempdir(dir=dir) as tmpdir: body]: the directory is
    removed on the way out; an [OSError] of the removal is only logged. *)
Definition with_tempdir {A} (E : env) (dir : string) (body : string → M state A)
  : M state A :=
  tmpdir ← mkdtemp E dir "tmp";
  try_finally (body tmpdir)
    (try_except (rmtree tmpdir)
       (λ e, match e with OSError _ => Some (mret tt) | _ => None end)).

(** *** Image service and image cache *)

(** [image_service.show(context, image_id)] *)
Definition image_show (image_id : string) : M state image_meta :=
  found ← gets (λ s, images s !! image_id);
  match found with
  | Some meta => mret meta
  | None => raise (ImageNotFound image_id)
  end.

(** [snapshot_props[key]] *)
Definition prop (props : option (gmap string string)) (key : string) : M state string :=
  match props with
  | None => raise (TypeError "'NoneType' object has no attribute '__getitem__'")
  | Some m =>
      match m !! key with
      | Some v => mret v
      | None => raise (KeyError key)
      end
  end.

Definition copied_properties : list string :=
  ["user_id"; "base_image_ref"; "base_resource_xml_str"; "base_sha256_uuid";
   "cloudlet_base_disk_hash"; "cloudlet_base_memory"; "cloudlet_base_memory_hash";
   "cloudlet_type"; "instance_uuid"; "is_cloudlet"].

Fixpoint copy_properties (props : option (gmap string string)) (keys : list string)
    (acc : gmap string string) : M state (gmap string string) :=
  match keys with
  | [] => mret acc
  | key :: rest =>
      v ← prop props key;
      copy_properties props rest (<[key := v]> acc)
  end.

Definition _get_snapshot_metadata (inst : instance) (snapshot_id : string)
  : M state snapshot_metadata :=
  snapshot ← image_show snapshot_id;
  let snapshot_props := im_properties snapshot in
  properties ←
    copy_properties snapshot_props copied_properties
      (<["kernel_id" := kernel_id inst]>
         (<["image_location" := "snapshot"]>
            (<["image_state" := "available"]>
               (<["owner_id" := project_id inst]>
                  (<["ramdisk_id" := ramdisk_id inst]> ∅)))));
  base ← try_except (Some <$> image_show (default "" (image_ref inst)))
            (λ e, match e with ImageNotFound _ => Some (mret None) | _ => None end);
  let base_properties : gmap string string :=
    default ∅ (base ≫= im_properties) in
  let properties :=
    match base_properties !! "architecture" with
    | Some arch => <["architecture" := arch]> properties
    | None => properties
    end in
  mret {| md_is_public := true; md_status := "active"; md_name := im_name snapshot;
          md_properties := properties; md_disk_format := "raw";
          md_container_format := default "bare" (base ≫= im_container_format) |}.

Definition _update_to_glance (filepath meta_id : string) (metadata : snapshot_metadata)
  : M state unit :=
  present ← path_exists filepath;
  if negb present then raise (IOError filepath)
  else
    image_show meta_id;;
    log (GlanceUpdate meta_id filepath metadata).

Definition _get_cache_image (E : env) (inst : instance) (snapshot_id : option string)
  : M state string :=
  (* ensure directories exist and are writable *)
  ensure_tree (get_instance_path E inst);;
  match snapshot_id with
  | None => raise (TypeError "must be string or buffer, not None")
  | Some snapshot_id =>
      let fname := sha1_hexdigest E snapshot_id in
      let size := root_gb inst * 1024 * 1024 * 1024 in
      let size := if (size =? 0)%Z then None else Some size in
      let abspath :=
        path_join (path_join (instances_path E) (image_cache_subdirectory_name E)) fname in
      (* raw('disk').cache(...): fetched from the image service unless the
         cache holds it *)
      cached ← path_exists abspath;
      (if (cached : bool) then mret tt
       else
         image_show snapshot_id;;
         log (CacheImage snapshot_id fname size);;
         create_path abspath);;
      mret abspath
  end.

Definition nonempty (s : option string) : bool :=
  match s with Some (String _ _) => true | _ => false end.

(** [str(meta_data.get(key))] *)
Definition str_get (m : gmap string string) (key : string) : string :=
  default "None" (m !! key).

Definition _get_basevm_meta_info (image : image_meta)
  : option string * option string * option string * option string :=
  match im_properties image with
  | Some meta_data =>
      if negb (bool_decide (meta_data = ∅))
         && nonempty (meta_data !! CloudletAPI.IMAGE_TYPE_BASE_MEM)
      then (Some (str_get meta_data CloudletAPI.PROPERTY_KEY_BASE_UUID),
            Some (str_get meta_data CloudletAPI.IMAGE_TYPE_BASE_MEM),
            Some (str_get meta_data CloudletAPI.IMAGE_TYPE_BASE_DISK_HASH),
            Some (str_get meta_data CloudletAPI.IMAGE_TYPE_BASE_MEM_HASH))
      else (None, None, None, None)
  | None => (None, None, None, None)
  end.

(** [self._host.get_domain(instance)] *)
Definition get_domain (inst : instance) : M state domain :=
  found ← gets (λ s, domains s !! uuid inst);
  match found with
  | Some d => mret d
  | None => raise (InstanceNotFound (uuid inst))
  end.

(** The running domain, or [InstanceNotRunning]. *)
Definition running_domain (inst : instance) : M state domain :=
  try_except (get_domain inst)
    (λ e, match e with
          | InstanceNotFound _ => Some (raise (InstanceNotRunning (uuid inst)))
          | _ => None
          end).

(** remove neutron network interface: the last [bridge] interface of the
    domain is detached, a failure is only logged *)
Definition detach_neutron_nic (inst : instance) (virt_dom : domain) : M state unit :=
  let neutron_nic :=
    fold_left (λ found nic,
                 if bool_decide (if_type nic = Some "bridge") then Some (if_xml nic)
                 else found)
              (dom_interfaces virt_dom) None in
  match neutron_nic with
  | Some nic => log (DetachDevice (uuid inst) nic)
  | None => mret tt
  end.

(** [vm_overlay.create_overlay()] *)
Definition create_overlay (E : env) (vm : VM_Overlay) : M state VM_Overlay :=
  let zip := overlay_zip_path E vm in
  log (CreateOverlay zip);;
  create_path zip;;
  mret {| vo_base_disk := vo_base_disk vm; vo_base_mem := vo_base_mem vm;
          vo_base_diskmeta := vo_base_diskmeta vm; vo_base_memmeta := vo_base_memmeta vm;
          vo_base_hashvalue := vo_base_hashvalue vm; vo_nova_xml := vo_nova_xml vm;
          overlay_zipfile := Some zip |}.

Definition create_overlay_vm (E : env) (inst : instance)
    (overlay_name overlay_id : string) : M state unit :=
  virt_dom ← running_domain inst;
  (* make sure base vm is cached *)
  image_meta ← image_show (default "" (image_ref inst));
  let '(base_sha256_uuid, memory_snap_id, diskhash_snap_id, memhash_snap_id) :=
    _get_basevm_meta_info image_meta in
  _get_cache_image E inst (Some (im_id image_meta));;
  _get_cache_image E inst memory_snap_id;;
  _get_cache_image E inst diskhash_snap_id;;
  _get_cache_image E inst memhash_snap_id;;
  (* remove neutron network interface *)
  detach_neutron_nic inst virt_dom;;
  (* pause VM *)
  log (Pause (uuid inst));;
  (* create VM overlay *)
  meta_metadata ← _get_snapshot_metadata inst overlay_id;
  log (UpdateTaskState IMAGE_PENDING_UPLOAD None);;
  vm_overlay ← gets (λ s, resumed_vm_dict s !! uuid inst);
  match vm_overlay with
  | None => raise (InstanceNotRunning (uuid inst))
  | Some vm_overlay =>
      modify (set_resumed (delete (uuid inst)));;
      log (ResumedRemoved (uuid inst));;
      vm_overlay ← create_overlay E vm_overlay;
      let overlay_zip := default "None" (overlay_zipfile vm_overlay) in
      log (UpdateTaskState IMAGE_UPLOADING (Some IMAGE_PENDING_UPLOAD));;
      (* export to glance *)
      _update_to_glance overlay_zip overlay_id meta_metadata;;
      present ← path_exists overlay_zip;
      when present (os_remove overlay_zip)
  end.

(** [_wait_for_handoff_send], called by the [FixedIntervalLoopingCall]
    once per observation: while [proc.poll()] is [None] the output read
    is only logged, whatever [os.read] gave; when the worker has exited
    the loop is left through [LoopingCallDone]. *)
Fixpoint _wait_for_handoff_send (observations : list poll) : unit :=
  match observations with
  | [] => tt
  | ReadOk _ :: rest => _wait_for_handoff_send rest
  | ReadError _ :: rest => _wait_for_handoff_send rest
  end.

Definition _handoff_send (E : env) (base_vm_paths : list string)
    (base_hashvalue : option string) (synthesized_vm : SynthesizedVM)
    (handoff_url : string) : M state (option string) :=
  match base_vm_paths with
  | [basedisk_path; basemem_path; diskhash_path; memhash_path] =>
      (* preload basevm hash dictionary for creating residue *)
      log (Preload diskhash_path memhash_path);;
      (* Set up temp file path for data structure and residue *)
      residue_tmp_dir ← mkdtemp E (gettempdir E) "cloudlet-residue-";
      let handoff_send_datafile := path_join residue_tmp_dir "handoff_data" in
      let parsed_handoff_url := Url.urlsplit handoff_url in
      let '(residue_zipfile, dest_handoff_url) :=
        if String.eqb (Url.scheme parsed_handoff_url) "file" then
          let residue_zipfile := path_join residue_tmp_dir (OVERLAY_ZIP E) in
          (Some residue_zipfile, "file://" +:+ residue_zipfile)
        else (None, handoff_url) in
      (* data structure for handoff sending *)
      machine_id ←
        match machine synthesized_vm with
        | Some id => mret id
        | None => raise (AttributeError "ID")
        end;
      log (SaveDataSend
             {| hs_base_vm_paths := base_vm_paths; hs_base_hashvalue := base_hashvalue;
                hs_dest_handoff_url := dest_handoff_url;
                hs_mountpoint := fuse_mountpoint synthesized_vm;
                hs_qemu_logfile := qemu_logfile synthesized_vm;
                hs_qmp_channel := qmp_channel synthesized_vm;
                hs_machine_id := machine_id;
                hs_modified_disk_chunks := fuse_modified_disk_chunks synthesized_vm;
                hs_libvirt_uri := libvirt_uri E |}
             handoff_send_datafile);;
      create_path handoff_send_datafile;;
      log (Popen ["/usr/local/bin/handoff-proc"; handoff_send_datafile]);;
      let proc := send_worker E handoff_send_datafile in
      let _ := _wait_for_handoff_send (polls proc) in
      (* the worker has exited; with a file destination it leaves the
         residue there *)
      match residue_zipfile with
      | Some zip => when (writes_output proc) (create_path zip)
      | None => mret tt
      end;;
      log (ProcExited (returncode proc));;
      mret residue_zipfile
  | _ => raise (ValueError "need 4 values to unpack")
  end.

Definition perform_vmhandoff (E : env) (inst : instance) (handoff_url : string)
    (residue_glance_id : option string) : M state unit :=
  virt_dom ← running_domain inst;
  synthesized_vm ← gets (λ s, synthesized_vm_dics s !! uuid inst);
  match synthesized_vm with
  | None => raise (InstanceNotRunning (uuid inst))
  | Some synthesized_vm =>
      (* get the file path for Base VM and VM overlay *)
      image_meta ← image_show (default "" (image_ref inst));
      let '(base_sha256_uuid, memory_snap_id, diskhash_snap_id, memhash_snap_id) :=
        _get_basevm_meta_info image_meta in
      basedisk_path ← _get_cache_image E inst (Some (im_id image_meta));
      basemem_path ← _get_cache_image E inst memory_snap_id;
      diskhash_path ← _get_cache_image E inst diskhash_snap_id;
      memhash_path ← _get_cache_image E inst memhash_snap_id;
      let base_vm_paths := [basedisk_path; basemem_path; diskhash_path; memhash_path] in
      (* remove neutron network interface *)
      detach_neutron_nic inst virt_dom;;
      log (UpdateTaskState IMAGE_PENDING_UPLOAD None);;
      residue_filepath ←
        try_except
          (_handoff_send E base_vm_paths base_sha256_uuid synthesized_vm handoff_url)
          (λ e, match e with
                | HandoffError msg =>
                    Some (raise (ImageNotFound
                                   ("failed to perform VM handoff:" +:+ newline +:+ msg)))
                | _ => None
                end);
      modify (set_synthesized (delete (uuid inst)));;
      log (SynthesizedRemoved (uuid inst));;
      (if nonempty residue_filepath && nonempty residue_glance_id then
         (* export to glance *)
         let residue_glance_id := default "" residue_glance_id in
         meta_metadata ← _get_snapshot_metadata inst residue_glance_id;
         log (UpdateTaskState IMAGE_UPLOADING (Some IMAGE_PENDING_UPLOAD));;
         _update_to_glance (default "" residue_filepath) residue_glance_id meta_metadata
       else mret tt);;
      (* clean up *)
      if nonempty residue_filepath then
        present ← path_exists (default "" residue_filepath);
        when present (os_remove (default "" residue_filepath))
      else mret tt
  end.

(** [_wait_for_handoff_recv]: what is read while the worker runs goes to
    [stdout_buf] (a failed read adds nothing); once the worker has exited
    the rest of its output is read and the loop is left. *)
Fixpoint _wait_for_handoff_recv (observations : list poll) (remaining : string)
    (stdout_buf : string) : string :=
  match observations with
  | [] => stdout_buf +:+ remaining
  | ReadOk buf :: rest => _wait_for_handoff_recv rest remaining (stdout_buf +:+ buf)
  | ReadError _ :: rest => _wait_for_handoff_recv rest remaining stdout_buf
  end.

Definition _handoff_recv (E : env) (base_vm_paths : list string)
    (base_hashvalue : option string)
    (handoff_recv_datafile launch_diskpath launch_memorypath : string)
  : M state (string * string * string * string) :=
  (* data structure for handoff receiving *)
  log (SaveDataRecv base_vm_paths base_hashvalue launch_diskpath launch_memorypath
         handoff_recv_datafile);;
  create_path handoff_recv_datafile;;
  log (Popen ["/usr/local/bin/handoff-server-proc"; "-d"; handoff_recv_datafile]);;
  let proc := recv_worker E handoff_recv_datafile in
  let stdout_buf := _wait_for_handoff_recv (polls proc) (remaining_stdout proc) "" in
  when (writes_output proc) (create_path launch_diskpath;; create_path launch_memorypath);;
  log (ProcExited (returncode proc));;
  if negb (returncode proc =? 0)%Z then
    raise (HandoffError "Failed to receive handoff data")
  else
    (* parse output: this will be fixed at cloudlet deamon *)
    match split TAB (default "" (last_item (split LF stdout_buf))) with
    | [keyword; disksize; memorysize; disk_overlay_map; memory_overlay_map] =>
        if negb (String.eqb (lower keyword) "openstack") then
          raise (HandoffError "Failed to parse returned data")
        else mret (disksize, memorysize, disk_overlay_map, memory_overlay_map)
    | _ => raise (ValueError "wrong number of values to unpack")
    end.

Definition _handoff_launch_vm (E : env) (libvirt_xml base_diskpath base_mempath
    launch_disk launch_memory : string) (launch_disk_size launch_memory_size : Z)
    (disk_overlay_map memory_overlay_map : string) : M state SynthesizedVM :=
  log (RunFuse launch_disk launch_memory launch_disk_size launch_memory_size
         disk_overlay_map memory_overlay_map);;
  let synthesized_vm := new_synthesized_vm E launch_disk launch_memory libvirt_xml in
  log (Resume launch_disk launch_memory);;
  mret synthesized_vm.

(** [int(s)] *)
Definition py_int (s : string) : M state Z :=
  match int_of_string s with
  | Some z => mret z
  | None => raise (ValueError "invalid literal for int() with base 10")
  end.

(** [str(image_properties.get(key))] *)
Definition str_prop (image_properties : option (gmap string string)) (key : string)
  : M state string :=
  match image_properties with
  | Some m => mret (str_get m key)
  | None => raise (AttributeError "'NoneType' object has no attribute 'get'")
  end.

Definition _spawn_using_handoff (E : env) (inst : instance) (xml image_meta_id : string)
    (handoff_info : string) : M state SynthesizedVM :=
  image_detail_meta ← image_show (default "" (image_ref inst));
  let image_properties := im_properties image_detail_meta in
  memory_snap_id ← str_prop image_properties CloudletAPI.IMAGE_TYPE_BASE_MEM;
  diskhash_snap_id ← str_prop image_properties CloudletAPI.IMAGE_TYPE_BASE_DISK_HASH;
  memhash_snap_id ← str_prop image_properties CloudletAPI.IMAGE_TYPE_BASE_MEM_HASH;
  basedisk_path ← _get_cache_image E inst (Some image_meta_id);
  basemem_path ← _get_cache_image E inst (Some memory_snap_id);
  diskhash_path ← _get_cache_image E inst (Some diskhash_snap_id);
  memhash_path ← _get_cache_image E inst (Some memhash_snap_id);
  let base_vm_paths := [basedisk_path; basemem_path; diskhash_path; memhash_path] in
  let image_sha256 := image_properties ≫= (λ m, m !! CloudletAPI.PROPERTY_KEY_BASE_UUID) in
  ensure_tree (snapshots_directory E);;
  with_tempdir E (snapshots_directory E) (λ tmpdir,
    let uuidhex := uuid4_hex E in
    let launch_diskpath := path_join tmpdir (uuidhex +:+ "-launch-disk") in
    let launch_memorypath := path_join tmpdir (uuidhex +:+ "-launch-memory") in
    tmp_dir ← mkdtemp E (gettempdir E) "cloudlet-residue-";
    let handoff_recv_datafile := path_join tmp_dir "handoff-data" in
    (* recv handoff data and synthesize disk img and memory snapshot *)
    try_finally
      (try_except
         ('(launch_disk_size, launch_memory_size, disk_overlay_map, memory_overlay_map) ←
            _handoff_recv E base_vm_paths image_sha256 handoff_recv_datafile
              launch_diskpath launch_memorypath;
          (* start VM *)
          disk_size ← py_int launch_disk_size;
          memory_size ← py_int launch_memory_size;
          synthesized_vm ←
            _handoff_launch_vm E xml basedisk_path basemem_path launch_diskpath
              launch_memorypath disk_size memory_size disk_overlay_map memory_overlay_map;
          (* rettach NIC *)
          log RettachNic;;
          mret synthesized_vm)
         (λ e, match e with
               | HandoffError msg =>
                   Some (raise (ImageNotFound
                                  ("failed to perform VM handoff:" +:+ newline +:+ msg)))
               | _ => None
               end))
      (tmp_dir_exists ← path_exists tmp_dir;
       when tmp_dir_exists (rmtree tmp_dir);;
       disk_exists ← path_exists launch_diskpath;
       when disk_exists (os_remove launch_diskpath);;
       memory_exists ← path_exists launch_memorypath;
       when memory_exists (os_remove launch_memorypath))).

Definition resume_basevm (E : env) (inst : instance) (xml base_disk base_memory
    base_diskmeta base_memmeta : string) (base_hashvalue : option string) : M state unit :=
  let vm_overlay :=
    {| vo_base_disk := base_disk; vo_base_mem := base_memory;
       vo_base_diskmeta := base_diskmeta; vo_base_memmeta := base_memmeta;
       vo_base_hashvalue := base_hashvalue; vo_nova_xml := xml;
       overlay_zipfile := None |} in
  call E (ResumeBaseVM base_disk);;
  modify (set_domains (<[uuid inst := new_domain E inst]>));;
  modify (set_resumed (<[uuid inst := vm_overlay]>));;
  log (ResumedRegistered (uuid inst));;
  call E RettachNic.

Definition _spawn_using_synthesis (E : env) (inst : instance) (xml image_meta_id : string)
    (overlay_url : string) : M state SynthesizedVM :=
  (* download vm overlay *)
  let basevm_sha256 := overlay_base_sha256 E overlay_url in
  image_detail_meta ← image_show (default "" (image_ref inst));
  match im_properties image_detail_meta with
  | None => raise (ImageNotFound "image does not have properties for cloudlet metadata")
  | Some image_properties =>
      let image_sha256 := image_properties !! CloudletAPI.PROPERTY_KEY_BASE_UUID in
      (* check basevm *)
      if negb (bool_decide (basevm_sha256 = image_sha256)) then
        raise (ImageNotFound
                 ("requested base vm is not compatible with openstack base disk "
                    +:+ default "None" basevm_sha256 +:+ " != "
                    +:+ default "None" image_sha256))
      else
        let memory_snap_id := str_get image_properties CloudletAPI.IMAGE_TYPE_BASE_MEM in
        let diskhash_snap_id :=
          str_get image_properties CloudletAPI.IMAGE_TYPE_BASE_DISK_HASH in
        let memhash_snap_id :=
          str_get image_properties CloudletAPI.IMAGE_TYPE_BASE_MEM_HASH in
        basedisk_path ← _get_cache_image E inst (Some image_meta_id);
        basemem_path ← _get_cache_image E inst (Some memory_snap_id);
        diskhash_path ← _get_cache_image E inst (Some diskhash_snap_id);
        memhash_path ← _get_cache_image E inst (Some memhash_snap_id);
        (* download blob *)
        ensure_tree (get_instance_path E inst);;
        let decomp_overlay := path_join (get_instance_path E inst) "decomp_overlay" in
        create_path decomp_overlay;;
        (* recover VM *)
        log (RecoverLaunchVM overlay_url);;
        let '(launch_disk, launch_mem) := recovered_launch_paths E overlay_url in
        let synthesized_vm := new_synthesized_vm E launch_disk launch_mem xml in
        log (Resume launch_disk launch_mem);;
        (* rettach NIC *)
        log RettachNic;;
        mret synthesized_vm
  end.

(** [spawn], overriding the parent driver.  The parent's own steps are
    calls that can fail: disk information, image creation and console
    log ([CreateImage]), the guest XML ([GetGuestXML]), the network
    set-up of [_create_network_only] ([PlugNetwork]),
    [_create_domain_and_network], and the final wait for the running
    state ([WaitForBoot]). *)
Definition spawn (E : env) (inst : instance) (image_meta_id : string) : M state unit :=
  (* get meta info related to VM synthesis *)
  image_detail_meta ← image_show (default "" (image_ref inst));
  let '(base_sha256_uuid, memory_snap_id, diskhash_snap_id, memhash_snap_id) :=
    _get_basevm_meta_info image_detail_meta in
  let overlay_url := metadata inst ≫= (λ m, m !! "overlay_url") in
  let handoff_info := metadata inst ≫= (λ m, m !! "handoff_info") in
  (* original openstack logic *)
  call E (CreateImage (uuid inst));;
  call E (GetGuestXML (uuid inst));;
  (* handle xml configuration to make a portable VM *)
  xml_obj ← Json.lift (_polish_VM_configuration (guest_xml E inst));
  let xml := tostring E xml_obj in
  match overlay_url, handoff_info, memory_snap_id with
  | Some overlay_url, None, _ =>
      (* spawn instance using VM synthesis *)
      call E (PlugNetwork (uuid inst));;
      synthesized_vm ← _spawn_using_synthesis E inst xml image_meta_id overlay_url;
      modify (set_domains (<[uuid inst := new_domain E inst]>));;
      modify (set_synthesized (<[uuid inst := synthesized_vm]>));;
      log (SynthesizedRegistered (uuid inst))
  | _, Some handoff_info, _ =>
      (* spawn instance using VM handoff *)
      call E (PlugNetwork (uuid inst));;
      synthesized_vm ← _spawn_using_handoff E inst xml image_meta_id handoff_info;
      modify (set_domains (<[uuid inst := new_domain E inst]>));;
      modify (set_synthesized (<[uuid inst := synthesized_vm]>));;
      log (SynthesizedRegistered (uuid inst))
  | None, None, Some memory_snap_id =>
      (* resume from memory snapshot *)
      basedisk_path ← _get_cache_image E inst (Some image_meta_id);
      basemem_path ← _get_cache_image E inst (Some memory_snap_id);
      diskhash_path ← _get_cache_image E inst diskhash_snap_id;
      memhash_path ← _get_cache_image E inst memhash_snap_id;
      call E (PlugNetwork (uuid inst));;
      resume_basevm E inst xml basedisk_path basemem_path diskhash_path memhash_path
        base_sha256_uuid
  | None, None, None =>
      call E (CreateDomainAndNetwork (uuid inst));;
      modify (set_domains (<[uuid inst := new_domain E inst]>))
  end;;
  call E (WaitForBoot (uuid inst)).

(** [_destroy], overriding the parent driver: the parent's [_destroy]
    and the [terminate] of a session are calls that can fail. *)
Definition _destroy (E : env) (inst : instance) : M state unit :=
  call E (DestroyDomain (uuid inst));;
  modify (set_domains (delete (uuid inst)));;
  (* check resumed base VM list *)
  vm_overlay ← gets (λ s, resumed_vm_dict s !! uuid inst);
  match vm_overlay with
  | Some _ =>
      call E (TerminateOverlay (uuid inst));;
      modify (set_resumed (delete (uuid inst)));;
      log (ResumedRemoved (uuid inst))
  | None => mret tt
  end;;
  (* check synthesized VM list *)
  synthesized_VM ← gets (λ s, synthesized_vm_dics s !! uuid inst);
  match synthesized_VM with
  | Some _ =>
      (* intentionally avoid terminating VM at synthesis code
         since OpenStack will do that: machine = None *)
      call E (TerminateSynthesized (uuid inst));;
      modify (set_synthesized (delete (uuid inst)));;
      log (SynthesizedRemoved (uuid inst))
  | None => mret tt
  end.

(** [cloudlet_base]: the disk of the paused instance is extracted to a
    temporary directory, [synthesis._create_baseVM] writes the memory
    snapshot and the two hash lists next to it, and the four files are
    uploaded to the four image records.  The extraction and
    [_create_baseVM] are seen through the files they write. *)
Definition cloudlet_base (E : env) (inst : instance)
    (vm_name disk_meta_id memory_meta_id diskhash_meta_id memoryhash_meta_id : string)
  : M state unit :=
  virt_dom ← running_domain inst;
  (* pause VM *)
  log (Pause (uuid inst));;
  disk_metadata ← _get_snapshot_metadata inst disk_meta_id;
  mem_metadata ← _get_snapshot_metadata inst memory_meta_id;
  diskhash_metadata ← _get_snapshot_metadata inst diskhash_meta_id;
  memhash_metadata ← _get_snapshot_metadata inst memoryhash_meta_id;
  let snapshot_name := uuid4_hex E in
  (* creating base vm requires cold snapshotting *)
  log (UpdateTaskState IMAGE_PENDING_UPLOAD None);;
  ensure_tree (snapshots_directory E);;
  with_tempdir E (snapshots_directory E) (λ tmpdir,
    let out_path := path_join tmpdir snapshot_name in
    (* At this point, base vm should be "raw" format *)
    try_finally (create_path out_path) (mret tt);;
    (* generate memory snapshop and hashlist *)
    let basemem_path := path_join tmpdir (snapshot_name +:+ "-mem") in
    let diskhash_path := path_join tmpdir (snapshot_name +:+ "-disk_hash") in
    let memhash_path := path_join tmpdir (snapshot_name +:+ "-mem_hash") in
    log (UpdateTaskState IMAGE_UPLOADING (Some IMAGE_PENDING_UPLOAD));;
    create_path basemem_path;;
    create_path diskhash_path;;
    create_path memhash_path;;
    _update_to_glance out_path disk_meta_id disk_metadata;;
    _update_to_glance basemem_path memory_meta_id mem_metadata;;
    _update_to_glance diskhash_path diskhash_meta_id diskhash_metadata;;
    _update_to_glance memhash_path memoryhash_meta_id memhash_metadata).

End CloudletDriver.

(** ** Vocabulary of the statements and concrete scenarios *)

Module Scenario.
Import Nova.

(** An active, launched instance with no task in progress, booted from a
    cloudlet base image. *)
Definition vm : instance :=
  {| uuid := "vm-1"; vm_state_of := ACTIVE; task_state_of := None;
     launched_at := true; host := "compute-1"; image_ref := Some "img-base";
     kernel_id := ""; ramdisk_id := ""; project_id := "proj-1"; user_id := "user-1";
     display_name := "demo"; vcpus := 2; memory_mb := 4096; root_gb := 8;
     system_metadata := <["image_base_sha256_uuid" := "abc123"]> ∅;
     metadata := Some ∅ |}.

Definition ctx : context :=
  {| ctx_user_id := "user-1"; ctx_project_id := "proj-1"; ctx_is_admin := false |}.

End Scenario.

Module ApiScenario.
Import Nova CloudletAPI.

(** [(int(flavor['vcpus']), int(flavor['ram']))] *)
Definition flavor_resources (flavor : json) : outcome (Z * Z) :=
  vcpus_field ← Json.subscript flavor "vcpus";
  vcpu ← Json.int vcpus_field;
  ram_field ← Json.subscript flavor "ram";
  ram_mb ← Json.int ram_field;
  Return (vcpu, ram_mb).

(** [flavor['links'][0]['href']] *)
Definition flavor_link (flavor : json) : outcome json :=
  links ← Json.subscript flavor "links";
  link ← Json.first links;
  Json.subscript link "href".

(** The flavor catalogue the destination answers with. *)
Definition flavor_catalog (E : env) (end_point : Url.split_result) : option (list json) :=
  http_get E (Url.netloc end_point) (Url.path end_point +:+ "/flavors/detail") !! "flavors".

(** The network catalogue the destination answers with. *)
Definition network_catalog (E : env) (neutron_url : Url.split_result)
  : option (list json) :=
  http_get E (Url.netloc neutron_url) "/v2.0/networks" !! "networks".

(** A network of the catalogue owned by [project] and named as
    requested. *)
Definition network_matches (project : string) (dest_network : option string)
    (network_item : json) : Prop :=
  ∃ owner name,
    Json.subscript network_item "project_id" = Return owner
    ∧ Json.eq_str owner project = true
    ∧ Json.subscript network_item "name" = Return name
    ∧ Json.eq_opt_str name dest_network = true.

(** The [base_sha256_uuid] property of the images of a base VM: the
    caller's, when [extra_properties] has one, else the SHA-256 of the
    instance UUID. *)
Definition base_tag (E : env) (inst : instance) (extra_properties : option (gmap string json)) : json :=
  default (JStr (sha256_hexdigest E (uuid inst)))
    (default ∅ extra_properties !! PROPERTY_KEY_BASE_UUID).

(** the state after more calls were made *)
Definition appended (events : list event) (s : state) : state :=
  {| glance := glance s; db_task_state := db_task_state s; trace := trace s ++ events |}.
Definition is_get (e : event) : Prop :=
  match e with HttpGet _ _ _ => True | _ => False end.
Definition is_cast_handoff (e : event) : Prop :=
  match e with CastHandoff _ _ _ _ _ => True | _ => False end.
(** an active, launched instance with no task in progress, stored so *)
Definition running (inst : instance) (s : state) : Prop :=
  vm_state_of inst = ACTIVE ∧ task_state_of inst = None ∧ launched_at inst = true
  ∧ db_task_state s !! uuid inst = Some None.
Definition no_handoff_message : string :=
  "Cannot get handoff URL from the destination message".

(** the message of the failure to find a flavor *)
Definition no_flavor_message (end_point : Url.split_result) (cpu mem : Z) : string :=
  "Cannot find matching flavor with cpu=" +:+ pretty cpu +:+ ", memory=" +:+ pretty mem
    +:+ " at " +:+ Url.netloc end_point.

Definition a_flavor (id : string) (vcpus ram : Z) : json :=
  JObj (<["id" := JStr id]>
          (<["vcpus" := JInt vcpus]>
             (<["ram" := JInt ram]>
                (<["links" := JList [JObj (<["href" := JStr ("http://dest:8774/flavors/" +:+ id)]> ∅)]]>
                   ∅)))).

Definition a_network (id project name : string) : json :=
  JObj (<["id" := JStr id]>
          (<["project_id" := JStr project]> (<["name" := JStr name]> ∅))).

Definition a_base_image (id base_sha256 : string) : json :=
  JObj (<["id" := JStr id]>
          (<["cloudlet_type" := JStr IMAGE_TYPE_BASE_DISK]>
             (<[PROPERTY_KEY_BASE_UUID := JStr base_sha256]> ∅))).

(** A destination with the given catalogues and reply to the
    create-server request. *)
Definition an_env (images networks flavors : list json) (reply : json) : env :=
  {| sha256_hexdigest := λ s, "sha256-" +:+ s;
     vifs_by_instance := λ _, [("vif-1", "fa:16:3e:00:00:01")];
     image_from_system_metadata := λ _, ∅;
     new_image_id := λ n, "image-" +:+ pretty n;
     reservations_of := λ _, ["reservation-1"];
     http_get := λ _ _, <["images" := images]> (<["networks" := networks]>
                                                   (<["flavors" := flavors]> ∅));
     http_post := λ _ _ _, reply |}.

Definition dest : Url.split_result := Url.urlparse "http://dest:8774/v2.1".
Definition dest_glance : Url.split_result := Url.urlparse "http://dest:9292".
Definition dest_neutron : Url.split_result := Url.urlparse "http://dest:9696".

(** The API's view at the start: the instance stored with no task. *)
Definition initial : state :=
  {| glance := []; db_task_state := <["vm-1" := None]> ∅; trace := [] |}.

Definition a_reply : json :=
  JObj (<["handoff" := JObj (<["server_ip" := JStr "10.0.0.7"]>
                               (<["server_port" := JInt 8022]> ∅))]> ∅).

End ApiScenario.

Module DriverScenario.
Import Nova CloudletDriver.

(** What the worker prints while it runs and when it ends. *)
Definition worker_stdout (proc : worker_run) : string :=
  _wait_for_handoff_recv (polls proc) (remaining_stdout proc) "".

(** [stdout.split("\n")[-1]] *)
Definition final_line (stdout : string) : string :=
  default "" (last_item (split LF stdout)).

Definition openstack_line : string :=
  "OPENSTACK" +:+ tab +:+ "10737418240" +:+ tab +:+ "1073741824"
    +:+ tab +:+ "{}" +:+ tab +:+ "{}".

Definition badkey_line : string :=
  "BADKEY" +:+ tab +:+ "1" +:+ tab +:+ "1" +:+ tab +:+ "{}" +:+ tab +:+ "{}".

(** A worker that logs two lines, hits one [EAGAIN], and ends with the
    given exit code and last line. *)
Definition a_worker (code : Z) (last_line : string) : worker_run :=
  {| polls := [ReadOk ("connecting" +:+ newline); ReadError 11;
               ReadOk ("transferring" +:+ newline +:+ substring 0 4 last_line)];
     returncode := code;
     remaining_stdout := substring 4 (String.length last_line - 4) last_line;
     writes_output := true |}.

Definition a_synthesized_vm (launch_disk launch_mem xml : string) : SynthesizedVM :=
  {| sv_launch_disk := launch_disk; sv_launch_mem := launch_mem;
     fuse_mountpoint := "/tmp/cloudletfs-1"; fuse_modified_disk_chunks := [3; 7];
     qemu_logfile := "/tmp/qemu-1.log"; qmp_channel := "/tmp/qmp-1";
     machine := Some "domain-1"; sv_nova_xml := xml |}.

(** An environment whose two workers behave as given. *)
Definition an_env (send recv : worker_run) : env :=
  {| sha1_hexdigest := λ s, "sha1-" +:+ s;
     instances_path := "/var/lib/nova/instances";
     image_cache_subdirectory_name := "_base";
     snapshots_directory := "/var/lib/nova/instances/snapshots";
     get_instance_path := λ i, "/var/lib/nova/instances/" +:+ uuid i;
     gettempdir := "/tmp";
     mkdtemp_suffix := λ _, "Xy12ab";
     uuid4_hex := "0f0e0d0c0b0a09080706050403020100";
     OVERLAY_ZIP := "overlay.zip";
     libvirt_uri := "qemu:///system";
     overlay_zip_path := λ _, "/tmp/cloudlet-overlay-Qw34cd/overlay.zip";
     send_worker := λ _, send;
     recv_worker := λ _, recv;
     new_synthesized_vm := a_synthesized_vm;
     guest_xml := λ _, Element "domain" ∅ [Element "devices" ∅ []];
     tostring := λ _, "<domain/>";
     library_error := λ _, None;
     new_domain := λ _, {| dom_interfaces := [{| if_type := Some "bridge";
                                                  if_xml := "<interface type='bridge'/>" |}] |};
     recovered_launch_paths := λ _, ("/tmp/launch-disk", "/tmp/launch-mem");
     overlay_base_sha256 := λ _, Some "abc123" |}.

(** The same environment with collaborators that fail as given. *)
Definition failing (errors : event → option exn) (E : env) : env :=
  {| sha1_hexdigest := sha1_hexdigest E; instances_path := instances_path E;
     image_cache_subdirectory_name := image_cache_subdirectory_name E;
     snapshots_directory := snapshots_directory E;
     get_instance_path := get_instance_path E; gettempdir := gettempdir E;
     mkdtemp_suffix := mkdtemp_suffix E; uuid4_hex := uuid4_hex E;
     OVERLAY_ZIP := OVERLAY_ZIP E; libvirt_uri := libvirt_uri E;
     overlay_zip_path := overlay_zip_path E; send_worker := send_worker E;
     recv_worker := recv_worker E; new_synthesized_vm := new_synthesized_vm E;
     guest_xml := guest_xml E; tostring := tostring E; library_error := errors;
     new_domain := new_domain E; recovered_launch_paths := recovered_launch_paths E;
     overlay_base_sha256 := overlay_base_sha256 E |}.

(** The images of a base VM in the image service, and one more record
    ready to receive an overlay or a residue. *)
Definition an_image (id : string) (properties : gmap string string) : image_meta :=
  {| im_id := id; im_name := "name-of-" +:+ id; im_container_format := Some "bare";
     im_properties := Some properties |}.

Definition base_properties : gmap string string :=
  <["base_sha256_uuid" := "abc123"]>
    (<["cloudlet_base_memory" := "img-mem"]>
       (<["cloudlet_base_disk_hash" := "img-diskhash"]>
          (<["cloudlet_base_memory_hash" := "img-memhash"]>
             (<["cloudlet_type" := "cloudlet_base_disk"]>
                (<["is_cloudlet" := "True"]>
                   (<["user_id" := "user-1"]>
                      (<["base_image_ref" := "img-base"]>
                         (<["base_resource_xml_str" := "<domain/>"]>
                            (<["instance_uuid" := "vm-1"]> ∅))))))))).

Definition image_service : gmap string image_meta :=
  <["img-base" := an_image "img-base" base_properties]>
    (<["img-mem" := an_image "img-mem" ∅]>
       (<["img-diskhash" := an_image "img-diskhash" ∅]>
          (<["img-memhash" := an_image "img-memhash" ∅]>
             (<["img-new" := an_image "img-new" base_properties]> ∅)))).

Definition a_domain : domain :=
  {| dom_interfaces := [{| if_type := Some "bridge";
                           if_xml := "<interface type='bridge'/>" |}] |}.

Definition a_vm_overlay : VM_Overlay :=
  {| vo_base_disk := "/var/lib/nova/instances/_base/sha1-img-base";
     vo_base_mem := "/var/lib/nova/instances/_base/sha1-img-mem";
     vo_base_diskmeta := "/var/lib/nova/instances/_base/sha1-img-diskhash";
     vo_base_memmeta := "/var/lib/nova/instances/_base/sha1-img-memhash";
     vo_base_hashvalue := Some "abc123"; vo_nova_xml := "<domain/>";
     overlay_zipfile := None |}.

(** The compute host running "vm-1", with the given sessions. *)
Definition a_host (resumed : gmap string VM_Overlay)
    (synthesized : gmap string SynthesizedVM) : state :=
  {| domains := <["vm-1" := a_domain]> ∅; images := image_service; files := ∅;
     resumed_vm_dict := resumed; synthesized_vm_dics := synthesized; trace := [] |}.

(** "vm-1" as a synthesized VM *)
Definition synthesized_host : state :=
  a_host ∅ (<["vm-1" := a_synthesized_vm "/tmp/launch-disk" "/tmp/launch-mem" "<domain/>"]> ∅).

(** "vm-1" as a resumed base VM *)
Definition resumed_host : state :=
  a_host (<["vm-1" := a_vm_overlay]> ∅) ∅.

(** [s1] is [s] after more events of the given kind, with both session
    dictionaries as they were. *)
Definition extends (allowed : event → Prop) (s s1 : state) : Prop :=
  resumed_vm_dict s1 = resumed_vm_dict s
  ∧ synthesized_vm_dics s1 = synthesized_vm_dics s
  ∧ ∃ events, trace s1 = trace s ++ events ∧ Forall allowed events.

(** A computation that leaves both session dictionaries as they are and
    adds only events of the given kind to the trace. *)
Definition quiet (allowed : event → Prop) {A} (m : M state A) : Prop :=
  ∀ s r s', m s = (r, s') → extends allowed s s'.

(** the events of the preparation of an overlay or a handoff *)
Definition prep_event (e : event) : Prop :=
  match e with
  | CacheImage _ _ _ | DetachDevice _ _ | Pause _ => True
  | _ => False
  end.

(** the events of an upload to the image service *)
Definition upload_event (e : event) : Prop :=
  match e with
  | UpdateTaskState _ _ | GlanceUpdate _ _ _ => True
  | _ => False
  end.

(** the events of the send role of a handoff, up to the worker's exit *)
Definition send_event (e : event) : Prop :=
  match e with
  | Preload _ _ | SaveDataSend _ _ | Popen _ | ProcExited _ => True
  | _ => False
  end.

(** the events of a handoff up to the worker's exit *)
Definition handoff_event (e : event) : Prop :=
  match e with
  | CacheImage _ _ _ | DetachDevice _ _ | Pause _ | UpdateTaskState _ _
  | Preload _ _ | SaveDataSend _ _ | Popen _ | ProcExited _ => True
  | _ => False
  end.

(** an overlay packed or uploaded *)
Definition overlay_event (e : event) : Prop :=
  match e with
  | CreateOverlay _ | GlanceUpdate _ _ _ => True
  | _ => False
  end.

(** The directory [_handoff_send] makes for its request, and the request
    file in it. *)
Definition residue_tmp_dir (E : env) (s : state) : string :=
  path_join (gettempdir E) ("cloudlet-residue-" +:+ mkdtemp_suffix E (files s)).

Definition handoff_send_datafile (E : env) (s : state) : string :=
  path_join (residue_tmp_dir E s) "handoff_data".

(** the state after one more event *)
Definition logged (e : event) (s : state) : state :=
  {| domains := domains s; images := images s; files := files s;
     resumed_vm_dict := resumed_vm_dict s;
     synthesized_vm_dics := synthesized_vm_dics s; trace := trace s ++ [e] |}.

(** The state in which [create_overlay_vm] starts the upload: the task
    state was announced, the session taken out of [resumed_vm_dict], the
    overlay packed. *)
Definition consumed (E : env) (inst : instance) (vm : VM_Overlay) (s : state) : state :=
  set_files (λ fs, {[overlay_zip_path E vm]} ∪ fs)
    (logged (CreateOverlay (overlay_zip_path E vm))
       (logged (ResumedRemoved (uuid inst))
          (set_resumed (delete (uuid inst))
             (logged (UpdateTaskState IMAGE_PENDING_UPLOAD None) s)))).

(** The state in which [perform_vmhandoff] goes on after the worker: the
    session taken out of [synthesized_vm_dics]. *)
Definition handed_off (inst : instance) (s : state) : state :=
  logged (SynthesizedRemoved (uuid inst)) (set_synthesized (delete (uuid inst)) s).

End DriverScenario.

Module RelayVocab.
Import PortForwarding.

(** The events of a relay direction that forwards the given chunks: each
    chunk is sent on right after it was received. *)
Definition relay (source dest : endpoint) (chunks : list string) : list event :=
  concat ((λ d, [Recv source d; SendAll dest d]) <$> chunks).

(** a chunk is not empty and no longer than the buffer of one read *)
Definition bounded_chunk (d : string) : Prop :=
  (0 < String.length d ≤ CHUNK)%nat.

End RelayVocab.

(** ** More vocabulary *)

Module CatalogVocab.
Import Nova CloudletAPI.

(** An image of the destination's catalogue that is the base disk of the
    requested base VM. *)
Definition is_base_of (requested_basevm_id : string) (image_item : json) : Prop :=
  Json.get image_item "cloudlet_type" = Return (JStr IMAGE_TYPE_BASE_DISK)
  ∧ ∃ base_sha256_uuid,
      Json.get image_item PROPERTY_KEY_BASE_UUID = Return base_sha256_uuid
      ∧ Json.eq_str base_sha256_uuid requested_basevm_id = true.

(** An image the loop passes over: no type, or the type of another kind
    of image, or the base disk of another base VM. *)
Definition passed_over (requested_basevm_id : string) (image_item : json) : Prop :=
  ∃ m, image_item = JObj m
       ∧ (m !! "cloudlet_type" = None ∨ m !! "cloudlet_type" = Some JNull
          ∨ ∃ t, m !! "cloudlet_type" = Some (JStr t)
                 ∧ (t = IMAGE_TYPE_BASE_DISK →
                    Json.eq_str (default JNull (m !! PROPERTY_KEY_BASE_UUID))
                      requested_basevm_id = false)).

End CatalogVocab.

Module CacheVocab.
Import Nova CloudletDriver.

(** Where the image cache keeps the image with the given id. *)
Definition cache_path (E : env) (snapshot_id : string) : string :=
  path_join (path_join (instances_path E) (image_cache_subdirectory_name E))
    (sha1_hexdigest E snapshot_id).

(** The size limit handed to the cache: the root disk in bytes, or none
    for a root disk of size 0. *)
Definition cache_size (inst : instance) : option Z :=
  if (root_gb inst * 1024 * 1024 * 1024 =? 0)%Z then None
  else Some (root_gb inst * 1024 * 1024 * 1024).

End CacheVocab.

Module FilesVocab.
Import Nova CloudletDriver CacheVocab.

(** A computation after which every file that exists either existed
    before or is one of the given kind. *)
Definition adds (P : string → Prop) {A} (m : M state A) : Prop :=
  ∀ s r s', m s = (r, s') → ∀ p, p ∈ files s' → p ∈ files s ∨ P p.

(** A computation that removes nothing and creates files among [W]
    only. *)
Definition grows (W : gset string) {A} (m : M state A) : Prop :=
  ∀ s r s', m s = (r, s') → files s ⊆ files s' ∧ files s' ⊆ W ∪ files s.

(** What a spawn leaves on the host for good: the directory of the
    instance, the directory of the snapshots, entries of the image
    cache. *)
Definition permanent (E : env) (inst : instance) (p : string) : Prop :=
  p = get_instance_path E inst ∨ p = snapshots_directory E
  ∨ ∃ snapshot_id, p = cache_path E snapshot_id.

(** nothing new *)
Definition nothing (p : string) : Prop := False.

End FilesVocab.

Module SpawnVocab.
Import Nova CloudletDriver DriverScenario.

(** the state in which [spawn] chooses its way: the parent's steps are
    done and the network is set up *)
Definition prepared (inst : instance) (s : state) : state :=
  logged (PlugNetwork (uuid inst))
    (logged (GetGuestXML (uuid inst)) (logged (CreateImage (uuid inst)) s)).

(** the instance with the given metadata *)
Definition with_metadata (m : gmap string string) (i : instance) : instance :=
  {| uuid := uuid i; vm_state_of := vm_state_of i; task_state_of := task_state_of i;
     launched_at := launched_at i; host := host i; image_ref := image_ref i;
     kernel_id := kernel_id i; ramdisk_id := ramdisk_id i;
     project_id := project_id i; user_id := user_id i;
     display_name := display_name i; vcpus := vcpus i;
     memory_mb := memory_mb i; root_gb := root_gb i;
     system_metadata := system_metadata i; metadata := Some m |}.

(** any event at all *)
Definition any_event (e : event) : Prop := True.

(** [overlay_url] and [handoff_info] of the instance's metadata *)
Definition overlay_url_of (inst : instance) : option string :=
  metadata inst ≫= (λ m, m !! "overlay_url").
Definition handoff_info_of (inst : instance) : option string :=
  metadata inst ≫= (λ m, m !! "handoff_info").

(** the id of the memory snapshot an image names, if it is the disk of a
    base VM *)
Definition memory_snapshot_of (image : image_meta) : option string :=
  (_get_basevm_meta_info image).1.1.2.

End SpawnVocab.

Module LineVocab.

(** the character does not occur in the string *)
Fixpoint free_of (c : ascii) (s : string) : bool :=
  match s with
  | EmptyString => true
  | String x s' => negb (Ascii.eqb x c) && free_of c s'
  end.

(** the status line a worker prints last *)
Definition status_line (keyword disk_size memory_size disk_overlay_map
    memory_overlay_map : string) : string :=
  keyword +:+ tab +:+ disk_size +:+ tab +:+ memory_size +:+ tab +:+ disk_overlay_map
    +:+ tab +:+ memory_overlay_map.

End LineVocab.

Module BaseVocab.
Import Nova CloudletDriver.

(** the events of the creation of a base VM *)
Definition base_event (e : event) : Prop :=
  match e with
  | Pause _ | UpdateTaskState _ _ | GlanceUpdate _ _ _ => True
  | _ => False
  end.

(** the four files of a base VM in a directory *)
Definition base_files (E : env) (tmpdir : string) : list string :=
  [path_join tmpdir (uuid4_hex E);
   path_join tmpdir (uuid4_hex E +:+ "-mem");
   path_join tmpdir (uuid4_hex E +:+ "-disk_hash");
   path_join tmpdir (uuid4_hex E +:+ "-mem_hash")].

(** The compute host running "vm-1", with the four records of a base VM
    created in the image service and waiting for their files. *)
Definition a_base_host : state :=
  {| domains := <["vm-1" := DriverScenario.a_domain]> ∅;
     images :=
       <["rec-disk" := DriverScenario.an_image "rec-disk" DriverScenario.base_properties]>
         (<["rec-mem" := DriverScenario.an_image "rec-mem" DriverScenario.base_properties]>
            (<["rec-diskhash" :=
                 DriverScenario.an_image "rec-diskhash" DriverScenario.base_properties]>
               (<["rec-memhash" :=
                    DriverScenario.an_image "rec-memhash" DriverScenario.base_properties]>
                  DriverScenario.image_service)));
     files := ∅; resumed_vm_dict := ∅; synthesized_vm_dics := ∅; trace := [] |}.

End BaseVocab.

Module PolishVocab.
Import Nova CloudletDriver.

(** what the loop body makes of a child of [devices] *)
Definition disk_polished (c c' : element) : Prop :=
  etag c' = etag c
  ∧ (etag c = "disk" → polish_disk c = Return c')
  ∧ (etag c ≠ "disk" → c' = c).

(** what the loop over [devices/disk] makes of a child of the root *)
Definition devices_polished (c c' : element) : Prop :=
  etag c' = etag c ∧ eattrib c' = eattrib c
  ∧ (etag c = "devices" → Forall2 disk_polished (echildren c) (echildren c'))
  ∧ (etag c ≠ "devices" → c' = c).

(** a disk of a libvirt domain *)
Definition a_disk (device cache : string) : element :=
  Element "disk" (<["type" := "file"]> (<["device" := device]> ∅))
    [Element "driver" (<["name" := "qemu"]> (<["cache" := cache]> ∅)) [];
     Element "target" (<["dev" := "hda"]> ∅) []].

(** A libvirt domain with [n] processor elements, a console, a serial
    port, a hard disk and a CD-ROM drive. *)
Definition a_domain_xml (n : nat) : element :=
  Element "domain" (<["type" := "kvm"]> ∅)
    ([Element "name" ∅ []]
     ++ replicate n (Element "cpu" (<["mode" := "host-model"]> ∅) [])
     ++ [Element "devices" ∅
           [Element "console" ∅ []; a_disk "disk" "none"; Element "serial" ∅ [];
            a_disk "cdrom" "none"];
         Element "memory" ∅ []]).

End PolishVocab.

(** * Statements checked against the code *)

(** ** Facts about strings *)

Lemma append_assoc (a b c : string) : (a +:+ b) +:+ c = a +:+ (b +:+ c).
Proof.
  induction a as [|x a IH]; [reflexivity |].
  change (String x ((a +:+ b) +:+ c) = String x (a +:+ (b +:+ c))).
  now rewrite IH.
Qed.

Lemma append_empty_r (a : string) : a +:+ "" = a.
Proof.
  induction a as [|x a IH]; [reflexivity |].
  change (String x (a +:+ "") = String x a).
  now rewrite IH.
Qed.

(** ** Facts about the monad *)

Section MonadFacts.
Context {St : Type}.

Lemma bind_inv {A B} (m : M St A) (k : A → M St B) (s : St) (r : outcome B) (s' : St) :
  (m ≫= k) s = (r, s') →
  (∃ e, m s = (Raise e, s') ∧ r = Raise e)
  ∨ (∃ a s1, m s = (Return a, s1) ∧ k a s1 = (r, s')).
Proof.
  unfold mbind, M_bind. destruct (m s) as [[a|e] s1]; intros H.
  - right. eauto.
  - left. inversion H; subst. eauto.
Qed.

Lemma bind_return {A B} (m : M St A) (k : A → M St B) (s s1 : St) (a : A) :
  m s = (Return a, s1) → (m ≫= k) s = k a s1.
Proof. unfold mbind, M_bind. now intros ->. Qed.

Lemma bind_raise {A B} (m : M St A) (k : A → M St B) (s s1 : St) (e : exn) :
  m s = (Raise e, s1) → (m ≫= k) s = (Raise e, s1).
Proof. unfold mbind, M_bind. now intros ->. Qed.

End MonadFacts.

(** ** Receive role: the worker's status line *)

Section HandoffRecv.
Import Nova CloudletDriver DriverScenario.

(** What [_handoff_recv] answers, as a function of the worker's run
    alone. *)
Lemma handoff_recv_outcome (E : env) (base_vm_paths : list string)
    (base_hashvalue : option string) (datafile launch_disk launch_memory : string)
    (s : state) :
  (_handoff_recv E base_vm_paths base_hashvalue datafile launch_disk launch_memory s).1 =
  let proc := recv_worker E datafile in
  if negb (returncode proc =? 0) then Raise (HandoffError "Failed to receive handoff data")
  else match split TAB (final_line (worker_stdout proc)) with
       | [keyword; disksize; memorysize; disk_overlay_map; memory_overlay_map] =>
           if negb (String.eqb (lower keyword) "openstack")
           then Raise (HandoffError "Failed to parse returned data")
           else Return (disksize, memorysize, disk_overlay_map, memory_overlay_map)
       | _ => Raise (ValueError "wrong number of values to unpack")
       end.
Proof.
  unfold _handoff_recv, worker_stdout, final_line.
  cbn [mbind M_bind log modify create_path].
  destruct (writes_output (recv_worker E datafile));
    cbn [when mbind M_bind mret M_ret create_path modify];
    destruct (negb (returncode (recv_worker E datafile) =? 0)); try reflexivity.
  all: destruct (split TAB _) as [|k [|d [|m [|dm [|mm [|]]]]]]; try reflexivity.
  all: destruct (negb (String.eqb (lower k) "openstack")); reflexivity.
Qed.

(** Everything read from the worker reaches the buffer, in order; a
    failed read adds nothing. *)
Lemma wait_for_handoff_recv_buffer (observations : list poll) (remaining buf : string) :
  _wait_for_handoff_recv observations remaining buf =
  buf +:+ fold_right (λ o acc, match o with ReadOk b => b +:+ acc | ReadError _ => acc end)
            remaining observations.
Proof.
  revert buf; induction observations as [|[b|errno] rest IH]; intros buf; simpl.
  - reflexivity.
  - rewrite IH. now rewrite append_assoc.
  - apply IH.
Qed.

(** C3, as the code has it.  For every receive-role handoff: a worker
    exit code other than 0 fails with [HandoffError].  After exit code 0
    the text after the last newline of the worker's output is cut at the
    tabs, and the call returns exactly when this gives five fields of
    which the first lower-cases to "openstack"; it then returns the other
    four as they stand.  Five fields with another keyword are refused
    with the [HandoffError] "Failed to parse returned data"; any other
    number of fields ends in a [ValueError].  The line
    "OPENSTACK\t10737418240\t1073741824\t{}\t{}" yields the sizes
    10737418240 and 1073741824; the line "BADKEY\t1\t1\t{}\t{}" is
    refused. *)
Theorem handoff_recv_status_line (E : env) (base_vm_paths : list string)
    (base_hashvalue : option string) (datafile launch_disk launch_memory : string)
    (s : state) :
  let proc := recv_worker E datafile in
  let line := final_line (worker_stdout proc) in
  let result :=
    (_handoff_recv E base_vm_paths base_hashvalue datafile launch_disk launch_memory s).1 in
  (returncode proc ≠ 0 → result = Raise (HandoffError "Failed to receive handoff data"))
  ∧ (returncode proc = 0 →
     (∀ disk_size memory_size disk_overlay_map memory_overlay_map,
        result = Return (disk_size, memory_size, disk_overlay_map, memory_overlay_map)
        ↔ ∃ keyword,
            split TAB line = [keyword; disk_size; memory_size; disk_overlay_map;
                              memory_overlay_map]
            ∧ lower keyword = "openstack")
     ∧ (result = Raise (HandoffError "Failed to parse returned data")
        ↔ ∃ keyword disk_size memory_size disk_overlay_map memory_overlay_map,
            split TAB line = [keyword; disk_size; memory_size; disk_overlay_map;
                              memory_overlay_map]
            ∧ lower keyword ≠ "openstack")
     ∧ (result = Raise (ValueError "wrong number of values to unpack")
        ↔ length (split TAB line) ≠ 5%nat))
  ∧ (returncode proc = 0 → line = openstack_line →
     result = Return ("10737418240", "1073741824", "{}", "{}")
     ∧ int_of_string "10737418240" = Some 10737418240
     ∧ int_of_string "1073741824" = Some 1073741824)
  ∧ (returncode proc = 0 → line = badkey_line →
     result = Raise (HandoffError "Failed to parse returned data")).
Proof.
  intros proc line result. subst result line proc.
  rewrite handoff_recv_outcome. cbv zeta.
  set (proc := recv_worker E datafile).
  split; [|split; [|split]].
  - intros Hrc.
    destruct (Z.eqb_spec (returncode proc) 0) as [Heq|]; [congruence | reflexivity].
  - intros Hrc. rewrite Hrc. cbn [Z.eqb negb].
    destruct (split TAB (final_line (worker_stdout proc)))
      as [|k [|d [|m [|dm [|mm [|x rest]]]]]] eqn:Hsplit.
    1-5, 7:
      (split; [|split];
       [ intros ? ? ? ?; split; [discriminate | intros (? & [=] & _)]
       | split; [discriminate | intros (? & ? & ? & ? & ? & [=] & _)]
       | split; [intros _; cbn; lia | reflexivity] ]).
    destruct (String.eqb_spec (lower k) "openstack") as [Hk|Hk]; cbn [negb].
    + split; [|split].
      * intros d' m' dm' mm'. split.
        -- intros [= <- <- <- <-]. now exists k.
        -- now intros (k' & [= <- <- <- <- <-] & _).
      * split; [discriminate|]. now intros (? & ? & ? & ? & ? & [= <- _ _ _ _] & Hne).
      * split; [discriminate|]. cbn. lia.
    + split; [|split].
      * intros d' m' dm' mm'. split; [discriminate|].
        now intros (k' & [= <- _ _ _ _] & Hk').
      * split; [|reflexivity]. intros _. now exists k, d, m, dm, mm.
      * split; [discriminate|]. cbn. lia.
  - intros Hrc Hline. rewrite Hrc, Hline. repeat split; reflexivity.
  - intros Hrc Hline. rewrite Hrc, Hline. reflexivity.
Qed.

(** A run with exit code 0 whose output ends in the "OPENSTACK" line. *)
Lemma handoff_recv_status_line_witness :
  let E := an_env (a_worker 0 "") (a_worker 0 openstack_line) in
  let s := {| domains := ∅; images := ∅; files := ∅; resumed_vm_dict := ∅;
              synthesized_vm_dics := ∅; trace := [] |} in
  returncode (recv_worker E "/tmp/d/handoff-data") = 0
  ∧ final_line (worker_stdout (recv_worker E "/tmp/d/handoff-data")) = openstack_line
  ∧ (_handoff_recv E ["a"; "b"; "c"; "d"] (Some "abc123") "/tmp/d/handoff-data"
       "/tmp/t/x-launch-disk" "/tmp/t/x-launch-memory" s).1
    = Return ("10737418240", "1073741824", "{}", "{}").
Proof.
  intros E s.
  split; [reflexivity|]. split; [reflexivity|].
  refine (proj2 (proj1 (proj1 (proj2 (handoff_recv_status_line E ["a"; "b"; "c"; "d"]
            (Some "abc123") "/tmp/d/handoff-data" "/tmp/t/x-launch-disk"
            "/tmp/t/x-launch-memory" s)) _) _ _ _ _) _); [reflexivity|].
  exists "OPENSTACK". split; reflexivity.
Defined.

(** C3 as stated fails: a keyword that matches is not enough.  A worker
    that ends the status line of the specification with a newline, and a
    worker whose status line has four fields, both exit with code 0 and
    print the keyword "OPENSTACK"; both receives end in a [ValueError]. *)
Lemma status_line_keyword_not_enough :
  let s := {| domains := ∅; images := ∅; files := ∅; resumed_vm_dict := ∅;
              synthesized_vm_dics := ∅; trace := [] |} in
  let recv (last : string) :=
    (_handoff_recv (an_env (a_worker 0 "") (a_worker 0 last)) ["a"; "b"; "c"; "d"]
       (Some "abc123") "/tmp/d/handoff-data" "/tmp/t/x-launch-disk"
       "/tmp/t/x-launch-memory" s).1 in
  recv openstack_line = Return ("10737418240", "1073741824", "{}", "{}")
  ∧ recv (openstack_line +:+ newline)
    = Raise (ValueError "wrong number of values to unpack")
  ∧ recv ("OPENSTACK" +:+ tab +:+ "10737418240" +:+ tab +:+ "1073741824" +:+ tab +:+ "{}")
    = Raise (ValueError "wrong number of values to unpack").
Proof. intros s recv. repeat split; vm_compute; reflexivity. Qed.

End HandoffRecv.

(** ** Destination negotiation: the flavor *)

Section Flavor.
Import Nova CloudletAPI ApiScenario.

Lemma find_matching_flavor_sound (flavor_list : list json) (cpu mem : Z) (ref id : json) :
  find_matching_flavor flavor_list cpu mem = Return (ref, id) →
  (ref = JNull ∧ id = JNull)
  ∨ ∃ flavor, flavor ∈ flavor_list ∧ flavor_resources flavor = Return (cpu, mem)
              ∧ flavor_link flavor = Return ref ∧ Json.subscript flavor "id" = Return id.
Proof.
  induction flavor_list as [|flavor rest IH]; simpl.
  - intros [= <- <-]. now left.
  - destruct (Json.subscript flavor "vcpus") as [vf|] eqn:Hvf; simpl; [|discriminate].
    destruct (Json.int vf) as [v|] eqn:Hv; simpl; [|discriminate].
    destruct (Json.subscript flavor "ram") as [rf|] eqn:Hrf; simpl; [|discriminate].
    destruct (Json.int rf) as [r|] eqn:Hr; simpl; [|discriminate].
    destruct (Z.eqb_spec v cpu) as [->|]; simpl;
      [destruct (Z.eqb_spec r mem) as [->|]; simpl|].
    2, 3: intros H; destruct (IH H) as [?|(f & Hin & ?)]; [now left|];
          right; exists f; split; [now right | assumption].
    intros H. right. exists flavor. split; [left|].
    unfold flavor_resources, flavor_link. rewrite Hvf; simpl. rewrite Hv; simpl.
    rewrite Hrf; simpl. rewrite Hr; simpl.
    destruct (Json.subscript flavor "links") as [ls|]; simpl in *; [|discriminate].
    destruct (Json.first ls) as [l0|]; simpl in *; [|discriminate].
    destruct (Json.subscript l0 "href") as [h|]; simpl in *; [|discriminate].
    destruct (Json.subscript flavor "id") as [i|]; simpl in *; [|discriminate].
    inversion H; subst. auto.
Qed.

Lemma find_matching_flavor_none (flavor_list : list json) (cpu mem : Z) :
  Forall (λ flavor, ∃ v r, flavor_resources flavor = Return (v, r) ∧ (v, r) ≠ (cpu, mem))
    flavor_list →
  find_matching_flavor flavor_list cpu mem = Return (JNull, JNull).
Proof.
  induction 1 as [|flavor rest (v & r & Hres & Hne) _ IH]; simpl; [reflexivity|].
  unfold flavor_resources in Hres.
  destruct (Json.subscript flavor "vcpus") as [vf|]; simpl in *; [|discriminate].
  destruct (Json.int vf) as [v'|]; simpl in *; [|discriminate].
  destruct (Json.subscript flavor "ram") as [rf|]; simpl in *; [|discriminate].
  destruct (Json.int rf) as [r'|]; simpl in *; [|discriminate].
  inversion Hres; subst.
  destruct (Z.eqb_spec v cpu) as [->|]; simpl; [|exact IH].
  destruct (Z.eqb_spec r mem) as [->|]; simpl; [congruence | exact IH].
Qed.

Lemma get_server_info_flavors (E : env) (end_point : Url.split_result)
    (token : option string) (s : state) :
  _get_server_info E end_point token "flavors" None s =
  let s1 := {| glance := glance s; db_task_state := db_task_state s;
               trace := trace s ++ [HttpGet (Url.netloc end_point)
                                      (Url.path end_point +:+ "/flavors/detail") token] |} in
  match flavor_catalog E end_point with
  | Some l => (Return (Some l), s1)
  | None => (Raise (KeyError "flavors"), s1)
  end.
Proof.
  unfold _get_server_info, flavor_catalog. cbn.
  destruct (http_get E _ _ !! "flavors"); reflexivity.
Qed.

(** [select_flavor] in closed form: one request to the catalogue, then
    the outcome of the search. *)
Lemma select_flavor_outcome (E : env) (end_point : Url.split_result)
    (token : option string) (cpu mem : Z) (s : state) :
  select_flavor E end_point token cpu mem s =
  (match flavor_catalog E end_point with
   | None => Raise (KeyError "flavors")
   | Some flavors =>
       match find_matching_flavor flavors cpu mem with
       | Raise e => Raise e
       | Return (flavor_ref, flavor_id) =>
           if Json.is_none flavor_ref || Json.is_none flavor_id
           then Raise (HandoffError (no_flavor_message end_point cpu mem))
           else Return (flavor_ref, flavor_id)
       end
   end,
   {| glance := glance s; db_task_state := db_task_state s;
      trace := trace s ++ [HttpGet (Url.netloc end_point)
                             (Url.path end_point +:+ "/flavors/detail") token] |}).
Proof.
  unfold select_flavor, mbind at 1, M_bind at 1.
  rewrite get_server_info_flavors. cbv zeta.
  destruct (flavor_catalog E end_point) as [flavors|]; [|reflexivity].
  unfold iterable, mbind, M_bind, mret, M_ret, Json.lift.
  destruct (find_matching_flavor flavors cpu mem) as [[flavor_ref flavor_id]|e];
    [|reflexivity].
  destruct (Json.is_none flavor_ref || Json.is_none flavor_id); reflexivity.
Qed.

(** Flavors with other resources in front do not change the answer. *)
Lemma find_matching_flavor_skip (before rest : list json) (cpu mem : Z) :
  Forall (λ flavor, ∃ v r, flavor_resources flavor = Return (v, r) ∧ (v, r) ≠ (cpu, mem))
    before →
  find_matching_flavor (before ++ rest) cpu mem = find_matching_flavor rest cpu mem.
Proof.
  induction 1 as [|flavor before (v & r & Hres & Hne) _ IH]; [reflexivity|].
  cbn [app find_matching_flavor]. unfold flavor_resources in Hres.
  destruct (Json.subscript flavor "vcpus") as [vf|]; simpl in *; [|discriminate].
  destruct (Json.int vf) as [v'|]; simpl in *; [|discriminate].
  destruct (Json.subscript flavor "ram") as [rf|]; simpl in *; [|discriminate].
  destruct (Json.int rf) as [r'|]; simpl in *; [|discriminate].
  inversion Hres; subst.
  destruct (Z.eqb_spec v cpu) as [->|]; simpl; [|exact IH].
  destruct (Z.eqb_spec r mem) as [->|]; simpl; [congruence | exact IH].
Qed.

(** A flavor with the requested resources, a link and an id at the head
    of the list is the answer. *)
Lemma find_matching_flavor_head (flavor : json) (rest : list json) (cpu mem : Z)
    (flavor_ref flavor_id : json) :
  flavor_resources flavor = Return (cpu, mem) →
  flavor_link flavor = Return flavor_ref →
  Json.subscript flavor "id" = Return flavor_id →
  find_matching_flavor (flavor :: rest) cpu mem = Return (flavor_ref, flavor_id).
Proof.
  unfold flavor_resources, flavor_link. cbn [find_matching_flavor]. intros Hres Hlink Hid.
  destruct (Json.subscript flavor "vcpus") as [vf|]; simpl in *; [|discriminate].
  destruct (Json.int vf) as [v'|]; simpl in *; [|discriminate].
  destruct (Json.subscript flavor "ram") as [rf|]; simpl in *; [|discriminate].
  destruct (Json.int rf) as [r'|]; simpl in *; [|discriminate].
  injection Hres as -> ->. rewrite !Z.eqb_refl. cbn [andb].
  destruct (Json.subscript flavor "links") as [ls|]; simpl in *; [|discriminate].
  destruct (Json.first ls) as [l0|]; simpl in *; [|discriminate].
  rewrite Hlink. simpl. rewrite Hid. reflexivity.
Qed.

(** C5.  The flavor the negotiation selects is an entry of the
    destination's catalogue whose vcpus and ram equal the requested
    (vCPU, RAM) pair.  A catalogue that holds an entry with exactly that
    pair, behind entries with other pairs only, gets this entry
    selected: its link and its id are the answer.  When no entry of the
    catalogue has exactly that pair the selection fails with the
    [HandoffError] "Cannot find matching flavor ...".  And whenever
    [_prepare_handoff_dest] returns, the [flavorRef] of the create-server
    request it sent is the id of such an exactly matching entry. *)
Theorem negotiation_selects_exact_flavor (E : env) (end_point : Url.split_result)
    (token : option string) :
  (∀ cpu mem s flavor_ref flavor_id s',
     select_flavor E end_point token cpu mem s = (Return (flavor_ref, flavor_id), s') →
     ∃ flavors flavor,
       flavor_catalog E end_point = Some flavors ∧ flavor ∈ flavors
       ∧ flavor_resources flavor = Return (cpu, mem)
       ∧ flavor_link flavor = Return flavor_ref
       ∧ Json.subscript flavor "id" = Return flavor_id)
  ∧ (∀ cpu mem s before flavor after flavor_ref flavor_id,
       flavor_catalog E end_point = Some (before ++ flavor :: after) →
       Forall (λ other, ∃ v r, flavor_resources other = Return (v, r)
                               ∧ (v, r) ≠ (cpu, mem)) before →
       flavor_resources flavor = Return (cpu, mem) →
       flavor_link flavor = Return flavor_ref →
       Json.subscript flavor "id" = Return flavor_id →
       Json.is_none flavor_ref = false → Json.is_none flavor_id = false →
       (select_flavor E end_point token cpu mem s).1 = Return (flavor_ref, flavor_id))
  ∧ (∀ cpu mem s flavors,
       flavor_catalog E end_point = Some flavors →
       Forall (λ flavor, ∃ v r, flavor_resources flavor = Return (v, r)
                                ∧ (v, r) ≠ (cpu, mem)) flavors →
       (select_flavor E end_point token cpu mem s).1
       = Raise (HandoffError (no_flavor_message end_point cpu mem)))
  ∧ (∀ glance_url neutron_url inst dest_vmname dest_network s reply s',
       _prepare_handoff_dest E end_point glance_url neutron_url token inst
         dest_vmname dest_network s = (Return reply, s') →
       ∃ flavors flavor body,
         flavor_catalog E end_point = Some flavors ∧ flavor ∈ flavors
         ∧ flavor_resources flavor = Return (vcpus inst, memory_mb inst)
         ∧ Json.subscript flavor "id" = Return (sr_flavorRef body)
         ∧ last (trace s')
           = Some (HttpPost (Url.netloc end_point) (Url.path end_point +:+ "/servers")
                     token body)).
Proof.
  assert (Hsel : ∀ cpu mem s flavor_ref flavor_id s',
     select_flavor E end_point token cpu mem s = (Return (flavor_ref, flavor_id), s') →
     ∃ flavors flavor,
       flavor_catalog E end_point = Some flavors ∧ flavor ∈ flavors
       ∧ flavor_resources flavor = Return (cpu, mem)
       ∧ flavor_link flavor = Return flavor_ref
       ∧ Json.subscript flavor "id" = Return flavor_id).
  { intros cpu mem s flavor_ref flavor_id s'. rewrite select_flavor_outcome.
    destruct (flavor_catalog E end_point) as [flavors|]; [|discriminate].
    destruct (find_matching_flavor flavors cpu mem) as [[fr fi]|e] eqn:Hfind;
      [|discriminate].
    destruct (Json.is_none fr || Json.is_none fi) eqn:Hnone; [discriminate|].
    intros [= -> -> _].
    apply find_matching_flavor_sound in Hfind as [[-> ->]|(flavor & Hin & Hres & Hlink & Hid)].
    - discriminate.
    - exists flavors, flavor. auto. }
  split; [exact Hsel | split; [|split]].
  - intros cpu mem s before flavor after flavor_ref flavor_id Hcat Hbefore Hres Hlink Hid
      Href Hfid.
    rewrite select_flavor_outcome, Hcat. cbn [fst].
    rewrite (find_matching_flavor_skip _ _ _ _ Hbefore).
    rewrite (find_matching_flavor_head _ _ _ _ _ _ Hres Hlink Hid).
    now rewrite Href, Hfid.
  - intros cpu mem s flavors Hcat Hnone. rewrite select_flavor_outcome, Hcat.
    now rewrite (find_matching_flavor_none _ _ _ Hnone).
  - intros glance_url neutron_url inst dest_vmname dest_network s reply s' Hrun.
    unfold _prepare_handoff_dest in Hrun.
    apply bind_inv in Hrun as [(e & _ & [=])|(base_id & s1 & _ & Hrun)].
    apply bind_inv in Hrun as [(e & _ & [=])|(basevm_uuid & s2 & _ & Hrun)].
    apply bind_inv in Hrun as [(e & _ & [=])|(network_uuid & s3 & _ & Hrun)].
    apply bind_inv in Hrun as [(e & _ & [=])|([flavor_ref flavor_id] & s4 & Hflavor & Hrun)].
    apply Hsel in Hflavor as (flavors & flavor & Hcat & Hin & Hres & _ & Hid).
    cbn in Hrun. injection Hrun as _ <-.
    eexists flavors, flavor, _. do 3 (split; [eassumption|]).
    split; cycle 1.
    { cbn. rewrite last_snoc. reflexivity. }
    exact Hid.
Qed.

(** A catalogue that offers (4, 8192) and then (2, 4096) serves a
    request for (2, 4096) with the second flavor, and the negotiation of
    a handoff of a (2, 4096) instance asks for it; a catalogue with only
    (4, 8192) does not serve the request. *)
Lemma negotiation_selects_exact_flavor_witness :
  let exact :=
    an_env [a_base_image "img-9" "abc123"] [a_network "net-1" "proj-1" "private"]
      [a_flavor "f-4-8192" 4 8192; a_flavor "f-2-4096" 2 4096] a_reply in
  let other := an_env [] [] [a_flavor "f-4-8192" 4 8192] a_reply in
  (select_flavor exact dest None 2 4096 initial).1
  = Return (JStr "http://dest:8774/flavors/f-2-4096", JStr "f-2-4096")
  ∧ (∃ body,
       last (trace (_prepare_handoff_dest exact dest dest_glance dest_neutron None
                      Scenario.vm None (Some "private") initial).2)
       = Some (HttpPost "dest:8774" "/v2.1/servers" None body)
       ∧ sr_flavorRef body = JStr "f-2-4096")
  ∧ (select_flavor other dest None 2 4096 initial).1
    = Raise (HandoffError (no_flavor_message dest 2 4096)).
Proof.
  intros exact other. split; [|split].
  - apply (proj1 (proj2 (negotiation_selects_exact_flavor exact dest None))
             2 4096 initial [a_flavor "f-4-8192" 4 8192] (a_flavor "f-2-4096" 2 4096) []);
      try reflexivity.
    constructor; [|constructor]. exists 4, 8192. split; [reflexivity | congruence].
  - destruct (_prepare_handoff_dest exact dest dest_glance dest_neutron None Scenario.vm
                None (Some "private") initial) as [r s'] eqn:Hrun.
    assert (Hreturns : r = Return a_reply).
    { change r with (r, s').1. rewrite <- Hrun. vm_compute. reflexivity. }
    subst r.
    destruct (proj2 (proj2 (proj2 (negotiation_selects_exact_flavor exact dest None)))
                _ _ _ _ _ _ _ _ Hrun)
      as (flavors & flavor & body & Hcat & Hin & Hres & Hid & Hlast).
    exists body. split; [exact Hlast|].
    injection Hcat as <-.
    apply elem_of_cons in Hin as [->|Hin]; [discriminate Hres|].
    apply list_elem_of_singleton in Hin as ->.
    cbn in Hid. now injection Hid as <-.
  - apply (proj1 (proj2 (proj2 (negotiation_selects_exact_flavor other dest None)))
             2 4096 initial [a_flavor "f-4-8192" 4 8192] eq_refl).
    constructor; [|constructor]. exists 4, 8192. split; [reflexivity | congruence].
Defined.

End Flavor.

(** ** Destination negotiation: the network *)

Section Network.
Import Nova CloudletAPI ApiScenario.

(** The loop keeps no match across iterations: what it answers for a
    catalogue is decided by running its body on the last entry, starting
    from what the entries before it gave. *)
Lemma find_network_snoc (newtork_list : list json) (network_item : json)
    (project : string) (dest_network : option string) (network_uuid : option json) :
  find_network (newtork_list ++ [network_item]) project dest_network network_uuid =
  match find_network newtork_list project dest_network network_uuid with
  | Return found => find_network [network_item] project dest_network found
  | Raise e => Raise e
  end.
Proof.
  revert network_uuid.
  induction newtork_list as [|item rest IH]; intros network_uuid; [reflexivity|].
  cbn [app find_network].
  destruct (Json.subscript item "project_id") as [owner|]; [|reflexivity].
  cbn [mbind Json.outcome_bind].
  destruct (negb (Json.eq_str owner project)); [apply IH|].
  destruct (Json.subscript item "name") as [name|]; [|reflexivity].
  cbn [mbind Json.outcome_bind].
  destruct (Json.eq_opt_str name dest_network); [|apply IH].
  destruct (Json.subscript item "id") as [id|]; [|reflexivity].
  cbn [mbind Json.outcome_bind]. apply IH.
Qed.

Lemma a_network_fields (id project name : string) :
  Json.subscript (a_network id project name) "project_id" = Return (JStr project)
  ∧ Json.subscript (a_network id project name) "name" = Return (JStr name)
  ∧ Json.subscript (a_network id project name) "id" = Return (JStr id).
Proof. repeat split; vm_compute; reflexivity. Qed.

(** A network of the project with another name, listed last, makes the
    look-up answer [None] whatever was found before it. *)
Lemma find_network_reset_by_last (newtork_list : list json) (id project name : string)
    (dest_network : option string) (found : option json) :
  find_network newtork_list project dest_network None = Return found →
  dest_network ≠ Some name →
  find_network (newtork_list ++ [a_network id project name]) project dest_network None
  = Return (Some JNull).
Proof.
  intros Hfound Hname. rewrite find_network_snoc, Hfound.
  destruct (a_network_fields id project name) as (Hproject & Hnm & Hid).
  cbn [find_network]. rewrite Hproject.
  cbn [mbind Json.outcome_bind Json.eq_str].
  rewrite bool_decide_eq_true_2 by reflexivity. cbn [negb].
  rewrite Hnm. cbn [mbind Json.outcome_bind Json.eq_opt_str].
  destruct dest_network as [d|]; [|reflexivity].
  rewrite bool_decide_eq_false_2 by congruence. reflexivity.
Qed.

(** C6 at its failing input.  The catalogue lists the requested network
    "private" of project "proj-1" first and another network of the
    project after it: a matching network exists, and the look-up fails
    with the [HandoffError] "Cannot find Networking ...".  With no
    network of the project in the catalogue the look-up ends in an
    [UnboundLocalError] instead of that failure. *)
Theorem network_lookup_forgets_match :
  let networks := [a_network "net-1" "proj-1" "private";
                   a_network "net-2" "proj-1" "public"] in
  let E := an_env [] networks [] a_reply in
  (∃ network_item, network_item ∈ networks
                   ∧ network_matches "proj-1" (Some "private") network_item
                   ∧ Json.subscript network_item "id" = Return (JStr "net-1"))
  ∧ network_catalog E dest_neutron = Some networks
  ∧ (select_network E dest dest_neutron None Scenario.vm (Some "private") initial).1
    = Raise (HandoffError "Cannot find Networking with (None) at (dest:8774)")
  ∧ (select_network (an_env [] [a_network "net-9" "proj-2" "private"] [] a_reply)
       dest dest_neutron None Scenario.vm (Some "private") initial).1
    = Raise (UnboundLocalError "network_uuid").
Proof.
  intros networks E. split; [|split; [|split]].
  - exists (a_network "net-1" "proj-1" "private"). split; [left|].
    split; [|reflexivity].
    exists (JStr "proj-1"), (JStr "private"). repeat split; reflexivity.
  - reflexivity.
  - vm_compute. reflexivity.
  - vm_compute. reflexivity.
Qed.

End Network.

(** ** Port forwarding: the two relay directions *)

Section Relay.
Import PortForwarding RelayVocab.

Lemma substring_prefix_length (n : nat) (x : string) :
  String.length (substring 0 n x) = Nat.min n (String.length x).
Proof.
  revert n; induction x as [|c x IH]; intros [|n]; simpl; try reflexivity.
  now rewrite IH.
Qed.

Lemma recv_trace (source : endpoint) (bufsize : nat) (s : state) :
  trace (recv source bufsize s).2 = trace s ++ [Recv source (recv source bufsize s).1].
Proof.
  unfold recv. destruct (incoming source s) as [|seg rest]; [reflexivity|].
  destruct source; reflexivity.
Qed.

Lemma recv_length (source : endpoint) (bufsize : nat) (s : state) :
  (String.length (recv source bufsize s).1 ≤ bufsize)%nat.
Proof.
  unfold recv. destruct (incoming source s) as [|seg rest]; simpl; [lia|].
  rewrite substring_prefix_length. lia.
Qed.

Lemma substring_whole (x : string) : substring 0 (String.length x) x = x.
Proof. induction x as [|c x IH]; [reflexivity|]. cbn. now rewrite IH. Qed.

Lemma substring_split (n : nat) (x : string) :
  substring 0 n x +:+ substring n (String.length x - n) x = x.
Proof.
  revert n. induction x as [|c x IH]; intros [|n]; try reflexivity.
  - change (String c (substring 0 (String.length x) x) = String c x).
    now rewrite substring_whole.
  - change (String c (substring 0 n x +:+ substring n (String.length x - n) x)
            = String c x).
    f_equal. apply IH.
Qed.

Lemma incoming_log (e : endpoint) (ev : event) (s : state) :
  incoming e (log ev s) = incoming e s.
Proof. now destruct e. Qed.

Lemma incoming_set_incoming (e : endpoint) (l : list string) (s : state) :
  incoming e (set_incoming e l s) = l.
Proof. now destruct e. Qed.

Lemma incoming_set_other (e e' : endpoint) (l : list string) (s : state) :
  e ≠ e' → incoming e' (set_incoming e l s) = incoming e' s.
Proof. destruct e, e'; intros He; try reflexivity; now destruct He. Qed.

(** One read: what was read and what is left make up what was there. *)
Lemma recv_conserves (source : endpoint) (bufsize : nat) (s : state) :
  (0 < bufsize)%nat →
  Forall (λ seg, seg ≠ "") (incoming source s) →
  (recv source bufsize s).1 +:+ String.concat "" (incoming source (recv source bufsize s).2)
  = String.concat "" (incoming source s)
  ∧ Forall (λ seg, seg ≠ "") (incoming source (recv source bufsize s).2)
  ∧ ((recv source bufsize s).1 = "" → incoming source s = []).
Proof.
  intros Hpos Hsegs. unfold recv.
  destruct (incoming source s) as [|seg rest] eqn:Hin; cbn [fst snd].
  - rewrite incoming_log, Hin. split; [reflexivity|]. split; [constructor | reflexivity].
  - rewrite incoming_log, incoming_set_incoming.
    apply Forall_cons in Hsegs as [Hseg Hrest].
    pose proof (substring_split bufsize seg) as Hsplit.
    split; [|split].
    + destruct (String.eqb_spec (substring bufsize (String.length seg - bufsize) seg) "")
        as [Hnone|Hsome].
      * rewrite Hnone, append_empty_r in Hsplit. rewrite Hsplit.
        destruct rest; [now rewrite append_empty_r | reflexivity].
      * destruct rest as [|seg' rest]; [exact Hsplit|].
        change (substring 0 bufsize seg
                +:+ (substring bufsize (String.length seg - bufsize) seg
                     +:+ String.concat "" (seg' :: rest))
                = seg +:+ String.concat "" (seg' :: rest)).
        now rewrite <- append_assoc, Hsplit.
    + destruct (String.eqb_spec (substring bufsize (String.length seg - bufsize) seg) "");
        [assumption | now constructor].
    + intros Hempty. exfalso. apply Hseg.
      destruct seg as [|c seg]; [reflexivity|].
      destruct bufsize; [lia | discriminate Hempty].
Qed.

Lemma CHUNK_positive : (0 < CHUNK)%nat.
Proof. apply Nat.ltb_lt. vm_compute. reflexivity. Qed.

(** One direction on a source that is read to its end: the chunks
    forwarded are what the source had to deliver, cut into reads. *)
Lemma forward_chunks (source dest : endpoint) (cb : state → state) (s : state) :
  Forall (λ seg, seg ≠ "") (incoming source s) →
  ∃ chunks s1,
    forward source dest cb s = cb s1
    ∧ Forall bounded_chunk chunks
    ∧ String.concat "" chunks = String.concat "" (incoming source s)
    ∧ trace s1 = trace s ++ relay source dest chunks ++ [Recv source ""].
Proof.
  funelim (forward source dest cb s); intros Hsegs.
  - pose proof (recv_conserves source CHUNK s CHUNK_positive Hsegs)
      as (_ & _ & Hclosed).
    match goal with
    | Hd : String.eqb _ _ = true |- _ =>
        pose proof (proj1 (String.eqb_eq _ _) Hd) as Hnone
    end.
    exists [], (recv source CHUNK s).2. split; [reflexivity|]. split; [constructor|].
    rewrite recv_trace, Hnone, (Hclosed Hnone). split; reflexivity.
  - pose proof (recv_conserves source CHUNK s CHUNK_positive Hsegs)
      as (Hsplit & Hrest & _).
    match goal with
    | IH : _ → ∃ chunks s1, _ |- _ =>
        destruct IH as (chunks & s1 & Hrun & Hbound & Hconcat & Htrace)
    end.
    { unfold sendall. now rewrite incoming_log. }
    exists ((recv source CHUNK s).1 :: chunks), s1.
    split; [exact Hrun|]. split; [|split].
    + constructor; [|assumption]. split; [|apply recv_length].
      match goal with
      | Hd : String.eqb ?d _ = false |- _ => destruct d; [discriminate | simpl; lia]
      end.
    + unfold sendall in Hconcat. rewrite incoming_log in Hconcat.
      rewrite <- Hsplit, <- Hconcat.
      destruct chunks; [now rewrite append_empty_r | reflexivity].
    + rewrite Htrace. unfold sendall, log, relay. cbn [trace fmap list_fmap concat].
      rewrite recv_trace. rewrite <- !app_assoc. reflexivity.
Qed.

(** C9.  The tunnel runs two relay directions.  Each reads at most
    [CHUNK] = 32384 bytes per read and sends every chunk on before it
    reads again, so that the chunks sent make up, in order, all that its
    source delivered; the empty read ends that direction.  The
    client-to-destination direction then runs the completion callback,
    once, and the destination-to-client direction never does. *)
Theorem relay_directions (s : state) :
  Forall (λ seg, seg ≠ "") (from_client s) →
  Forall (λ seg, seg ≠ "") (from_server s) →
  ∃ upstream downstream,
    port_forwarding = [upstream; downstream]
    ∧ Z.of_nat CHUNK = 32384
    ∧ (∃ chunks,
         Forall bounded_chunk chunks
         ∧ String.concat "" chunks = String.concat "" (from_client s)
         ∧ trace (upstream s)
           = trace s ++ relay Client Server chunks ++ [Recv Client ""; ClosedCallback]
         ∧ ClosedCallback ∉ relay Client Server chunks)
    ∧ (∃ chunks,
         Forall bounded_chunk chunks
         ∧ String.concat "" chunks = String.concat "" (from_server s)
         ∧ trace (downstream s)
           = trace s ++ relay Server Client chunks ++ [Recv Server ""]
         ∧ ClosedCallback ∉ relay Server Client chunks ++ [Recv Server ""]).
Proof.
  intros Hclient Hserver.
  assert (Hrelay : ∀ source dest chunks, ClosedCallback ∉ relay source dest chunks).
  { intros source dest chunks. unfold relay.
    induction chunks as [|d chunks IH]; cbn; [apply not_elem_of_nil|].
    intros Hin. apply elem_of_cons in Hin as [?|Hin]; [discriminate|].
    apply elem_of_cons in Hin as [?|Hin]; [discriminate|]. now apply IH. }
  exists (forward Client Server closed_callback), (forward Server Client no_callback).
  split; [reflexivity|]. split; [reflexivity|]. split.
  - destruct (forward_chunks Client Server closed_callback s Hclient)
      as (chunks & s1 & -> & Hbound & Hconcat & Htrace).
    exists chunks. split; [assumption|]. split; [assumption|]. split; [|apply Hrelay].
    unfold closed_callback, log. cbn [trace]. rewrite Htrace.
    rewrite <- !app_assoc. reflexivity.
  - destruct (forward_chunks Server Client no_callback s Hserver)
      as (chunks & s1 & -> & Hbound & Hconcat & Htrace).
    exists chunks. split; [assumption|]. split; [assumption|]. split; [exact Htrace|].
    intros Hin. apply elem_of_app in Hin as [Hin|Hin]; [now apply Hrelay in Hin|].
    apply list_elem_of_singleton in Hin. discriminate.
Qed.

(** The client sends a request in two segments and closes, the server
    answers in one: the request reaches the server, the answer reaches
    the client, and the callback runs for the client's direction. *)
Lemma relay_directions_witness :
  let s := {| from_client := ["GET / "; "HTTP/1.0"]; from_server := ["200 OK"];
              trace := [] |} in
  ∃ upstream downstream,
    port_forwarding = [upstream; downstream]
    ∧ (∃ chunks,
         String.concat "" chunks = "GET / HTTP/1.0"
         ∧ trace (upstream s)
           = relay Client Server chunks ++ [Recv Client ""; ClosedCallback])
    ∧ (∃ chunks,
         String.concat "" chunks = "200 OK"
         ∧ trace (downstream s) = relay Server Client chunks ++ [Recv Server ""]).
Proof.
  intros s.
  destruct (relay_directions s) as (upstream & downstream & Hboth & _ & Hup & Hdown).
  - repeat constructor; discriminate.
  - repeat constructor; discriminate.
  - exists upstream, downstream. split; [exact Hboth|]. split.
    + destruct Hup as (chunks & _ & Hconcat & Htrace & _). exists chunks. now split.
    + destruct Hdown as (chunks & _ & Hconcat & Htrace & _). exists chunks. now split.
Defined.

End Relay.

(** ** Creating a base VM *)

Section CreateBase.
Import Nova CloudletAPI ApiScenario Scenario.

Lemma base_properties_tag (extra : gmap string json) (image_type : string)
    (net_info : json) (sha : string) :
  (extra ∪ base_properties image_type net_info sha) !! PROPERTY_KEY_BASE_UUID
  = Some (default (JStr sha) (extra !! PROPERTY_KEY_BASE_UUID)).
Proof.
  rewrite lookup_union. destruct (extra !! PROPERTY_KEY_BASE_UUID) as [v|] eqn:Hv.
  - now rewrite union_Some_l.
  - rewrite left_id by apply _. reflexivity.
Qed.

Lemma cloudlet_create_image_run (E : env) (ctx : context) (inst : instance)
    (name image_type : string) (props : gmap string json) (s : state) :
  ∃ meta,
    _cloudlet_create_image E ctx inst name image_type (Some props) s
    = (Return (new_image_id E (length (glance s)), meta),
       {| glance := glance s ++ [(new_image_id E (length (glance s)), meta)];
          db_task_state := db_task_state s; trace := trace s |})
    ∧ sm_name meta = name
    ∧ ∀ key v, props !! key = Some v → sm_properties meta !! key = Some v.
Proof.
  exists {| sm_name := name; sm_is_public := false;
            sm_properties :=
              (props ∪ <["instance_uuid" := JStr (uuid inst)]>
                         (<["user_id" := JStr (ctx_user_id ctx)]>
                            (<["image_type" := JStr image_type]> ∅)))
              ∪ image_from_system_metadata E inst |}.
  split; [reflexivity|]. split; [reflexivity|].
  intros key v Hv. cbn. apply lookup_union_Some_l. now apply lookup_union_Some_l.
Qed.

Lemma instance_save_run (inst : instance) (expected : list (option task_state))
    (ts : option task_state) (s : state) :
  db_task_state s !! uuid inst = Some ts → ts ∈ expected →
  instance_save inst expected s
  = (Return tt,
     {| glance := glance s;
        db_task_state := <[uuid inst := task_state_of inst]> (db_task_state s);
        trace := trace s ++ [InstanceSave inst] |}).
Proof.
  intros Hstored Hin. unfold instance_save, mbind, M_bind, gets. rewrite Hstored.
  now rewrite bool_decide_eq_true_2.
Qed.

(** C8, as the code has it.  On an active, launched instance with no task
    in progress, [cloudlet_create_base] creates exactly four image
    records, named [base_name] plus "-mem", "-disk-meta", "-mem-meta" and
    "-disk" (in this order), all four with the same [base_sha256_uuid]
    property: the SHA-256 hex digest of the instance UUID, unless the
    caller's [extra_properties] carry a [base_sha256_uuid] of their own,
    which then is the one used.  The task state [IMAGE_SNAPSHOT] is saved
    once, followed by the one call to the compute host. *)
Theorem create_base_four_records (E : env) (ctx : context) (inst : instance)
    (base_name : string) (extra_properties : option (gmap string json)) (s : state) :
  vm_state_of inst = ACTIVE → task_state_of inst = None → launched_at inst = true →
  db_task_state s !! uuid inst = Some None →
  ∃ mem diskhash memhash disk s',
    cloudlet_create_base E ctx inst base_name extra_properties s
    = (Return (disk, mem), s')
    ∧ glance s' = glance s ++ [mem; diskhash; memhash; disk]
    ∧ sm_name <$> (snd <$> [mem; diskhash; memhash; disk])
      = [base_name +:+ "-mem"; base_name +:+ "-disk-meta"; base_name +:+ "-mem-meta";
         base_name +:+ "-disk"]
    ∧ Forall (λ record, sm_properties record.2 !! PROPERTY_KEY_BASE_UUID
                        = Some (base_tag E inst extra_properties))
        [mem; diskhash; memhash; disk]
    ∧ trace s'
      = trace s ++ [InstanceSave (set_task_state (Some IMAGE_SNAPSHOT) inst);
                    CallCreateBase (host inst) (set_task_state (Some IMAGE_SNAPSHOT) inst)
                      base_name disk.1 mem.1 diskhash.1 memhash.1]
    ∧ db_task_state s' !! uuid inst = Some (Some IMAGE_SNAPSHOT).
Proof.
  intros Hactive Htask Hlaunched Hstored.
  unfold cloudlet_create_base, check_instance_state.
  rewrite Hactive, Htask, Hlaunched. cbn [bool_decide negb].
  rewrite !bool_decide_eq_true_2 by reflexivity. cbn [negb].
  set (net_info := JList _).
  set (sha := sha256_hexdigest E (uuid inst)).
  set (extra := default ∅ extra_properties).
  destruct (cloudlet_create_image_run E ctx inst (base_name +:+ "-mem") "snapshot"
              (extra ∪ base_properties IMAGE_TYPE_BASE_MEM net_info sha) s)
    as (mem & Hmem & Hmem_name & Hmem_props).
  rewrite (bind_return _ _ _ _ _ Hmem). clear Hmem.
  set (s1 := {| glance := glance s ++ [_] |}).
  destruct (cloudlet_create_image_run E ctx inst (base_name +:+ "-disk-meta") "snapshot"
              (extra ∪ base_properties IMAGE_TYPE_BASE_DISK_HASH net_info sha) s1)
    as (diskhash & Hdiskhash & Hdiskhash_name & Hdiskhash_props).
  rewrite (bind_return _ _ _ _ _ Hdiskhash). clear Hdiskhash.
  set (s2 := {| glance := glance s1 ++ [_] |}).
  destruct (cloudlet_create_image_run E ctx inst (base_name +:+ "-mem-meta") "snapshot"
              (extra ∪ base_properties IMAGE_TYPE_BASE_MEM_HASH net_info sha) s2)
    as (memhash & Hmemhash & Hmemhash_name & Hmemhash_props).
  rewrite (bind_return _ _ _ _ _ Hmemhash). clear Hmemhash.
  set (s3 := {| glance := glance s2 ++ [_] |}).
  cbv beta zeta. cbn [fst].
  match goal with
  | |- context [_cloudlet_create_image E ctx inst _ _ (Some ?p)] =>
      destruct (cloudlet_create_image_run E ctx inst (base_name +:+ "-disk") "snapshot" p s3)
        as (disk & Hdisk & Hdisk_name & Hdisk_props)
  end.
  rewrite (bind_return _ _ _ _ _ Hdisk). clear Hdisk.
  set (s4 := {| glance := glance s3 ++ [_] |}).
  rewrite (bind_return _ _ _ _ _
             (instance_save_run (set_task_state (Some IMAGE_SNAPSHOT) inst) [None] None s4
                Hstored ltac:(left))).
  exists (new_image_id E (length (glance s)), mem),
    (new_image_id E (length (glance s1)), diskhash),
    (new_image_id E (length (glance s2)), memhash),
    (new_image_id E (length (glance s3)), disk).
  eexists.
  split; [reflexivity|]. split; [|split; [|split; [|split]]].
  - cbn. rewrite <- !app_assoc. reflexivity.
  - cbn. now rewrite Hmem_name, Hdiskhash_name, Hmemhash_name, Hdisk_name.
  - assert (Htag : ∀ image_type,
              (extra ∪ base_properties image_type net_info sha) !! PROPERTY_KEY_BASE_UUID
              = Some (base_tag E inst extra_properties))
      by (intros; apply base_properties_tag).
    repeat constructor; cbn [snd].
    + apply Hmem_props, Htag.
    + apply Hdiskhash_props, Htag.
    + apply Hmemhash_props, Htag.
    + apply Hdisk_props. rewrite !lookup_insert_ne by (intro; discriminate). apply Htag.
  - cbn. rewrite <- app_assoc. reflexivity.
  - cbn. apply lookup_insert_eq.
Qed.
(** With no extra properties the four records carry the SHA-256 of the
    instance UUID. *)
Lemma create_base_four_records_witness :
  let E := an_env [] [] [] a_reply in
  ∃ mem diskhash memhash disk s',
    cloudlet_create_base E ctx vm "base" None initial = (Return (disk, mem), s')
    ∧ glance s' = [mem; diskhash; memhash; disk]
    ∧ Forall (λ record, sm_properties record.2 !! PROPERTY_KEY_BASE_UUID
                        = Some (JStr (sha256_hexdigest E "vm-1")))
        [mem; diskhash; memhash; disk].
Proof.
  intros E.
  destruct (create_base_four_records E ctx vm "base" None initial
              eq_refl eq_refl eq_refl eq_refl)
    as (mem & diskhash & memhash & disk & s' & Hrun & Hglance & _ & Htag & _).
  exists mem, diskhash, memhash, disk, s'. auto.
Defined.

(** C8 as stated fails when the caller supplies a [base_sha256_uuid]:
    the four records carry the caller's value, not the SHA-256 of the
    instance UUID. *)
Lemma create_base_tag_from_caller :
  let E := an_env [] [] [] a_reply in
  let extra := Some (<[PROPERTY_KEY_BASE_UUID := JStr "chosen-by-caller"]> ∅) in
  let run := cloudlet_create_base E ctx vm "base" extra initial in
  (∃ disk mem, run.1 = Return (disk, mem))
  ∧ (λ record : string * sent_meta,
       sm_properties record.2 !! PROPERTY_KEY_BASE_UUID) <$> glance run.2
    = [Some (JStr "chosen-by-caller"); Some (JStr "chosen-by-caller");
       Some (JStr "chosen-by-caller"); Some (JStr "chosen-by-caller")]
  ∧ JStr "chosen-by-caller" ≠ JStr (sha256_hexdigest E (uuid vm)).
Proof.
  intros E extra run. split; [|split].
  - eexists _, _. vm_compute. reflexivity.
  - vm_compute. reflexivity.
  - vm_compute. discriminate.
Qed.

End CreateBase.

(** ** Starting a handoff from the API *)

Section Handoff.
Import Nova CloudletAPI ApiScenario Scenario.

Lemma appended_appended (a b : list event) (s : state) :
  appended b (appended a s) = appended (a ++ b) s.
Proof. unfold appended. cbn. now rewrite app_assoc. Qed.

Lemma appended_nil (s : state) : appended [] s = s.
Proof. destruct s. unfold appended. cbn. now rewrite app_nil_r. Qed.

Lemma get_server_info_state (E : env) (end_point : Url.split_result)
    (token : option string) (request_list : string) (version : option string) (s : state) :
  ∃ events, Forall is_get events
            ∧ (_get_server_info E end_point token request_list version s).2
              = appended events s.
Proof.
  unfold _get_server_info.
  destruct (negb _).
  - exists []. split; [constructor|]. now rewrite appended_nil.
  - eexists [HttpGet _ _ _]. split; [repeat constructor|].
    unfold mbind, M_bind. cbn [log modify].
    destruct (http_get E _ _ !! request_list); reflexivity.
Qed.

Lemma select_basevm_state (E : env) (end_point glance_url : Url.split_result)
    (token : option string) (requested : string) (s : state) :
  ∃ events, Forall is_get events
            ∧ (select_basevm E end_point glance_url token requested s).2
              = appended events s.
Proof.
  unfold select_basevm, mbind at 1, M_bind at 1.
  destruct (get_server_info_state E glance_url token "images" (Some "v2") s)
    as (events & Hget & Hstate).
  destruct (_get_server_info E glance_url token "images" (Some "v2") s) as [[l|e] s1];
    cbn [snd] in Hstate; subst s1; exists events; (split; [assumption|]); [|reflexivity].
  destruct l as [l|]; [|reflexivity].
  unfold Json.lift, mbind, M_bind. cbn [iterable mret M_ret].
  destruct (find_basevm l requested) as [b|]; [|reflexivity].
  destruct (Json.is_none b); reflexivity.
Qed.

Lemma select_network_state (E : env) (end_point neutron_url : Url.split_result)
    (token : option string) (inst : instance) (dest_network : option string) (s : state) :
  ∃ events, Forall is_get events
            ∧ (select_network E end_point neutron_url token inst dest_network s).2
              = appended events s.
Proof.
  unfold select_network, mbind at 1, M_bind at 1.
  destruct (get_server_info_state E neutron_url token "networks" (Some "v2.0") s)
    as (events & Hget & Hstate).
  destruct (_get_server_info E neutron_url token "networks" (Some "v2.0") s) as [[l|e] s1];
    cbn [snd] in Hstate; subst s1; exists events; (split; [assumption|]); [|reflexivity].
  destruct l as [l|]; [|reflexivity].
  unfold Json.lift, mbind, M_bind. cbn [iterable mret M_ret].
  destruct (find_network l (project_id inst) dest_network None) as [[b|]|]; try reflexivity.
  destruct (Json.is_none b); reflexivity.
Qed.

Lemma select_flavor_state (E : env) (end_point : Url.split_result)
    (token : option string) (cpu mem : Z) (s : state) :
  ∃ events, Forall is_get events
            ∧ (select_flavor E end_point token cpu mem s).2 = appended events s.
Proof.
  rewrite select_flavor_outcome. eexists [HttpGet _ _ _].
  split; [repeat constructor | reflexivity].
Qed.

(** The negotiation only reads the three catalogues; when it returns, the
    create-server request was its last step and the answer to it is what
    it returns. *)
Lemma prepare_handoff_dest_run (E : env)
    (end_point glance_url neutron_url : Url.split_result) (token : option string)
    (inst : instance) (dest_vmname dest_network : option string)
    (s : state) (r : outcome json) (s' : state) :
  _prepare_handoff_dest E end_point glance_url neutron_url token inst dest_vmname
    dest_network s = (r, s') →
  ∃ gets, Forall is_get gets
    ∧ ((∃ e, r = Raise e ∧ s' = appended gets s)
       ∨ (∃ body,
            r = Return (http_post E (Url.netloc end_point)
                          (Url.path end_point +:+ "/servers") body)
            ∧ s' = appended (gets ++ [HttpPost (Url.netloc end_point)
                                        (Url.path end_point +:+ "/servers") token body]) s)).
Proof.
  unfold _prepare_handoff_dest. intros Hrun.
  apply bind_inv in Hrun as [(e & Hm & ->)|(requested & s1 & Hm & Hrun)].
  { exists []. split; [constructor|]. left. exists e. split; [reflexivity|].
    destruct (system_metadata inst !! _); inversion Hm. now rewrite appended_nil. }
  assert (s1 = s) as -> by (destruct (system_metadata inst !! _); now inversion Hm).
  clear Hm.
  destruct (select_basevm_state E end_point glance_url token requested s)
    as (ev1 & Hget1 & Hs1).
  apply bind_inv in Hrun as [(e & Hm & ->)|(basevm & s1 & Hm & Hrun)];
    rewrite Hm in Hs1; cbn [snd] in Hs1; subst.
  { exists ev1. split; [assumption|]. left. eauto. }
  clear Hm.
  destruct (select_network_state E end_point neutron_url token inst dest_network
              (appended ev1 s)) as (ev2 & Hget2 & Hs2).
  apply bind_inv in Hrun as [(e & Hm & ->)|(network & s2 & Hm & Hrun)];
    rewrite Hm in Hs2; cbn [snd] in Hs2; subst; rewrite appended_appended in *.
  { exists (ev1 ++ ev2). split; [apply Forall_app; split; assumption|]. left. eauto. }
  clear Hm.
  destruct (select_flavor_state E end_point token (vcpus inst) (memory_mb inst)
              (appended (ev1 ++ ev2) s)) as (ev3 & Hget3 & Hs3).
  apply bind_inv in Hrun as [(e & Hm & ->)|([flavor_ref flavor_id] & s3 & Hm & Hrun)];
    rewrite Hm in Hs3; cbn [snd] in Hs3; subst; rewrite appended_appended in *.
  { exists ((ev1 ++ ev2) ++ ev3). split; [apply Forall_app; split; [apply Forall_app; split|]; assumption|]. left. eauto. }
  clear Hm. cbn in Hrun. injection Hrun as <- <-.
  exists ((ev1 ++ ev2) ++ ev3). split; [apply Forall_app; split; [apply Forall_app; split|]; assumption|].
  right. eexists. split; [reflexivity|].
  unfold appended. cbn. now rewrite <- !app_assoc.
Qed.

Lemma instance_save_glance (inst : instance) (expected : list (option task_state))
    (s : state) (r : outcome unit) (s' : state) :
  instance_save inst expected s = (r, s') → glance s' = glance s.
Proof.
  unfold instance_save, mbind, M_bind, gets.
  destruct (db_task_state s !! uuid inst) as [ts|]; [|now intros [= _ <-]].
  destruct (bool_decide _); now intros [= _ <-].
Qed.

Lemma check_instance_state_inv {A} (inst : instance) (f : M state A) (s : state)
    (r : outcome A) (s' : state) :
  check_instance_state inst f s = (r, s') →
  (r = Raise (InstanceInvalidState (uuid inst)) ∧ s' = s
   ∧ ¬ (vm_state_of inst = ACTIVE ∧ task_state_of inst = None ∧ launched_at inst = true))
  ∨ (vm_state_of inst = ACTIVE ∧ task_state_of inst = None ∧ launched_at inst = true
     ∧ f s = (r, s')).
Proof.
  unfold check_instance_state.
  destruct (decide (vm_state_of inst = ACTIVE)) as [Hactive|Hactive].
  2: { rewrite bool_decide_eq_false_2 by assumption. intros [= <- <-]. left. tauto. }
  rewrite bool_decide_eq_true_2 by assumption.
  destruct (decide (task_state_of inst = None)) as [Htask|Htask].
  2: { rewrite bool_decide_eq_false_2 by assumption. intros [= <- <-]. left. tauto. }
  rewrite bool_decide_eq_true_2 by assumption.
  destruct (launched_at inst); cbn [negb].
  - intros Hf. right. auto.
  - intros [= <- <-]. left. intuition discriminate.
Qed.

(** [cloudlet_handoff] by scheme: what it returns when it returns, and
    what a destination without a "handoff" entry leads to. *)
Lemma cloudlet_handoff_outcomes (E : env) (ctx : context) (inst : instance)
    (handoff_url glance_url neutron_url : string)
    (dest_token dest_vmname dest_network : option string)
    (extra_properties : option (gmap string json))
    (s : state) (r : outcome (option string)) (s' : state) :
  cloudlet_handoff E ctx inst handoff_url glance_url neutron_url dest_token dest_vmname
    dest_network extra_properties s = (r, s') →
  let parsed := Url.urlsplit handoff_url in
  let residue_id := new_image_id E (length (glance s)) in
  (Url.scheme parsed = "file" →
     (∀ v, r = Return v →
        ∃ meta, v = Some residue_id ∧ glance s' = glance s ++ [(residue_id, meta)]
                ∧ sm_name meta = Url.netloc parsed)
     ∧ (running inst s → r = Return (Some residue_id)))
  ∧ (Url.scheme parsed = "tcp" ∨ Url.scheme parsed = "http" →
     ∀ v, r = Return v → v = None ∧ glance s' = glance s)
  ∧ (Url.scheme parsed = "tcp" → running inst s → r = Return None)
  ∧ (Url.scheme parsed = "http" →
     (∀ netloc url body, Json.get (http_post E netloc url body) "handoff" = Return JNull) →
     ∃ e events,
       r = Raise e ∧ trace s' = trace s ++ events
       ∧ Forall (λ ev, ¬ is_cast_handoff ev) events
       ∧ ((∃ netloc url token body, HttpPost netloc url token body ∈ events) →
          e = HandoffError no_handoff_message)).
Proof.
  intros Hrun parsed residue_id.
  apply check_instance_state_inv in Hrun
    as [(-> & -> & Hnot)|(Hactive & Htask & Hlaunched & Hrun)].
  { split; [|split; [|split]].
    - intros _. split; [discriminate|]. intros (? & ? & ? & _). tauto.
    - intros _ v [=].
    - intros _ (? & ? & ? & _). tauto.
    - intros _ _. exists (InstanceInvalidState (uuid inst)), [].
      split; [reflexivity|]. split; [now rewrite app_nil_r|]. split; [constructor|].
      intros (? & ? & ? & ? & Hin). now apply elem_of_nil in Hin. }
  destruct (ids_from_instance ctx inst) as [project user].
  set (quota := QuotaReserve project user (-1) (- vcpus inst) (- memory_mb inst)) in Hrun.
  rewrite (bind_return _ _ s (appended [quota] s) (reservations_of E inst) eq_refl) in Hrun.
  fold parsed in Hrun.
  apply bind_inv in Hrun as [(e & Hbranch & ->)|([[inst' url] gid] & s1 & Hbranch & Hrun)].
  - (* the branch on the scheme raised *)
    destruct (String.eqb_spec (Url.scheme parsed) "file") as [Hfile|Hfile].
    + destruct (cloudlet_create_image_run E ctx inst (Url.netloc parsed) "snapshot"
                  (default ∅ extra_properties ∪
                     <[PROPERTY_KEY_CLOUDLET := JBool true]>
                       (<[PROPERTY_KEY_CLOUDLET_TYPE := JStr IMAGE_TYPE_OVERLAY]> ∅))
                  (appended [quota] s)) as (meta & Hcreate & Hname & _).
      rewrite (bind_return _ _ _ _ _ Hcreate) in Hbranch.
      apply bind_inv in Hbranch as [(e' & Hsave & [= <-])|(? & ? & _ & [=])].
      split; [|split; [|split]];
        try (intros Hs; rewrite Hfile in Hs; first [discriminate | destruct Hs; discriminate]).
      intros _. split; [discriminate|].
      intros (_ & _ & _ & Hstored).
      match type of Hsave with
      | instance_save ?i ?expected ?st = _ =>
          rewrite (instance_save_run i expected None st Hstored ltac:(left)) in Hsave
      end.
      discriminate.
    + destruct (String.eqb_spec (Url.scheme parsed) "http") as [Hhttp|Hhttp];
        [|discriminate].
      split; [|split; [|split]];
        [intros Hs; congruence | intros _ v [=]
        | intros Hs; rewrite Hhttp in Hs; discriminate |].
      intros _ Hreply.
      apply bind_inv in Hbranch as [(e' & Hprep & [= <-])|(reply & s1 & Hprep & Hbranch)].
      * apply prepare_handoff_dest_run in Hprep
          as (gets & Hgets & [(e'' & [= <-] & ->)|(body & [=] & _)]).
        exists e, (quota :: gets). split; [reflexivity|].
        split; [cbn; now rewrite <- app_assoc|]. split.
        -- constructor; [now intros []|].
           eapply Forall_impl; [exact Hgets|]. now intros [] ?.
        -- intros (n & u & t & b & Hin). exfalso.
           apply elem_of_cons in Hin as [[=]|Hin].
           rewrite Forall_forall in Hgets. now apply Hgets in Hin.
      * apply prepare_handoff_dest_run in Hprep
          as (gets & Hgets & [(e'' & [=] & _)|(body & [= ->] & ->)]).
        unfold Json.lift at 1, mbind at 1, M_bind at 1 in Hbranch.
        rewrite Hreply in Hbranch. cbn in Hbranch. injection Hbranch as <- <-.
        eexists _, (quota :: gets ++ [_]). split; [reflexivity|].
        split; [cbn; now rewrite <- app_assoc|]. split; [|reflexivity].
        constructor; [now intros []|]. apply Forall_app. split.
        -- eapply Forall_impl; [exact Hgets|]. now intros [] ?.
        -- repeat constructor. now intros [].
  - (* the branch answered: the cast is made and the id returned *)
    cbn in Hrun. injection Hrun as <- <-.
    destruct (String.eqb_spec (Url.scheme parsed) "file") as [Hfile|Hfile].
    + destruct (cloudlet_create_image_run E ctx inst (Url.netloc parsed) "snapshot"
                  (default ∅ extra_properties ∪
                     <[PROPERTY_KEY_CLOUDLET := JBool true]>
                       (<[PROPERTY_KEY_CLOUDLET_TYPE := JStr IMAGE_TYPE_OVERLAY]> ∅))
                  (appended [quota] s)) as (meta & Hcreate & Hname & _).
      rewrite (bind_return _ _ _ _ _ Hcreate) in Hbranch.
      apply bind_inv in Hbranch as [(? & _ & [=])|([] & s2 & Hsave & Hbranch)].
      apply instance_save_glance in Hsave.
      cbn in Hbranch. injection Hbranch as <- <- <- <-.
      split; [|split; [|split]];
        try (intros Hs; rewrite Hfile in Hs; first [discriminate | destruct Hs; discriminate]).
      intros _. split; [|reflexivity].
      intros v [= <-]. exists meta. split; [reflexivity|]. split; [|assumption].
      cbn. rewrite Hsave. reflexivity.
    + destruct (String.eqb_spec (Url.scheme parsed) "http") as [Hhttp|Hhttp].
      * apply bind_inv in Hbranch as [(? & _ & [=])|(reply & s2 & Hprep & Hbranch)].
        apply prepare_handoff_dest_run in Hprep
          as (gets & Hgets & [(e'' & [=] & _)|(body & [= ->] & ->)]).
        unfold Json.lift, mbind, M_bind in Hbranch. revert Hbranch.
        destruct (Json.get _ "handoff") as [addr|] eqn:Haddr; [|discriminate].
        destruct (Json.is_none addr) eqn:Hnone; [discriminate|].
        destruct (Json.subscript addr "server_ip"); [|discriminate].
        destruct (Json.subscript addr "server_port"); [|discriminate].
        cbn. intros [= <- <- <- <-].
        split; [|split; [|split]].
        -- intros Hs; congruence.
        -- intros _ v [= <-]. split; reflexivity.
        -- intros Hs; rewrite Hhttp in Hs; discriminate.
        -- intros _ Hreply. rewrite Hreply in Haddr. injection Haddr as <-. discriminate.
      * (* any other scheme: the URL goes to the compute host as it is *)
        cbn in Hbranch. injection Hbranch as <- <- <- <-.
        split; [|split; [|split]].
        -- intros Hs; congruence.
        -- intros _ v [= <-]. split; reflexivity.
        -- intros _ _. reflexivity.
        -- intros Hs; congruence.
Qed.

(** An "http" handoff on an instance that passes the state check, to a
    destination whose negotiation answers with a "handoff" entry that
    has an address and a port: the call returns [None] and the cast to
    the compute host, with that address, is the one thing done after the
    negotiation. *)
Lemma cloudlet_handoff_http (E : env) (ctx : context) (inst : instance)
    (handoff_url glance_url neutron_url : string)
    (dest_token dest_vmname dest_network : option string)
    (extra_properties : option (gmap string json))
    (s : state) (reply : json) (s1 : state) (addr server_ip server_port : json) :
  vm_state_of inst = ACTIVE → task_state_of inst = None → launched_at inst = true →
  Url.scheme (Url.urlsplit handoff_url) = "http" →
  _prepare_handoff_dest E (Url.urlparse handoff_url) (Url.urlparse glance_url)
    (Url.urlparse neutron_url) dest_token inst dest_vmname dest_network
    (appended [QuotaReserve (ids_from_instance ctx inst).1 (ids_from_instance ctx inst).2
                 (-1) (- vcpus inst) (- memory_mb inst)] s) = (Return reply, s1) →
  Json.get reply "handoff" = Return addr → Json.is_none addr = false →
  Json.subscript addr "server_ip" = Return server_ip →
  Json.subscript addr "server_port" = Return server_port →
  cloudlet_handoff E ctx inst handoff_url glance_url neutron_url dest_token dest_vmname
    dest_network extra_properties s
  = (Return None,
     appended [CastHandoff (host inst) inst (reservations_of E inst)
                 (TcpFormat server_ip server_port) None] s1).
Proof.
  intros Hactive Htask Hlaunched Hhttp Hprep Haddr Hsome Hip Hport.
  unfold cloudlet_handoff, check_instance_state.
  rewrite Hactive, Htask, Hlaunched. cbn [bool_decide decide_rel negb].
  rewrite !bool_decide_eq_true_2 by reflexivity. cbn [negb].
  destruct (ids_from_instance ctx inst) as [project user]. cbn [fst snd] in Hprep.
  set (quota := QuotaReserve project user (-1) (- vcpus inst) (- memory_mb inst)) in *.
  rewrite (bind_return _ _ s (appended [quota] s) (reservations_of E inst) eq_refl).
  rewrite Hhttp. cbn [String.eqb Ascii.eqb Bool.eqb].
  unfold mbind at 1, M_bind at 1. unfold mbind at 1, M_bind at 1.
  rewrite Hprep. unfold Json.lift, mbind, M_bind.
  rewrite Haddr, Hsome, Hip, Hport. reflexivity.
Qed.

(** C10.  [cloudlet_handoff] with a "file" URL returns the id of the
    residue image record it created (named after the URL's network
    location).  With a "tcp" or "http" URL it returns [None] whenever it
    returns, and it does return: for "tcp" on every running instance,
    with the caller's URL cast to the compute host; for "http" whenever
    the negotiation with the destination answers with a "handoff" entry
    that has an address and a port, and this address is what is cast.
    With an "http" URL whose destination answers without a "handoff"
    entry it raises, without any cast to the compute host: the
    [HandoffError] "Cannot get handoff URL from the destination message"
    once the negotiation has posted its create-server request. *)
Theorem cloudlet_handoff_result (E : env) (ctx : context) (inst : instance)
    (handoff_url glance_url neutron_url : string)
    (dest_token dest_vmname dest_network : option string)
    (extra_properties : option (gmap string json))
    (s : state) (r : outcome (option string)) (s' : state) :
  cloudlet_handoff E ctx inst handoff_url glance_url neutron_url dest_token dest_vmname
    dest_network extra_properties s = (r, s') →
  let parsed := Url.urlsplit handoff_url in
  let residue_id := new_image_id E (length (glance s)) in
  let quota := QuotaReserve (ids_from_instance ctx inst).1 (ids_from_instance ctx inst).2
                 (-1) (- vcpus inst) (- memory_mb inst) in
  (Url.scheme parsed = "file" →
     (∀ v, r = Return v →
        ∃ meta, v = Some residue_id ∧ glance s' = glance s ++ [(residue_id, meta)]
                ∧ sm_name meta = Url.netloc parsed)
     ∧ (running inst s → r = Return (Some residue_id)))
  ∧ (Url.scheme parsed = "tcp" ∨ Url.scheme parsed = "http" →
     ∀ v, r = Return v → v = None ∧ glance s' = glance s)
  ∧ (Url.scheme parsed = "tcp" → running inst s →
     r = Return None
     ∧ s' = appended [quota; CastHandoff (host inst) inst (reservations_of E inst)
                               (UrlString handoff_url) None] s)
  ∧ (Url.scheme parsed = "http" → running inst s →
     ∀ reply s1 addr server_ip server_port,
       _prepare_handoff_dest E (Url.urlparse handoff_url) (Url.urlparse glance_url)
         (Url.urlparse neutron_url) dest_token inst dest_vmname dest_network
         (appended [quota] s) = (Return reply, s1) →
       Json.get reply "handoff" = Return addr → Json.is_none addr = false →
       Json.subscript addr "server_ip" = Return server_ip →
       Json.subscript addr "server_port" = Return server_port →
       r = Return None
       ∧ s' = appended [CastHandoff (host inst) inst (reservations_of E inst)
                          (TcpFormat server_ip server_port) None] s1)
  ∧ (Url.scheme parsed = "http" →
     (∀ netloc url body, Json.get (http_post E netloc url body) "handoff" = Return JNull) →
     ∃ e events,
       r = Raise e ∧ trace s' = trace s ++ events
       ∧ Forall (λ ev, ¬ is_cast_handoff ev) events
       ∧ ((∃ netloc url token body, HttpPost netloc url token body ∈ events) →
          e = HandoffError no_handoff_message)).
Proof.
  intros Hrun parsed residue_id quota.
  destruct (cloudlet_handoff_outcomes E ctx inst handoff_url glance_url neutron_url
              dest_token dest_vmname dest_network extra_properties s r s' Hrun)
    as (Hfile & Hnone & Htcp & Hmissing).
  split; [exact Hfile|]. split; [exact Hnone|]. split; [|split; [|exact Hmissing]].
  - intros Hscheme Hrunning. split; [now apply Htcp|].
    destruct Hrunning as (Hactive & Htask & Hlaunched & _).
    revert Hrun. unfold cloudlet_handoff, check_instance_state.
    rewrite Hactive, Htask, Hlaunched.
    rewrite !bool_decide_eq_true_2 by reflexivity. cbn [negb].
    subst quota. destruct (ids_from_instance ctx inst) as [project user]. cbn [fst snd].
    rewrite (bind_return _ _ s
               (appended [QuotaReserve project user (-1) (- vcpus inst) (- memory_mb inst)] s)
               (reservations_of E inst) eq_refl).
    fold parsed. rewrite Hscheme. cbn [String.eqb Ascii.eqb Bool.eqb].
    intros [= _ <-]. unfold appended. cbn. now rewrite <- app_assoc.
  - intros Hscheme (Hactive & Htask & Hlaunched & _) reply s1 addr server_ip server_port
      Hprep Haddr Hsome Hip Hport.
    rewrite (cloudlet_handoff_http E ctx inst handoff_url glance_url neutron_url dest_token
               dest_vmname dest_network extra_properties s reply s1 addr server_ip
               server_port Hactive Htask Hlaunched Hscheme Hprep Haddr Hsome Hip Hport)
      in Hrun.
    injection Hrun as <- <-. split; reflexivity.
Qed.

(** The three schemes on an active instance: a residue file, a TCP
    address, a destination that answers with an address and a port, and
    a destination that answers with an empty object. *)
Lemma cloudlet_handoff_result_witness :
  let catalogues reply :=
    an_env [a_base_image "img-9" "abc123"] [a_network "net-1" "proj-1" "private"]
      [a_flavor "f-2-4096" 2 4096] reply in
  let http E :=
    cloudlet_handoff E ctx vm "http://dest:8774/v2.1" "http://dest:9292"
      "http://dest:9696" (Some "token") None (Some "private") None initial in
  (cloudlet_handoff (catalogues (JObj ∅)) ctx vm "file://residue-1" "" "" None None None
     None initial).1
  = Return (Some "image-0")
  ∧ (cloudlet_handoff (catalogues (JObj ∅)) ctx vm "tcp://10.0.0.7:8022" "" "" None None
       None None initial).1
    = Return None
  ∧ ((http (catalogues a_reply)).1 = Return None
     ∧ last (trace (http (catalogues a_reply)).2)
       = Some (CastHandoff "compute-1" vm ["reservation-1"]
                 (TcpFormat (JStr "10.0.0.7") (JInt 8022)) None))
  ∧ (http (catalogues (JObj ∅))).1 = Raise (HandoffError no_handoff_message).
Proof.
  intros catalogues http. subst http. cbv beta. split; [|split; [|split]].
  - destruct (cloudlet_handoff (catalogues (JObj ∅)) ctx vm "file://residue-1" "" "" None
                None None None initial) as [r s'] eqn:Hrun.
    destruct (cloudlet_handoff_result _ _ _ _ _ _ _ _ _ _ _ _ _ Hrun)
      as (Hfile & _).
    apply Hfile; [reflexivity|]. repeat split; reflexivity.
  - destruct (cloudlet_handoff (catalogues (JObj ∅)) ctx vm "tcp://10.0.0.7:8022" "" ""
                None None None None initial) as [r s'] eqn:Hrun.
    destruct (cloudlet_handoff_result _ _ _ _ _ _ _ _ _ _ _ _ _ Hrun)
      as (_ & _ & Htcp & _).
    apply Htcp; [reflexivity|]. repeat split; reflexivity.
  - destruct (cloudlet_handoff (catalogues a_reply) ctx vm "http://dest:8774/v2.1"
                "http://dest:9292" "http://dest:9696" (Some "token") None (Some "private")
                None initial) as [r s'] eqn:Hrun.
    destruct (cloudlet_handoff_result _ _ _ _ _ _ _ _ _ _ _ _ _ Hrun)
      as (_ & _ & _ & Hhttp & _).
    set (negotiation :=
           _prepare_handoff_dest (catalogues a_reply)
             (Url.urlparse "http://dest:8774/v2.1") (Url.urlparse "http://dest:9292")
             (Url.urlparse "http://dest:9696") (Some "token") vm None (Some "private")
             (appended [QuotaReserve "proj-1" "user-1" (-1) (-2) (-4096)] initial)).
    assert (Hanswer : negotiation.1 = Return a_reply) by (vm_compute; reflexivity).
    assert (Hprep : negotiation = (Return a_reply, negotiation.2))
      by (rewrite <- Hanswer; apply surjective_pairing).
    assert (Hrunning : running vm initial) by (repeat split; reflexivity).
    destruct (Hhttp eq_refl Hrunning a_reply negotiation.2
                (JObj (<["server_ip" := JStr "10.0.0.7"]> (<["server_port" := JInt 8022]> ∅)))
                (JStr "10.0.0.7") (JInt 8022) Hprep eq_refl eq_refl eq_refl eq_refl)
      as [-> ->].
    split; [reflexivity|].
    unfold appended. cbn [trace]. apply last_snoc.
  - destruct (cloudlet_handoff (catalogues (JObj ∅)) ctx vm "http://dest:8774/v2.1"
                "http://dest:9292" "http://dest:9696" (Some "token") None (Some "private")
                None initial) as [r s'] eqn:Hrun.
    destruct (cloudlet_handoff_result _ _ _ _ _ _ _ _ _ _ _ _ _ Hrun)
      as (_ & _ & _ & _ & Hhttp).
    destruct (Hhttp eq_refl (λ _ _ _, eq_refl)) as (e & events & -> & Htrace & _ & He).
    cbn [fst]. f_equal. apply He.
    vm_compute in Hrun. injection Hrun as <- <-. vm_compute in Htrace. subst events.
    do 4 eexists. do 4 right. left.
Defined.
End Handoff.

(** ** The compute driver: which steps touch the sessions *)

Section Quiet.
Import Nova CloudletDriver DriverScenario.

Lemma extends_refl (allowed : event → Prop) (s : state) : extends allowed s s.
Proof. repeat split. exists []. split; [now rewrite app_nil_r | constructor]. Qed.

Lemma extends_trans (allowed : event → Prop) (s s1 s2 : state) :
  extends allowed s s1 → extends allowed s1 s2 → extends allowed s s2.
Proof.
  intros (Hr1 & Hs1 & ev1 & Ht1 & Ha1) (Hr2 & Hs2 & ev2 & Ht2 & Ha2).
  split; [congruence|]. split; [congruence|].
  exists (ev1 ++ ev2). split; [|now apply Forall_app].
  rewrite Ht2, Ht1. now rewrite app_assoc.
Qed.

Lemma extends_mono (P Q : event → Prop) (s s1 : state) :
  (∀ e, P e → Q e) → extends P s s1 → extends Q s s1.
Proof.
  intros HPQ (Hr & Hs & ev & Ht & Ha). repeat split; try assumption.
  exists ev. split; [assumption|]. eapply Forall_impl; eassumption.
Qed.

Lemma extends_logged (allowed : event → Prop) (e : event) (s : state) :
  allowed e → extends allowed s (logged e s).
Proof. intros He. repeat split. exists [e]. split; [reflexivity | now constructor]. Qed.

Lemma quiet_ret {A} (allowed : event → Prop) (a : A) : quiet allowed (mret a).
Proof. intros s r s' [= <- <-]. apply extends_refl. Qed.

Lemma quiet_raise {A} (allowed : event → Prop) (e : exn) : quiet allowed (raise (A:=A) e).
Proof. intros s r s' [= <- <-]. apply extends_refl. Qed.

Lemma quiet_gets {A} (allowed : event → Prop) (f : state → A) : quiet allowed (gets f).
Proof. intros s r s' [= <- <-]. apply extends_refl. Qed.

Lemma quiet_log (allowed : event → Prop) (e : event) : allowed e → quiet allowed (log e).
Proof. intros He s r s' [= <- <-]. now apply extends_logged. Qed.

Lemma quiet_set_files (allowed : event → Prop) (f : gset string → gset string) :
  quiet allowed (modify (set_files f)).
Proof.
  intros s r s' [= <- <-]. repeat split. exists []. split; [now rewrite app_nil_r|constructor].
Qed.

Lemma quiet_set_domains (allowed : event → Prop) (f : gmap string domain → gmap string domain) :
  quiet allowed (modify (set_domains f)).
Proof.
  intros s r s' [= <- <-]. repeat split. exists []. split; [now rewrite app_nil_r|constructor].
Qed.

(** A quiet first step either raises, or hands a value on to the rest. *)
Lemma bind_quiet_inv {A B} (allowed : event → Prop) (m : M state A) (k : A → M state B)
    (s : state) (r : outcome B) (s' : state) :
  quiet allowed m → (m ≫= k) s = (r, s') →
  (∃ e, r = Raise e ∧ extends allowed s s')
  ∨ (∃ a s1, extends allowed s s1 ∧ k a s1 = (r, s')).
Proof.
  intros Hm Hrun.
  apply bind_inv in Hrun as [(e & Hrun & ->)|(a & s1 & Hrun & Hrest)];
    apply Hm in Hrun; eauto.
Qed.

Lemma quiet_bind {A B} (allowed : event → Prop) (m : M state A) (k : A → M state B) :
  quiet allowed m → (∀ a, quiet allowed (k a)) → quiet allowed (m ≫= k).
Proof.
  intros Hm Hk s r s' Hrun.
  apply (bind_quiet_inv allowed) in Hrun as [(e & _ & Hext)|(a & s1 & Hext & Hrest)];
    [assumption | | assumption].
  apply Hk in Hrest. eapply extends_trans; eassumption.
Qed.

Lemma quiet_try_except {A} (allowed : event → Prop) (m : M state A)
    (h : exn → option (M state A)) :
  quiet allowed m → (∀ e k, h e = Some k → quiet allowed k) →
  quiet allowed (try_except m h).
Proof.
  intros Hm Hh s r s'. unfold try_except.
  destruct (m s) as [[a|e] s1] eqn:Hrun; apply Hm in Hrun.
  - now intros [= <- <-].
  - destruct (h e) as [k|] eqn:Hk.
    + intros Hrest. apply (Hh _ _ Hk) in Hrest. eapply extends_trans; eassumption.
    + now intros [= <- <-].
Qed.

Lemma quiet_try_finally {A} (allowed : event → Prop) (m : M state A) (fin : M state unit) :
  quiet allowed m → quiet allowed fin → quiet allowed (try_finally m fin).
Proof.
  intros Hm Hfin s r s'. unfold try_finally.
  destruct (m s) as [r1 s1] eqn:Hrun. apply Hm in Hrun.
  destruct (fin s1) as [[[]|e] s2] eqn:Hrest; apply Hfin in Hrest; intros [= <- <-];
    eapply extends_trans; eassumption.
Qed.

Lemma quiet_when (allowed : event → Prop) (b : bool) (m : M state unit) :
  quiet allowed m → quiet allowed (when b m).
Proof. destruct b; [trivial|]. intros _. apply quiet_ret. Qed.

Lemma quiet_mono {A} (P Q : event → Prop) (m : M state A) :
  (∀ e, P e → Q e) → quiet P m → quiet Q m.
Proof. intros HPQ Hm s r s' Hrun. apply Hm in Hrun. eapply extends_mono; eassumption. Qed.

Lemma quiet_fmap {A B} (allowed : event → Prop) (f : A → B) (m : M state A) :
  quiet allowed m → quiet allowed (f <$> m).
Proof.
  intros Hm s r s'. unfold fmap, M_fmap.
  destruct (m s) as [[a|e] s1] eqn:Hrun; intros [= <- <-]; now apply Hm in Hrun.
Qed.

End Quiet.

(** Steps through a computation built from the monad's operations. *)
Create HintDb quiet.

Ltac quiet_step :=
  lazymatch goal with
  | |- DriverScenario.quiet _ (mret _) => apply quiet_ret
  | |- DriverScenario.quiet _ (raise _) => apply quiet_raise
  | |- DriverScenario.quiet _ (Py.gets _) => apply quiet_gets
  | |- DriverScenario.quiet _ (CloudletDriver.log _) => apply quiet_log; first [exact I | solve [auto]]
  | |- DriverScenario.quiet _ (modify (CloudletDriver.set_files _)) => apply quiet_set_files
  | |- DriverScenario.quiet _ (modify (CloudletDriver.set_domains _)) => apply quiet_set_domains
  | |- DriverScenario.quiet _ (mbind _ _) => apply quiet_bind; [|intros ?]
  | |- DriverScenario.quiet _ (fmap _ _) => apply quiet_fmap
  | |- DriverScenario.quiet _ (try_except _ _) =>
      apply quiet_try_except;
      [|let e := fresh "e" in let k := fresh "k" in let Hk := fresh "Hk" in
        intros e k Hk; destruct e; try discriminate Hk; injection Hk as <-]
  | |- DriverScenario.quiet _ (try_finally _ _) => apply quiet_try_finally
  | |- DriverScenario.quiet _ (when _ _) => apply quiet_when
  | |- DriverScenario.quiet _ (match ?x with _ => _ end) => destruct x
  | |- DriverScenario.quiet _ (let _ := _ in _) => cbv zeta
  | |- _ => solve [eauto with quiet]
  end.

Ltac quiet_tac := repeat quiet_step.

Section QuietSteps.
Import Nova CloudletDriver DriverScenario.
Context (allowed : event → Prop).

Lemma quiet_path_exists (p : string) : quiet allowed (path_exists p).
Proof. unfold path_exists. quiet_tac. Qed.

Lemma quiet_create_path (p : string) : quiet allowed (create_path p).
Proof. unfold create_path. quiet_tac. Qed.

#[local] Hint Resolve quiet_path_exists quiet_create_path : quiet.

Lemma quiet_os_remove (p : string) : quiet allowed (os_remove p).
Proof. unfold os_remove. quiet_tac. Qed.

Lemma quiet_rmtree (dir : string) : quiet allowed (rmtree dir).
Proof. unfold rmtree. quiet_tac. Qed.

Lemma quiet_ensure_tree (dir : string) : quiet allowed (ensure_tree dir).
Proof. unfold ensure_tree. quiet_tac. Qed.

#[local] Hint Resolve quiet_os_remove quiet_rmtree quiet_ensure_tree : quiet.

Lemma quiet_mkdtemp (E : env) (dir prefix : string) : quiet allowed (mkdtemp E dir prefix).
Proof. unfold mkdtemp. quiet_tac. Qed.

#[local] Hint Resolve quiet_mkdtemp : quiet.

Lemma quiet_with_tempdir {A} (E : env) (dir : string) (body : string → M state A) :
  (∀ tmpdir, quiet allowed (body tmpdir)) → quiet allowed (with_tempdir E dir body).
Proof. intros Hbody. unfold with_tempdir. quiet_tac. Qed.

Lemma quiet_image_show (image_id : string) : quiet allowed (image_show image_id).
Proof. unfold image_show. quiet_tac. Qed.

Lemma quiet_prop (props : option (gmap string string)) (key : string) :
  quiet allowed (prop props key).
Proof. unfold prop. quiet_tac. Qed.

#[local] Hint Resolve quiet_image_show quiet_prop : quiet.

Lemma quiet_copy_properties (props : option (gmap string string)) (keys : list string)
    (acc : gmap string string) : quiet allowed (copy_properties props keys acc).
Proof. revert acc; induction keys as [|key rest IH]; intros acc; simpl; quiet_tac. Qed.

#[local] Hint Resolve quiet_copy_properties : quiet.

Lemma quiet_get_snapshot_metadata (inst : instance) (snapshot_id : string) :
  quiet allowed (_get_snapshot_metadata inst snapshot_id).
Proof. unfold _get_snapshot_metadata. quiet_tac. Qed.

Lemma quiet_get_domain (inst : instance) : quiet allowed (get_domain inst).
Proof. unfold get_domain. quiet_tac. Qed.

#[local] Hint Resolve quiet_get_domain : quiet.

Lemma quiet_running_domain (inst : instance) : quiet allowed (running_domain inst).
Proof. unfold running_domain. quiet_tac. Qed.

Lemma quiet_py_int (x : string) : quiet allowed (py_int x).
Proof. unfold py_int. quiet_tac. Qed.

Lemma quiet_str_prop (props : option (gmap string string)) (key : string) :
  quiet allowed (str_prop props key).
Proof. unfold str_prop. quiet_tac. Qed.

#[local] Hint Resolve quiet_get_snapshot_metadata quiet_running_domain quiet_py_int
  quiet_str_prop : quiet.

Lemma quiet_get_cache_image (E : env) (inst : instance) (snapshot_id : option string) :
  (∀ image_id fname size, allowed (CacheImage image_id fname size)) →
  quiet allowed (_get_cache_image E inst snapshot_id).
Proof. intros Hcache. unfold _get_cache_image. quiet_tac. Qed.

Lemma quiet_detach_neutron_nic (inst : instance) (virt_dom : domain) :
  (∀ id nic, allowed (DetachDevice id nic)) →
  quiet allowed (detach_neutron_nic inst virt_dom).
Proof. intros Hdetach. unfold detach_neutron_nic. quiet_tac. Qed.

Lemma quiet_update_to_glance (filepath meta_id : string) (metadata : snapshot_metadata) :
  (∀ id path md, allowed (GlanceUpdate id path md)) →
  quiet allowed (_update_to_glance filepath meta_id metadata).
Proof. intros Hupdate. unfold _update_to_glance. quiet_tac. Qed.

Lemma quiet_create_overlay (E : env) (vm : VM_Overlay) :
  (∀ zip, allowed (CreateOverlay zip)) → quiet allowed (create_overlay E vm).
Proof. intros Hcreate. unfold create_overlay. quiet_tac. Qed.

Lemma quiet_handoff_send (E : env) (base_vm_paths : list string)
    (base_hashvalue : option string) (synthesized_vm : SynthesizedVM)
    (handoff_url : string) :
  (∀ a b, allowed (Preload a b)) → (∀ d f, allowed (SaveDataSend d f)) →
  (∀ cmd, allowed (Popen cmd)) → (∀ code, allowed (ProcExited code)) →
  quiet allowed (_handoff_send E base_vm_paths base_hashvalue synthesized_vm handoff_url).
Proof. intros Hpreload Hsave Hpopen Hexit. unfold _handoff_send. quiet_tac. Qed.

Lemma quiet_handoff_recv (E : env) (base_vm_paths : list string)
    (base_hashvalue : option string) (datafile launch_disk launch_memory : string) :
  (∀ a b c d e, allowed (SaveDataRecv a b c d e)) →
  (∀ cmd, allowed (Popen cmd)) → (∀ code, allowed (ProcExited code)) →
  quiet allowed
    (_handoff_recv E base_vm_paths base_hashvalue datafile launch_disk launch_memory).
Proof. intros Hsave Hpopen Hexit. unfold _handoff_recv. quiet_tac. Qed.

Lemma quiet_handoff_launch_vm (E : env) (xml base_disk base_mem launch_disk
    launch_memory : string) (disk_size memory_size : Z) (disk_map memory_map : string) :
  (∀ a b c d e f, allowed (RunFuse a b c d e f)) → (∀ a b, allowed (Resume a b)) →
  quiet allowed
    (_handoff_launch_vm E xml base_disk base_mem launch_disk launch_memory disk_size
       memory_size disk_map memory_map).
Proof. intros Hfuse Hresume. unfold _handoff_launch_vm. quiet_tac. Qed.

End QuietSteps.

#[export] Hint Resolve quiet_path_exists quiet_create_path quiet_os_remove quiet_rmtree
  quiet_ensure_tree quiet_mkdtemp quiet_image_show quiet_prop quiet_copy_properties
  quiet_get_snapshot_metadata quiet_get_domain quiet_running_domain quiet_py_int
  quiet_str_prop quiet_get_cache_image quiet_detach_neutron_nic quiet_update_to_glance
  quiet_create_overlay quiet_handoff_send quiet_handoff_recv quiet_handoff_launch_vm
  quiet_with_tempdir : quiet.


(** ** The compute driver: overlay creation *)

(** One quiet step of a computation whose run is [H], with [Hext] the
    extension of the starting state reached so far. *)
Ltac quiet_bind_step allowed H Hext :=
  let e := fresh "e" in
  let a := fresh "a" in
  let s1 := fresh "s" in
  let H1 := fresh "Hstep" in
  apply (bind_quiet_inv allowed) in H as [(e & -> & H1)|(a & s1 & H1 & H)];
  [ apply (extends_trans _ _ _ _ Hext) in H1
  | apply (extends_trans _ _ _ _ Hext) in H1; clear Hext; rename H1 into Hext
  | solve [eauto with quiet | apply quiet_log; exact I
          | apply quiet_get_cache_image; intros; exact I
          | apply quiet_detach_neutron_nic; intros; exact I] ].

Section Overlay.
Import Nova CloudletDriver DriverScenario.

Lemma running_domain_inv (inst : instance) (s : state) (r : outcome domain) (s' : state) :
  running_domain inst s = (r, s') →
  s' = s
  ∧ match domains s !! uuid inst with
    | Some d => r = Return d
    | None => r = Raise (InstanceNotRunning (uuid inst))
    end.
Proof.
  unfold running_domain, try_except, get_domain, mbind, M_bind, gets.
  destruct (domains s !! uuid inst); now intros [= <- <-].
Qed.

(** How a run of [create_overlay_vm] can go: it fails while it prepares;
    or it finds no session and fails with [InstanceNotRunning]; or it
    takes the session out of the dictionary, packs the overlay and goes
    on to upload it. *)
Lemma create_overlay_vm_run (E : env) (inst : instance) (overlay_name overlay_id : string)
    (s : state) (r : outcome unit) (s' : state) :
  create_overlay_vm E inst overlay_name overlay_id s = (r, s') →
  (∃ e, r = Raise e ∧ extends prep_event s s'
        ∧ (domains s !! uuid inst = None → e = InstanceNotRunning (uuid inst) ∧ s' = s))
  ∨ (∃ s1, extends prep_event s s1 ∧ is_Some (domains s !! uuid inst)
           ∧ resumed_vm_dict s !! uuid inst = None
           ∧ r = Raise (InstanceNotRunning (uuid inst))
           ∧ s' = logged (UpdateTaskState IMAGE_PENDING_UPLOAD None) s1)
  ∨ (∃ s1 vm, extends prep_event s s1 ∧ is_Some (domains s !! uuid inst)
              ∧ resumed_vm_dict s !! uuid inst = Some vm
              ∧ extends upload_event (consumed E inst vm s1) s').
Proof.
  unfold create_overlay_vm. intros Hrun.
  apply bind_inv in Hrun as [(e & Hdom & ->)|(virt_dom & s0 & Hdom & Hrun)];
    apply running_domain_inv in Hdom as [-> Hdom].
  { left. exists e. split; [reflexivity|]. split; [apply extends_refl|].
    intros Hnone. rewrite Hnone in Hdom. now injection Hdom as ->. }
  assert (Hsome : is_Some (domains s !! uuid inst))
    by (destruct (domains s !! uuid inst); [eauto | discriminate]).
  clear Hdom.
  assert (Hfail : ∀ e s1, extends prep_event s s1 →
            ∃ e0, Raise (A:=unit) e = Raise e0 ∧ extends prep_event s s1
                  ∧ (domains s !! uuid inst = None
                     → e0 = InstanceNotRunning (uuid inst) ∧ s1 = s)).
  { intros e s1 Hext. exists e. split; [reflexivity|]. split; [assumption|].
    intros Hnone. rewrite Hnone in Hsome. now destruct Hsome. }
  pose proof (extends_refl prep_event s) as Hext.
  quiet_bind_step prep_event Hrun Hext; [left; now apply Hfail|].
  destruct (_get_basevm_meta_info a) as [[[base_sha256 memory_snap] diskhash_snap] memhash_snap].
  do 6 (quiet_bind_step prep_event Hrun Hext; [left; now apply Hfail|]).
  quiet_bind_step prep_event Hrun Hext; [left; now apply Hfail|].
  match type of Hrun with
  | (log ?ev ≫= ?k) ?st = _ =>
      rewrite (bind_return (log ev) k st (logged ev st) tt eq_refl) in Hrun
  end.
  match type of Hrun with
  | (gets ?f ≫= ?k) ?st = _ =>
      rewrite (bind_return (gets f) k st st (f st) eq_refl) in Hrun
  end.
  cbn [resumed_vm_dict logged] in Hrun.
  lazymatch type of Hext with extends _ _ ?sc => rename sc into s_prep end.
  destruct Hext as (Hres & Hsyn & Hevents).
  rewrite Hres in Hrun.
  destruct (resumed_vm_dict s !! uuid inst) as [vm|] eqn:Hvm.
  - right. right. exists s_prep, vm. split; [now split|]. split; [assumption|].
    split; [reflexivity|].
    match type of Hrun with
    | (modify ?f ≫= ?k) ?st = _ =>
        rewrite (bind_return (modify f) k st (f st) tt eq_refl) in Hrun
    end.
    match type of Hrun with
    | (log ?ev ≫= ?k) ?st = _ =>
      rewrite (bind_return (log ev) k st (logged ev st) tt eq_refl) in Hrun
    end.
    match type of Hrun with
    | (create_overlay E vm ≫= ?k) ?st = _ =>
        rewrite (bind_return (create_overlay E vm) k st (consumed E inst vm s_prep) _
                   eq_refl) in Hrun
    end.
    revert Hrun. cbn [overlay_zipfile default].
    match goal with
    | |- ?m _ = _ → _ => assert (Hquiet : quiet upload_event m)
    end.
    { quiet_tac. apply quiet_update_to_glance. intros; exact I. }
    apply Hquiet.
  - right. left. exists s_prep. injection Hrun as <- <-. repeat split; assumption.
Qed.

End Overlay.

(** ** The compute driver: the send role of a handoff *)

(** Runs the first step of the computation in the goal when it is one of
    the steps that cannot fail. *)
Ltac run_step :=
  match goal with
  | |- context [(CloudletDriver.log ?ev ≫= ?k) ?st] =>
      rewrite (bind_return (CloudletDriver.log ev) k st (DriverScenario.logged ev st) tt
                 eq_refl)
  | |- context [(CloudletDriver.create_path ?p ≫= ?k) ?st] =>
      rewrite (bind_return (CloudletDriver.create_path p) k st
                 (CloudletDriver.set_files (λ fs, {[p]} ∪ fs) st) tt eq_refl)
  | |- context [(CloudletDriver.mkdtemp ?E ?d ?p ≫= ?k) ?st] =>
      rewrite (bind_return (CloudletDriver.mkdtemp E d p) k st
                 (CloudletDriver.set_files
                    (λ fs, {[path_join d (p +:+ CloudletDriver.mkdtemp_suffix E
                                                  (CloudletDriver.files st))]} ∪ fs) st)
                 (path_join d (p +:+ CloudletDriver.mkdtemp_suffix E
                                       (CloudletDriver.files st)))
                 eq_refl)
  | |- context [(mret ?a ≫= ?k) ?st] =>
      rewrite (bind_return (mret a) k st st a eq_refl)
  | |- context [(raise ?e ≫= ?k) ?st] =>
      rewrite (bind_raise (raise e) k st st e eq_refl)
  | |- context [(modify ?f ≫= ?k) ?st] =>
      rewrite (bind_return (modify f) k st (f st) tt eq_refl)
  | |- context [(Py.gets ?f ≫= ?k) ?st] =>
      rewrite (bind_return (Py.gets f) k st st (f st) eq_refl)
  end; cbv beta.

Section HandoffSend.
Import Nova CloudletDriver DriverScenario.

(** With four base paths and a live machine [_handoff_send] returns,
    whatever the worker's exit code: the code is observed and not looked
    at.  The request directory and the request file are still there when
    it returns. *)
Lemma handoff_send_returns (E : env) (basedisk basemem diskhash memhash : string)
    (base_hashvalue : option string) (synthesized_vm : SynthesizedVM) (machine_id : string)
    (handoff_url : string) (s : state) :
  machine synthesized_vm = Some machine_id →
  ∃ data s1,
    _handoff_send E [basedisk; basemem; diskhash; memhash] base_hashvalue synthesized_vm
      handoff_url s
    = (Return (if String.eqb (Url.scheme (Url.urlsplit handoff_url)) "file"
               then Some (path_join (residue_tmp_dir E s) (OVERLAY_ZIP E)) else None), s1)
    ∧ trace s1
      = trace s ++ [Preload diskhash memhash;
                    SaveDataSend data (handoff_send_datafile E s);
                    Popen ["/usr/local/bin/handoff-proc"; handoff_send_datafile E s];
                    ProcExited (returncode (send_worker E (handoff_send_datafile E s)))]
    ∧ resumed_vm_dict s1 = resumed_vm_dict s
    ∧ synthesized_vm_dics s1 = synthesized_vm_dics s
    ∧ {[residue_tmp_dir E s; handoff_send_datafile E s]} ∪ files s ⊆ files s1.
Proof.
  intros Hmachine. unfold _handoff_send, residue_tmp_dir, handoff_send_datafile.
  rewrite Hmachine. repeat run_step.
  destruct (String.eqb (Url.scheme (Url.urlsplit handoff_url)) "file").
  - repeat run_step.
    match goal with
    | |- context [when (writes_output ?proc)] => destruct (writes_output proc)
    end; cbn [when]; repeat run_step;
      (eexists _, _; split; [reflexivity|]);
      cbn [trace resumed_vm_dict synthesized_vm_dics files logged set_files];
      rewrite <- !app_assoc; repeat split; try reflexivity; set_solver.
  - repeat run_step.
    eexists _, _. split; [reflexivity|].
    cbn [trace resumed_vm_dict synthesized_vm_dics files logged set_files].
    rewrite <- !app_assoc. repeat split; set_solver.
Qed.

End HandoffSend.

Section HandoffRun.
Import Nova CloudletDriver DriverScenario.

Lemma handoff_send_trace (E : env) (a b c d : string) (base_hashvalue : option string)
    (synthesized_vm : SynthesizedVM) (handoff_url : string) (s : state)
    (zip : option string) (s1 : state) :
  _handoff_send E [a; b; c; d] base_hashvalue synthesized_vm handoff_url s
  = (Return zip, s1) →
  (∃ data,
     trace s1
     = trace s ++ [Preload c d;
                   SaveDataSend data (handoff_send_datafile E s);
                   Popen ["/usr/local/bin/handoff-proc"; handoff_send_datafile E s];
                   ProcExited (returncode (send_worker E (handoff_send_datafile E s)))])
  ∧ resumed_vm_dict s1 = resumed_vm_dict s
  ∧ synthesized_vm_dics s1 = synthesized_vm_dics s
  ∧ {[residue_tmp_dir E s; handoff_send_datafile E s]} ∪ files s ⊆ files s1
  ∧ zip = (if String.eqb (Url.scheme (Url.urlsplit handoff_url)) "file"
           then Some (path_join (residue_tmp_dir E s) (OVERLAY_ZIP E)) else None).
Proof.
  intros Hrun.
  destruct (machine synthesized_vm) as [machine_id|] eqn:Hmachine.
  - destruct (handoff_send_returns E a b c d base_hashvalue synthesized_vm machine_id
                handoff_url s Hmachine) as (data & s2 & Hsend & Htrace & Hres & Hsyn & Hfiles).
    rewrite Hsend in Hrun. injection Hrun as <- <-. eauto 10.
  - exfalso.
    revert Hrun. unfold _handoff_send. rewrite Hmachine. repeat run_step.
    destruct (String.eqb (Url.scheme (Url.urlsplit handoff_url)) "file");
      repeat run_step; discriminate.
Qed.

(** How a run of [perform_vmhandoff] can go: it fails, with the session
    where it was; or [_handoff_send] has returned, and only then the
    session is taken out of the dictionary and the residue uploaded. *)
Lemma perform_vmhandoff_run (E : env) (inst : instance) (handoff_url : string)
    (residue_glance_id : option string) (s : state) (r : outcome unit) (s' : state) :
  perform_vmhandoff E inst handoff_url residue_glance_id s = (r, s') →
  (∃ e, r = Raise e ∧ extends handoff_event s s')
  ∨ (∃ vm a b c d hash s0 zip s1,
       synthesized_vm_dics s !! uuid inst = Some vm
       ∧ extends handoff_event s s0
       ∧ _handoff_send E [a; b; c; d] hash vm handoff_url s0 = (Return zip, s1)
       ∧ extends upload_event (handed_off inst s1) s').
Proof.
  unfold perform_vmhandoff. intros Hrun.
  apply bind_inv in Hrun as [(e & Hdom & ->)|(virt_dom & s0 & Hdom & Hrun)];
    apply running_domain_inv in Hdom as [-> Hdom].
  { left. exists e. split; [reflexivity | apply extends_refl]. }
  clear Hdom. revert Hrun. run_step.
  destruct (synthesized_vm_dics s !! uuid inst) as [vm|] eqn:Hvm.
  2: { intros [= <- <-]. left. eexists. split; [reflexivity | apply extends_refl]. }
  intros Hrun.
  pose proof (extends_refl handoff_event s) as Hext.
  quiet_bind_step handoff_event Hrun Hext; [left; eauto|].
  destruct (_get_basevm_meta_info a) as [[[base_sha256 memory_snap] diskhash_snap] memhash_snap].
  do 6 (quiet_bind_step handoff_event Hrun Hext; [left; eauto|]).
  apply bind_inv in Hrun as [(e & Hsend & ->)|(zip & s_sent & Hsend & Hrun)].
  - left. exists e. split; [reflexivity|].
    eapply extends_trans; [exact Hext|].
    revert Hsend. apply quiet_try_except.
    + apply quiet_handoff_send; intros; exact I.
    + intros e0 k Hk. destruct e0; try discriminate Hk. injection Hk as <-.
      apply quiet_raise.
  - right.
    unfold try_except in Hsend.
    match type of Hsend with
    | context [_handoff_send E ?paths ?hash vm handoff_url ?st] =>
        destruct (_handoff_send E paths hash vm handoff_url st) as [[z|e] s_send] eqn:Hrun_send
    end.
    2: { destruct e; discriminate Hsend. }
    injection Hsend as -> ->.
    do 9 eexists. split; [reflexivity|]. split; [exact Hext|]. split; [exact Hrun_send|].
    revert Hrun. repeat run_step.
    match goal with
    | |- ?m _ = _ → _ => assert (Hquiet : quiet upload_event m)
    end.
    { quiet_tac. apply quiet_update_to_glance. intros; exact I. }
    apply Hquiet.
Qed.

End HandoffRun.

(** ** Overlay creation without a running VM *)

Section NotRunning.
Import Nova CloudletDriver DriverScenario.

Lemma prep_not_overlay (e : event) : prep_event e → ¬ overlay_event e.
Proof. now destruct e. Qed.

Lemma extends_events (allowed : event → Prop) (s s1 : state) :
  extends allowed s s1 → ∃ events, trace s1 = trace s ++ events ∧ Forall allowed events.
Proof. now intros (_ & _ & H). Qed.

(** C7, as the code has it.  When the hypervisor has no domain for the
    instance, or no session is registered for it in [resumed_vm_dict],
    [create_overlay_vm] fails: no overlay is packed and none is uploaded,
    and the session dictionary is as before.  With no domain the failure
    is [InstanceNotRunning] and nothing at all was done.  With a domain
    and no session the look-up of the session comes after the
    preparation (image look-ups, cache, detaching the NIC, pause,
    metadata of the record): the failure is [InstanceNotRunning] once the
    preparation has gone through and the pending upload was announced,
    and the error of the preparation before that. *)
Theorem create_overlay_vm_not_running (E : env) (inst : instance)
    (overlay_name overlay_id : string) (s : state) (r : outcome unit) (s' : state) :
  create_overlay_vm E inst overlay_name overlay_id s = (r, s') →
  domains s !! uuid inst = None ∨ resumed_vm_dict s !! uuid inst = None →
  ∃ e events,
    r = Raise e
    ∧ trace s' = trace s ++ events
    ∧ Forall (λ ev, ¬ overlay_event ev) events
    ∧ resumed_vm_dict s' = resumed_vm_dict s
    ∧ (domains s !! uuid inst = None → e = InstanceNotRunning (uuid inst) ∧ s' = s)
    ∧ (UpdateTaskState IMAGE_PENDING_UPLOAD None ∈ events →
       e = InstanceNotRunning (uuid inst)).
Proof.
  intros Hrun Habsent.
  apply create_overlay_vm_run in Hrun
    as [(e & -> & Hext & Hnone)
       |[(s1 & Hext & Hdom & Hsession & -> & ->)
        |(s1 & vm & _ & Hdom & Hsession & _)]].
  - destruct Hext as (Hres & _ & events & Htrace & Hprep).
    exists e, events. split; [reflexivity|]. split; [assumption|].
    split; [eapply Forall_impl; [exact Hprep | exact prep_not_overlay]|].
    split; [assumption|]. split; [assumption|].
    intros Hin. rewrite Forall_forall in Hprep. now apply Hprep in Hin.
  - destruct Hext as (Hres & _ & events & Htrace & Hprep).
    exists (InstanceNotRunning (uuid inst)),
      (events ++ [UpdateTaskState IMAGE_PENDING_UPLOAD None]).
    split; [reflexivity|].
    split; [cbn; rewrite Htrace; now rewrite app_assoc|].
    split.
    { apply Forall_app. split.
      - eapply Forall_impl; [exact Hprep | exact prep_not_overlay].
      - repeat constructor. now intros []. }
    split; [assumption|]. split; [|reflexivity].
    intros Hnone. rewrite Hnone in Hdom. now destruct Hdom.
  - exfalso. destruct Habsent as [Hnone|Hnone].
    + rewrite Hnone in Hdom. now destruct Hdom.
    + congruence.
Qed.

(** A host with the domain of "vm-1" and no session for it. *)
Lemma create_overlay_vm_not_running_witness :
  let E := an_env (a_worker 0 "") (a_worker 0 openstack_line) in
  (create_overlay_vm E Scenario.vm "overlay" "img-new" (a_host ∅ ∅)).1
  = Raise (InstanceNotRunning "vm-1").
Proof.
  intros E.
  assert (Hsession : resumed_vm_dict (a_host ∅ ∅) !! uuid Scenario.vm = None)
    by reflexivity.
  destruct (create_overlay_vm_not_running E Scenario.vm "overlay" "img-new" (a_host ∅ ∅)
              _ _ (surjective_pairing _) (or_intror Hsession))
    as (e & events & -> & Htrace & _ & _ & _ & Hreached).
  f_equal. apply Hreached.
  change (trace (a_host ∅ ∅) ++ events) with events in Htrace. rewrite <- Htrace.
  apply list_elem_of_In. vm_compute. do 6 right. left. reflexivity.
Defined.

(** C7 as stated fails: without a session the failure need not be
    [InstanceNotRunning].  "vm-1" has a domain and no session.  When the
    image service does not know its image the call fails with
    [ImageNotFound]; when the image is not the disk of a base VM it fails
    with a [TypeError] after the image was cached; and when the
    preparation goes through, the NIC was detached and the VM paused
    before the missing session is noticed. *)
Lemma create_overlay_vm_other_failures :
  let E := an_env (a_worker 0 "") (a_worker 0 openstack_line) in
  let host (known : gmap string image_meta) :=
    {| domains := <["vm-1" := a_domain]> ∅; images := known; files := ∅;
       resumed_vm_dict := ∅; synthesized_vm_dics := ∅; trace := [] |} in
  let plain := {| im_id := "img-base"; im_name := "cirros";
                  im_container_format := Some "bare"; im_properties := None |} in
  (create_overlay_vm E Scenario.vm "overlay" "img-new" (host ∅)).1
  = Raise (ImageNotFound "img-base")
  ∧ (create_overlay_vm E Scenario.vm "overlay" "img-new" (host (<["img-base" := plain]> ∅))).1
    = Raise (TypeError "must be string or buffer, not None")
  ∧ (create_overlay_vm E Scenario.vm "overlay" "img-new" (host image_service)).1
    = Raise (InstanceNotRunning "vm-1")
  ∧ ∃ cached,
      trace (create_overlay_vm E Scenario.vm "overlay" "img-new" (host image_service)).2
      = cached ++ [DetachDevice "vm-1" "<interface type='bridge'/>"; Pause "vm-1";
                   UpdateTaskState IMAGE_PENDING_UPLOAD None].
Proof.
  intros E host plain. split; [|split; [|split]]; try (vm_compute; reflexivity).
  exists (firstn 4 (trace (create_overlay_vm E Scenario.vm "overlay" "img-new"
                             (host image_service)).2)).
  vm_compute. reflexivity.
Qed.

End NotRunning.

(** ** The send role and the worker's exit code, the temporary files *)

Section SendRoleDefects.
Import Nova CloudletDriver DriverScenario.

(** C2, as the code has it.  With four base paths and a live machine
    [_handoff_send] returns normally whatever the exit code of the
    transfer worker: the exit of the worker is the last thing that
    happens, its code is not looked at, and no failure reaches the
    caller. *)
Theorem handoff_send_ignores_exit_code (E : env)
    (basedisk basemem diskhash memhash : string) (base_hashvalue : option string)
    (synthesized_vm : SynthesizedVM) (machine_id : string) (handoff_url : string)
    (s : state) :
  machine synthesized_vm = Some machine_id →
  ∃ zip s1,
    _handoff_send E [basedisk; basemem; diskhash; memhash] base_hashvalue synthesized_vm
      handoff_url s = (Return zip, s1)
    ∧ last (trace s1)
      = Some (ProcExited (returncode (send_worker E (handoff_send_datafile E s))))
    ∧ synthesized_vm_dics s1 = synthesized_vm_dics s.
Proof.
  intros Hmachine.
  destruct (handoff_send_returns E basedisk basemem diskhash memhash base_hashvalue
              synthesized_vm machine_id handoff_url s Hmachine)
    as (data & s1 & Hrun & Htrace & _ & Hsyn & _).
  eexists _, s1. split; [exact Hrun|]. split; [|exact Hsyn].
  rewrite Htrace.
  change [Preload diskhash memhash; SaveDataSend data (handoff_send_datafile E s);
          Popen ["/usr/local/bin/handoff-proc"; handoff_send_datafile E s];
          ProcExited (returncode (send_worker E (handoff_send_datafile E s)))]
    with ([Preload diskhash memhash; SaveDataSend data (handoff_send_datafile E s);
           Popen ["/usr/local/bin/handoff-proc"; handoff_send_datafile E s]]
          ++ [ProcExited (returncode (send_worker E (handoff_send_datafile E s)))]).
  rewrite app_assoc. apply last_snoc.
Qed.

(** A worker that exits with code 1. *)
Lemma handoff_send_ignores_exit_code_witness :
  let E := an_env (a_worker 1 "") (a_worker 0 openstack_line) in
  ∃ zip s1,
    _handoff_send E ["/base/disk"; "/base/mem"; "/base/diskhash"; "/base/memhash"]
      (Some "abc123") (a_synthesized_vm "/tmp/launch-disk" "/tmp/launch-mem" "<domain/>")
      "tcp://10.0.0.7:8022" synthesized_host
    = (Return zip, s1)
    ∧ last (trace s1) = Some (ProcExited 1).
Proof.
  intros E.
  destruct (handoff_send_ignores_exit_code E "/base/disk" "/base/mem" "/base/diskhash"
              "/base/memhash" (Some "abc123")
              (a_synthesized_vm "/tmp/launch-disk" "/tmp/launch-mem" "<domain/>") "domain-1"
              "tcp://10.0.0.7:8022" synthesized_host eq_refl)
    as (zip & s1 & Hrun & Hlast & _).
  exists zip, s1. split; [exact Hrun | exact Hlast].
Defined.

(** The failing input of C2 seen from the caller.  The transfer worker
    exits with code 1; [perform_vmhandoff] returns as after a successful
    transfer and the session is removed. *)
Lemma perform_vmhandoff_after_failed_worker :
  let E := an_env (a_worker 1 "") (a_worker 0 openstack_line) in
  let run := perform_vmhandoff E Scenario.vm "tcp://10.0.0.7:8022" None synthesized_host in
  returncode (send_worker E "/tmp/cloudlet-residue-Xy12ab/handoff_data") = 1
  ∧ run.1 = Return tt
  ∧ (∃ pre, trace run.2 = pre ++ [ProcExited 1; SynthesizedRemoved "vm-1"])
  ∧ is_Some (synthesized_vm_dics synthesized_host !! "vm-1")
  ∧ synthesized_vm_dics run.2 !! "vm-1" = None.
Proof.
  intros E run. split; [reflexivity|]. split; [vm_compute; reflexivity|].
  split; [|split].
  - exists (firstn 9 (trace run.2)). vm_compute. reflexivity.
  - apply (bool_decide_unpack _). vm_compute. exact I.
  - vm_compute. reflexivity.
Qed.

(** C4, as the code has it.  When [_handoff_send] returns, the request
    directory it made with [mkdtemp] and the request file it wrote there
    still exist, and nothing that existed before has been removed: the
    send role has no clean-up. *)
Theorem handoff_send_leaves_request_files (E : env)
    (basedisk basemem diskhash memhash : string) (base_hashvalue : option string)
    (synthesized_vm : SynthesizedVM) (machine_id : string) (handoff_url : string)
    (s : state) :
  machine synthesized_vm = Some machine_id →
  ∃ zip s1,
    _handoff_send E [basedisk; basemem; diskhash; memhash] base_hashvalue synthesized_vm
      handoff_url s = (Return zip, s1)
    ∧ residue_tmp_dir E s ∈ files s1
    ∧ handoff_send_datafile E s ∈ files s1
    ∧ files s ⊆ files s1.
Proof.
  intros Hmachine.
  destruct (handoff_send_returns E basedisk basemem diskhash memhash base_hashvalue
              synthesized_vm machine_id handoff_url s Hmachine)
    as (data & s1 & Hrun & _ & _ & _ & Hfiles).
  eexists _, s1. split; [exact Hrun|]. set_solver.
Qed.

(** The request directory of a handoff of "vm-1" over TCP. *)
Lemma handoff_send_leaves_request_files_witness :
  let E := an_env (a_worker 0 "") (a_worker 0 openstack_line) in
  ∃ zip s1,
    _handoff_send E ["/base/disk"; "/base/mem"; "/base/diskhash"; "/base/memhash"]
      (Some "abc123") (a_synthesized_vm "/tmp/launch-disk" "/tmp/launch-mem" "<domain/>")
      "tcp://10.0.0.7:8022" synthesized_host
    = (Return zip, s1)
    ∧ "/tmp/cloudlet-residue-Xy12ab" ∈ files s1
    ∧ "/tmp/cloudlet-residue-Xy12ab/handoff_data" ∈ files s1.
Proof.
  intros E.
  destruct (handoff_send_leaves_request_files E "/base/disk" "/base/mem" "/base/diskhash"
              "/base/memhash" (Some "abc123")
              (a_synthesized_vm "/tmp/launch-disk" "/tmp/launch-mem" "<domain/>") "domain-1"
              "tcp://10.0.0.7:8022" synthesized_host eq_refl)
    as (zip & s1 & Hrun & Hdir & Hfile & _).
  exists zip, s1. split; [exact Hrun|]. split; [exact Hdir | exact Hfile].
Defined.

(** The failing input of C4 seen from the caller.  A send-role handoff
    over TCP that succeeds: the request directory and the request file
    are still there when [perform_vmhandoff] has returned. *)
Lemma perform_vmhandoff_leaves_request_files :
  let E := an_env (a_worker 0 "") (a_worker 0 openstack_line) in
  let run := perform_vmhandoff E Scenario.vm "tcp://10.0.0.7:8022" None synthesized_host in
  run.1 = Return tt
  ∧ ("/tmp/cloudlet-residue-Xy12ab" ∉ files synthesized_host)
  ∧ "/tmp/cloudlet-residue-Xy12ab" ∈ files run.2
  ∧ "/tmp/cloudlet-residue-Xy12ab/handoff_data" ∈ files run.2.
Proof.
  intros E run. split; [vm_compute; reflexivity|]. split; [|split].
  - apply not_elem_of_empty.
  - apply (bool_decide_unpack _). vm_compute. exact I.
  - apply (bool_decide_unpack _). vm_compute. exact I.
Qed.

End SendRoleDefects.

(** * Further properties of the code *)

(** ** The API: the gate on the instance, records left behind *)

Section ApiGate.
Import Nova CloudletAPI ApiScenario Scenario.

Lemma check_instance_state_rejects {A} (inst : instance) (f : M state A) (s : state) :
  ¬ (vm_state_of inst = ACTIVE ∧ task_state_of inst = None ∧ launched_at inst = true) →
  check_instance_state inst f s = (Raise (InstanceInvalidState (uuid inst)), s).
Proof.
  intros Hnot.
  destruct (check_instance_state inst f s) as [r s'] eqn:Hrun.
  apply check_instance_state_inv in Hrun as [(-> & -> & _)|(? & ? & ? & _)];
    [reflexivity | tauto].
Qed.

(** The three entry points of the API are behind the same gate: on an
    instance that is not active, or has a task in progress, or was never
    launched, each of them raises [InstanceInvalidState] and nothing has
    happened: no quota reserved, no image record created, no request to
    a destination, no message to the compute host. *)
Theorem api_rejects_instance_not_ready (E : env) (ctx : context) (inst : instance)
    (name : string) (handoff_url glance_url neutron_url : string)
    (dest_token dest_vmname dest_network : option string)
    (extra_properties : option (gmap string json)) (s : state) :
  ¬ (vm_state_of inst = ACTIVE ∧ task_state_of inst = None ∧ launched_at inst = true) →
  cloudlet_create_base E ctx inst name extra_properties s
  = (Raise (InstanceInvalidState (uuid inst)), s)
  ∧ cloudlet_create_overlay_finish E ctx inst name extra_properties s
    = (Raise (InstanceInvalidState (uuid inst)), s)
  ∧ cloudlet_handoff E ctx inst handoff_url glance_url neutron_url dest_token dest_vmname
      dest_network extra_properties s
    = (Raise (InstanceInvalidState (uuid inst)), s).
Proof.
  intros Hnot. repeat split; now apply check_instance_state_rejects.
Qed.

(** An instance that is already taking a snapshot. *)
Lemma api_rejects_instance_not_ready_witness :
  let E := an_env [] [] [] a_reply in
  let busy := set_task_state (Some IMAGE_SNAPSHOT) vm in
  cloudlet_create_base E ctx busy "base" None initial
  = (Raise (InstanceInvalidState "vm-1"), initial)
  ∧ cloudlet_handoff E ctx busy "file://residue-1" "" "" None None None None initial
    = (Raise (InstanceInvalidState "vm-1"), initial).
Proof.
  intros E busy.
  assert (Hbusy : ¬ (vm_state_of busy = ACTIVE ∧ task_state_of busy = None
                     ∧ launched_at busy = true))
    by (intros (_ & Htask & _); discriminate Htask).
  split.
  - exact (proj1 (api_rejects_instance_not_ready E ctx busy "base" "" "" "" None None None
                    None initial Hbusy)).
  - exact (proj2 (proj2 (api_rejects_instance_not_ready E ctx busy "base"
                           "file://residue-1" "" "" None None None None initial Hbusy))).
Defined.

Lemma instance_save_conflict (inst : instance) (ts : task_state) (s : state) :
  db_task_state s !! uuid inst = Some (Some ts) →
  instance_save inst [None] s = (Raise (UnexpectedTaskStateError (uuid inst)), s).
Proof.
  intros Hstored. unfold instance_save, mbind, M_bind, gets. rewrite Hstored.
  rewrite bool_decide_eq_false_2; [reflexivity|].
  intros Hin. apply list_elem_of_singleton in Hin. discriminate Hin.
Qed.

(** [cloudlet_create_base] creates its four image records before it
    saves the task state.  When the stored instance has taken up a task
    in the meantime the save fails with [UnexpectedTaskStateError]; the
    four records stay in the image service and the compute host is not
    called. *)
Theorem create_base_conflict_leaves_records (E : env) (ctx : context) (inst : instance)
    (base_name : string) (extra_properties : option (gmap string json))
    (ts : task_state) (s : state) :
  vm_state_of inst = ACTIVE → task_state_of inst = None → launched_at inst = true →
  db_task_state s !! uuid inst = Some (Some ts) →
  ∃ mem diskhash memhash disk s',
    cloudlet_create_base E ctx inst base_name extra_properties s
    = (Raise (UnexpectedTaskStateError (uuid inst)), s')
    ∧ glance s' = glance s ++ [mem; diskhash; memhash; disk]
    ∧ sm_name <$> (snd <$> [mem; diskhash; memhash; disk])
      = [base_name +:+ "-mem"; base_name +:+ "-disk-meta"; base_name +:+ "-mem-meta";
         base_name +:+ "-disk"]
    ∧ trace s' = trace s
    ∧ db_task_state s' = db_task_state s.
Proof.
  intros Hactive Htask Hlaunched Hstored.
  unfold cloudlet_create_base, check_instance_state.
  rewrite Hactive, Htask, Hlaunched. cbn [bool_decide negb].
  rewrite !bool_decide_eq_true_2 by reflexivity. cbn [negb].
  set (net_info := JList _).
  set (sha := sha256_hexdigest E (uuid inst)).
  set (extra := default ∅ extra_properties).
  destruct (cloudlet_create_image_run E ctx inst (base_name +:+ "-mem") "snapshot"
              (extra ∪ base_properties IMAGE_TYPE_BASE_MEM net_info sha) s)
    as (mem & Hmem & Hmem_name & _).
  rewrite (bind_return _ _ _ _ _ Hmem). clear Hmem.
  set (s1 := {| glance := glance s ++ [_] |}).
  destruct (cloudlet_create_image_run E ctx inst (base_name +:+ "-disk-meta") "snapshot"
              (extra ∪ base_properties IMAGE_TYPE_BASE_DISK_HASH net_info sha) s1)
    as (diskhash & Hdiskhash & Hdiskhash_name & _).
  rewrite (bind_return _ _ _ _ _ Hdiskhash). clear Hdiskhash.
  set (s2 := {| glance := glance s1 ++ [_] |}).
  destruct (cloudlet_create_image_run E ctx inst (base_name +:+ "-mem-meta") "snapshot"
              (extra ∪ base_properties IMAGE_TYPE_BASE_MEM_HASH net_info sha) s2)
    as (memhash & Hmemhash & Hmemhash_name & _).
  rewrite (bind_return _ _ _ _ _ Hmemhash). clear Hmemhash.
  set (s3 := {| glance := glance s2 ++ [_] |}).
  cbv beta zeta. cbn [fst].
  match goal with
  | |- context [_cloudlet_create_image E ctx inst _ _ (Some ?p)] =>
      destruct (cloudlet_create_image_run E ctx inst (base_name +:+ "-disk") "snapshot" p s3)
        as (disk & Hdisk & Hdisk_name & _)
  end.
  rewrite (bind_return _ _ _ _ _ Hdisk). clear Hdisk.
  set (s4 := {| glance := glance s3 ++ [_] |}).
  rewrite (bind_raise _ _ _ _ _
             (instance_save_conflict (set_task_state (Some IMAGE_SNAPSHOT) inst) ts s4
                Hstored)).
  exists (new_image_id E (length (glance s)), mem),
    (new_image_id E (length (glance s1)), diskhash),
    (new_image_id E (length (glance s2)), memhash),
    (new_image_id E (length (glance s3)), disk), s4.
  split; [reflexivity|]. split; [|split; [|split]]; try reflexivity.
  - cbn. rewrite <- !app_assoc. reflexivity.
  - cbn. now rewrite Hmem_name, Hdiskhash_name, Hmemhash_name, Hdisk_name.
Qed.

(** The stored instance is uploading another image. *)
Lemma create_base_conflict_leaves_records_witness :
  let E := an_env [] [] [] a_reply in
  let stored := {| glance := []; db_task_state := <["vm-1" := Some IMAGE_UPLOADING]> ∅;
                   trace := [] |} in
  ∃ mem diskhash memhash disk s',
    cloudlet_create_base E ctx vm "base" None stored
    = (Raise (UnexpectedTaskStateError "vm-1"), s')
    ∧ glance s' = [mem; diskhash; memhash; disk]
    ∧ trace s' = [].
Proof.
  intros E stored.
  destruct (create_base_conflict_leaves_records E ctx vm "base" None IMAGE_UPLOADING stored
              eq_refl eq_refl eq_refl eq_refl)
    as (mem & diskhash & memhash & disk & s' & Hrun & Hglance & _ & Htrace & _).
  exists mem, diskhash, memhash, disk, s'. auto.
Defined.

End ApiGate.

(** ** The API: the end of an overlay, the requests of a negotiation *)

Section ApiFlow.
Import Nova CloudletAPI ApiScenario Scenario.

(** [cloudlet_create_overlay_finish] on an active instance stored with no
    task: the quota of the instance is given back first (one instance,
    its cores, its memory, as negative deltas), then one image record is
    created under the overlay's name, typed [cloudlet_overlay] unless the
    caller's properties say otherwise, then the task state
    [IMAGE_SNAPSHOT] is saved and one message is cast to the compute
    host, with the reservations and the id of the record; the record is
    the result. *)
Theorem overlay_finish_run (E : env) (ctx : context) (inst : instance)
    (overlay_name : string) (extra_properties : option (gmap string json)) (s : state) :
  vm_state_of inst = ACTIVE → task_state_of inst = None → launched_at inst = true →
  db_task_state s !! uuid inst = Some None →
  ∃ record s',
    cloudlet_create_overlay_finish E ctx inst overlay_name extra_properties s
    = (Return record, s')
    ∧ glance s' = glance s ++ [record]
    ∧ record.1 = new_image_id E (length (glance s))
    ∧ sm_name record.2 = overlay_name
    ∧ sm_properties record.2 !! PROPERTY_KEY_CLOUDLET_TYPE
      = Some (default (JStr IMAGE_TYPE_OVERLAY)
                (default ∅ extra_properties !! PROPERTY_KEY_CLOUDLET_TYPE))
    ∧ trace s'
      = trace s ++ [QuotaReserve (ids_from_instance ctx inst).1 (ids_from_instance ctx inst).2
                      (-1) (- vcpus inst) (- memory_mb inst);
                    InstanceSave (set_task_state (Some IMAGE_SNAPSHOT) inst);
                    CastOverlayFinish (host inst) (set_task_state (Some IMAGE_SNAPSHOT) inst)
                      (reservations_of E inst) overlay_name record.1]
    ∧ db_task_state s' !! uuid inst = Some (Some IMAGE_SNAPSHOT).
Proof.
  intros Hactive Htask Hlaunched Hstored.
  unfold cloudlet_create_overlay_finish, check_instance_state.
  rewrite Hactive, Htask, Hlaunched. cbn [bool_decide negb].
  rewrite !bool_decide_eq_true_2 by reflexivity. cbn [negb].
  destruct (ids_from_instance ctx inst) as [project user]. cbn [fst snd].
  set (quota := QuotaReserve project user (-1) (- vcpus inst) (- memory_mb inst)).
  rewrite (bind_return _ _ s (appended [quota] s) (reservations_of E inst) eq_refl).
  set (props := default ∅ extra_properties ∪ _).
  destruct (cloudlet_create_image_run E ctx inst overlay_name "snapshot" props
              (appended [quota] s)) as (meta & Hcreate & Hname & Hprops).
  rewrite (bind_return _ _ _ _ _ Hcreate). clear Hcreate.
  set (s1 := {| glance := glance (appended [quota] s) ++ [_] |}).
  rewrite (bind_return _ _ _ _ _
             (instance_save_run (set_task_state (Some IMAGE_SNAPSHOT) inst) [None] None s1
                Hstored ltac:(left))).
  eexists (_, meta), _. split; [reflexivity|].
  split; [reflexivity|]. split; [reflexivity|]. split; [exact Hname|].
  split; [|split].
  - apply Hprops. subst props. rewrite lookup_union.
    destruct (default ∅ extra_properties !! PROPERTY_KEY_CLOUDLET_TYPE) as [v|];
      reflexivity.
  - cbn. rewrite <- !app_assoc. reflexivity.
  - cbn. apply lookup_insert_eq.
Qed.

(** The overlay of "vm-1", with no properties of the caller. *)
Lemma overlay_finish_run_witness :
  let E := an_env [] [] [] a_reply in
  ∃ record s',
    cloudlet_create_overlay_finish E ctx vm "overlay-1" None initial = (Return record, s')
    ∧ glance s' = [record]
    ∧ sm_properties record.2 !! PROPERTY_KEY_CLOUDLET_TYPE = Some (JStr IMAGE_TYPE_OVERLAY).
Proof.
  intros E.
  destruct (overlay_finish_run E ctx vm "overlay-1" None initial
              eq_refl eq_refl eq_refl eq_refl)
    as (record & s' & Hrun & Hglance & _ & _ & Htype & _).
  exists record, s'. auto.
Defined.

Lemma get_server_info_images (E : env) (glance_url : Url.split_result)
    (token : option string) (s : state) :
  _get_server_info E glance_url token "images" (Some "v2") s
  = (match http_get E (Url.netloc glance_url) "/v2/images" !! "images" with
     | Some l => Return (Some l)
     | None => Raise (KeyError "images")
     end,
     appended [HttpGet (Url.netloc glance_url) "/v2/images" token] s).
Proof.
  unfold _get_server_info. cbn.
  destruct (http_get E _ _ !! "images"); reflexivity.
Qed.

Lemma get_server_info_networks (E : env) (neutron_url : Url.split_result)
    (token : option string) (s : state) :
  _get_server_info E neutron_url token "networks" (Some "v2.0") s
  = (match network_catalog E neutron_url with
     | Some l => Return (Some l)
     | None => Raise (KeyError "networks")
     end,
     appended [HttpGet (Url.netloc neutron_url) "/v2.0/networks" token] s).
Proof.
  unfold _get_server_info, network_catalog. cbn.
  destruct (http_get E _ _ !! "networks"); reflexivity.
Qed.

(** A negotiation that succeeds makes four requests and no more, in
    this order: the image catalogue of the image service
    ([/v2/images]), the network catalogue of the network service
    ([/v2.0/networks]), the flavor catalogue of the destination, and the
    create-server request, each with the destination's token.  The
    server is named as the caller asked, or after the instance with
    "-handoff" appended; the same name travels as [handoff_info]; one
    server is asked for, on the one network selected. *)
Theorem negotiation_requests_in_order (E : env)
    (end_point glance_url neutron_url : Url.split_result) (dest_token : option string)
    (inst : instance) (dest_vmname dest_network : option string)
    (s : state) (reply : json) (s' : state) :
  _prepare_handoff_dest E end_point glance_url neutron_url dest_token inst dest_vmname
    dest_network s = (Return reply, s') →
  ∃ body,
    trace s'
    = trace s ++ [HttpGet (Url.netloc glance_url) "/v2/images" dest_token;
                  HttpGet (Url.netloc neutron_url) "/v2.0/networks" dest_token;
                  HttpGet (Url.netloc end_point) (Url.path end_point +:+ "/flavors/detail")
                    dest_token;
                  HttpPost (Url.netloc end_point) (Url.path end_point +:+ "/servers")
                    dest_token body]
    ∧ reply = http_post E (Url.netloc end_point) (Url.path end_point +:+ "/servers") body
    ∧ sr_name body = (if truthy dest_vmname then default "" dest_vmname
                      else display_name inst +:+ "-handoff")
    ∧ sr_handoff_info body = sr_name body
    ∧ sr_min_count body = "1" ∧ sr_max_count body = "1"
    ∧ length (sr_networks body) = 1%nat
    ∧ glance s' = glance s ∧ db_task_state s' = db_task_state s.
Proof.
  unfold _prepare_handoff_dest. intros Hrun.
  apply bind_inv in Hrun as [(e & _ & [=])|(requested & s1 & Hm & Hrun)].
  assert (s1 = s) as -> by (destruct (system_metadata inst !! _); now inversion Hm).
  clear Hm.
  (* the base VM *)
  apply bind_inv in Hrun as [(e & _ & [=])|(basevm & s1 & Hbase & Hrun)].
  unfold select_basevm in Hbase.
  apply bind_inv in Hbase as [(e & _ & [=])|(images & s0 & Hget & Hbase)].
  rewrite get_server_info_images in Hget. injection Hget as _ <-.
  assert (s1 = appended [HttpGet (Url.netloc glance_url) "/v2/images" dest_token] s) as ->.
  { unfold iterable, Json.lift, mbind, M_bind, mret, M_ret, raise in Hbase.
    destruct images as [images|]; [|discriminate Hbase].
    destruct (find_basevm images requested) as [b|]; [|discriminate Hbase].
    destruct (Json.is_none b); [discriminate Hbase|]. now injection Hbase as _ <-. }
  clear Hbase.
  (* the network *)
  apply bind_inv in Hrun as [(e & _ & [=])|(network & s2 & Hnet & Hrun)].
  unfold select_network in Hnet.
  apply bind_inv in Hnet as [(e & _ & [=])|(networks & s0 & Hget & Hnet)].
  rewrite get_server_info_networks in Hget. injection Hget as _ <-.
  rewrite appended_appended in Hnet. cbn [app] in Hnet.
  assert (s2 = appended [HttpGet (Url.netloc glance_url) "/v2/images" dest_token;
                         HttpGet (Url.netloc neutron_url) "/v2.0/networks" dest_token] s)
    as ->.
  { unfold iterable, Json.lift, mbind, M_bind, mret, M_ret, raise in Hnet.
    destruct networks as [networks|]; [|discriminate Hnet].
    destruct (find_network networks (project_id inst) dest_network None) as [[n|]|];
      try discriminate Hnet.
    destruct (Json.is_none n); [discriminate Hnet|]. now injection Hnet as _ <-. }
  clear Hnet.
  (* the flavor *)
  apply bind_inv in Hrun as [(e & _ & [=])|([flavor_ref flavor_id] & s3 & Hflavor & Hrun)].
  rewrite select_flavor_outcome in Hflavor. injection Hflavor as _ <-.
  cbn in Hrun. injection Hrun as <- <-.
  eexists. split; [cbn; rewrite <- !app_assoc; reflexivity|].
  split; [reflexivity|]. cbn. repeat split; reflexivity.
Qed.

(** A destination that offers what "vm-1" needs. *)
Lemma negotiation_requests_in_order_witness :
  let E := an_env [a_base_image "img-9" "abc123"] [a_network "net-1" "proj-1" "private"]
             [a_flavor "f-2-4096" 2 4096] a_reply in
  ∃ body s',
    _prepare_handoff_dest E dest dest_glance dest_neutron (Some "token") vm None
      (Some "private") initial = (Return a_reply, s')
    ∧ last (trace s') = Some (HttpPost "dest:8774" "/v2.1/servers" (Some "token") body)
    ∧ sr_name body = "demo-handoff".
Proof.
  intros E.
  assert (Hrun : ∃ s', _prepare_handoff_dest E dest dest_glance dest_neutron (Some "token")
                         vm None (Some "private") initial = (Return a_reply, s'))
    by (eexists; vm_compute; reflexivity).
  destruct Hrun as (s' & Hrun).
  destruct (negotiation_requests_in_order E dest dest_glance dest_neutron (Some "token") vm
              None (Some "private") initial a_reply s' Hrun)
    as (body & Htrace & _ & Hname & _).
  exists body, s'. split; [exact Hrun|]. split; [|exact Hname].
  rewrite Htrace. reflexivity.
Defined.

End ApiFlow.

(** ** The API: what a handoff casts to the compute host *)

Section ApiCast.
Import Nova CloudletAPI ApiScenario Scenario.

(** Whenever [cloudlet_handoff] returns, the quota was given back
    first and the cast to the compute host is the last thing done.  With
    a "file" URL the cast carries the caller's URL, the id of the residue
    record and the instance with the task state [IMAGE_SNAPSHOT], which
    was saved.  With an "http" URL the create-server request to the
    destination is the last thing done before the cast, and the cast
    carries the address taken from the answer to that request
    ([server_ip] and [server_port] of its "handoff" entry), never the
    caller's URL, and the instance as it was: no task state is saved.  With any other scheme it carries the caller's URL
    and the instance as it was. *)
Theorem cloudlet_handoff_cast (E : env) (ctx : context) (inst : instance)
    (handoff_url glance_url neutron_url : string)
    (dest_token dest_vmname dest_network : option string)
    (extra_properties : option (gmap string json))
    (s : state) (v : option string) (s' : state) :
  cloudlet_handoff E ctx inst handoff_url glance_url neutron_url dest_token dest_vmname
    dest_network extra_properties s = (Return v, s') →
  let parsed := Url.urlsplit handoff_url in
  ∃ events sent url,
    trace s'
    = trace s ++ [QuotaReserve (ids_from_instance ctx inst).1 (ids_from_instance ctx inst).2
                    (-1) (- vcpus inst) (- memory_mb inst)]
              ++ events
              ++ [CastHandoff (host inst) sent (reservations_of E inst) url v]
    ∧ Forall (λ ev, ¬ is_cast_handoff ev) events
    ∧ (if String.eqb (Url.scheme parsed) "file" then
         sent = set_task_state (Some IMAGE_SNAPSHOT) inst ∧ url = UrlString handoff_url
         ∧ db_task_state s' !! uuid inst = Some (Some IMAGE_SNAPSHOT)
       else if String.eqb (Url.scheme parsed) "http" then
         sent = inst ∧ db_task_state s' = db_task_state s
         ∧ ∃ gets body addr server_ip server_port,
             let end_point := Url.urlparse handoff_url in
             let request := Url.path end_point +:+ "/servers" in
             events = gets ++ [HttpPost (Url.netloc end_point) request dest_token body]
             ∧ Forall is_get gets
             ∧ Json.get (http_post E (Url.netloc end_point) request body) "handoff"
               = Return addr
             ∧ Json.subscript addr "server_ip" = Return server_ip
             ∧ Json.subscript addr "server_port" = Return server_port
             ∧ url = TcpFormat server_ip server_port
       else sent = inst ∧ url = UrlString handoff_url
            ∧ db_task_state s' = db_task_state s).
Proof.
  intros Hrun parsed.
  apply check_instance_state_inv in Hrun as [([=] & _)|(Hactive & Htask & Hlaunched & Hrun)].
  destruct (ids_from_instance ctx inst) as [project user]. cbn [fst snd].
  set (quota := QuotaReserve project user (-1) (- vcpus inst) (- memory_mb inst)) in *.
  rewrite (bind_return _ _ s (appended [quota] s) (reservations_of E inst) eq_refl) in Hrun.
  fold parsed in Hrun.
  apply bind_inv in Hrun as [(e & _ & [=])|([[inst' url] gid] & s1 & Hbranch & Hrun)].
  cbn in Hrun. injection Hrun as <- <-.
  destruct (String.eqb (Url.scheme parsed) "file") eqn:Hfile.
  - destruct (cloudlet_create_image_run E ctx inst (Url.netloc parsed) "snapshot"
                (default ∅ extra_properties ∪
                   <[PROPERTY_KEY_CLOUDLET := JBool true]>
                     (<[PROPERTY_KEY_CLOUDLET_TYPE := JStr IMAGE_TYPE_OVERLAY]> ∅))
                (appended [quota] s)) as (meta & Hcreate & _).
    rewrite (bind_return _ _ _ _ _ Hcreate) in Hbranch. clear Hcreate.
    apply bind_inv in Hbranch as [(? & _ & [=])|([] & s2 & Hsave & Hbranch)].
    cbn in Hbranch. injection Hbranch as <- <- <- <-.
    unfold instance_save, mbind, M_bind, gets in Hsave. cbn in Hsave.
    destruct (db_task_state s !! uuid inst) as [ts|]; [|discriminate Hsave].
    destruct (bool_decide (ts ∈ [None])); [|discriminate Hsave].
    injection Hsave as <-.
    eexists [InstanceSave (set_task_state (Some IMAGE_SNAPSHOT) inst)], _, _.
    split; [cbn; rewrite <- !app_assoc; reflexivity|].
    split; [repeat constructor; now intros []|].
    split; [reflexivity|]. split; [reflexivity|]. cbn. apply lookup_insert_eq.
  - destruct (String.eqb (Url.scheme parsed) "http") eqn:Hhttp.
    + apply bind_inv in Hbranch as [(? & _ & [=])|(reply & s2 & Hprep & Hbranch)].
      apply prepare_handoff_dest_run in Hprep
        as (gets & Hgets & [(e'' & [=] & _)|(body & [= ->] & ->)]).
      unfold Json.lift, mbind, M_bind in Hbranch. revert Hbranch.
      destruct (Json.get _ "handoff") as [addr|] eqn:Haddr; [|discriminate].
      destruct (Json.is_none addr) eqn:Hnone; [discriminate|].
      destruct (Json.subscript addr "server_ip") as [ip|] eqn:Hip; [|discriminate].
      destruct (Json.subscript addr "server_port") as [port|] eqn:Hport; [|discriminate].
      cbn. intros [= <- <- <- <-].
      eexists (gets ++ [HttpPost _ _ _ body]), _, _.
      split; [cbn; rewrite <- !app_assoc; reflexivity|].
      split.
      { apply Forall_app. split.
        - eapply Forall_impl; [exact Hgets|]. now intros [] ?.
        - repeat constructor. now intros []. }
      split; [reflexivity|]. split; [reflexivity|].
      exists gets, body, addr, ip, port. cbv zeta. auto 10.
    + cbn in Hbranch. injection Hbranch as <- <- <- <-.
      eexists [], _, _. split; [cbn; rewrite <- !app_assoc; reflexivity|].
      split; [constructor|]. repeat split; reflexivity.
Qed.

(** The destination answers with the address 10.0.0.7 and the port
    8022. *)
Lemma cloudlet_handoff_cast_witness :
  let E := an_env [a_base_image "img-9" "abc123"] [a_network "net-1" "proj-1" "private"]
             [a_flavor "f-2-4096" 2 4096] a_reply in
  ∃ s',
    cloudlet_handoff E ctx vm "http://dest:8774/v2.1" "http://dest:9292" "http://dest:9696"
      (Some "token") None (Some "private") None initial = (Return None, s')
    ∧ last (trace s')
      = Some (CastHandoff "compute-1" vm ["reservation-1"]
                (TcpFormat (JStr "10.0.0.7") (JInt 8022)) None).
Proof.
  intros E.
  assert (Hrun : ∃ s',
    cloudlet_handoff E ctx vm "http://dest:8774/v2.1" "http://dest:9292" "http://dest:9696"
      (Some "token") None (Some "private") None initial = (Return None, s'))
    by (eexists; vm_compute; reflexivity).
  destruct Hrun as (s' & Hrun).
  destruct (cloudlet_handoff_cast E ctx vm "http://dest:8774/v2.1" "http://dest:9292"
              "http://dest:9696" (Some "token") None (Some "private") None initial None s'
              Hrun) as (events & sent & url & Htrace & _ & Hshape).
  change (String.eqb (Url.scheme (Url.urlsplit "http://dest:8774/v2.1")) "file")
    with false in Hshape.
  change (String.eqb (Url.scheme (Url.urlsplit "http://dest:8774/v2.1")) "http")
    with true in Hshape.
  destruct Hshape as (-> & _ & gets & body & addr & ip & port & _ & _ & Haddr & Hip & Hport
                      & ->).
  change (Json.get a_reply "handoff" = Return addr) in Haddr.
  injection Haddr as <-. injection Hip as <-. injection Hport as <-.
  exists s'. split; [exact Hrun|].
  rewrite Htrace, !app_assoc. apply last_snoc.
Defined.

End ApiCast.

(** ** Destination negotiation: the three loops *)

Section Loops.
Import Nova CloudletAPI ApiScenario CatalogVocab.

Lemma find_basevm_passes_over (image_item : json) (rest : list json) (requested : string) :
  passed_over requested image_item →
  find_basevm (image_item :: rest) requested = find_basevm rest requested.
Proof.
  intros (m & -> & Htype). cbn [find_basevm Json.get mbind Json.outcome_bind].
  destruct Htype as [->|[->|(t & -> & Hother)]];
    cbn [default from_option id Json.is_none]; try reflexivity.
  cbn [Json.len_is_zero mbind Json.outcome_bind Json.eq_str].
  destruct (decide (t = "")) as [->|Hempty]; [reflexivity|].
  rewrite (bool_decide_eq_false_2 (t = "")) by assumption.
  destruct (decide (t = IMAGE_TYPE_BASE_DISK)) as [->|Hdisk].
  - rewrite bool_decide_eq_true_2 by reflexivity. cbn [negb].
    now rewrite (Hother eq_refl).
  - now rewrite (bool_decide_eq_false_2 (t = IMAGE_TYPE_BASE_DISK)) by assumption.
Qed.

(** The image loop leaves at its first match: the images before it were
    passed over, and the images after it are not looked at, whatever
    they are.  The answer is the [id] of that image, or the [KeyError]
    of an image that has none. *)
Theorem find_basevm_first_match (before after : list json) (image_item : json)
    (requested_basevm_id : string) :
  Forall (passed_over requested_basevm_id) before →
  is_base_of requested_basevm_id image_item →
  find_basevm (before ++ image_item :: after) requested_basevm_id
  = Json.subscript image_item "id".
Proof.
  intros Hbefore (Htype & v & Hbase & Heq).
  induction Hbefore as [|x before Hx _ IH].
  - cbn [app find_basevm]. rewrite Htype.
    cbn [mbind Json.outcome_bind Json.is_none Json.len_is_zero Json.eq_str].
    rewrite bool_decide_eq_false_2 by discriminate.
    rewrite bool_decide_eq_true_2 by reflexivity. cbn [negb].
    rewrite Hbase. cbn [mbind Json.outcome_bind]. now rewrite Heq.
  - cbn [app]. now rewrite find_basevm_passes_over.
Qed.

(** Two base disks of the requested base VM in the catalogue, after an
    overlay: the first one is taken. *)
Lemma find_basevm_first_match_witness :
  find_basevm ([JObj (<["id" := JStr "img-0"]> (<["cloudlet_type" := JStr "cloudlet_overlay"]> ∅))]
                 ++ a_base_image "img-1" "abc123" :: [a_base_image "img-2" "abc123"; JNull])
    "abc123"
  = Return (JStr "img-1").
Proof.
  rewrite find_basevm_first_match; [reflexivity| |].
  - repeat constructor. eexists. split; [reflexivity|]. right. right.
    exists "cloudlet_overlay". split; [reflexivity|]. discriminate.
  - split; [reflexivity|]. exists (JStr "abc123"). split; reflexivity.
Defined.

(** The flavor loop returns at the first flavor with exactly the
    requested resources; what it returns is read from that flavor, so a
    first match without a link or an id is an error even when a later
    flavor would do. *)
Theorem find_matching_flavor_first_match (before after : list json) (flavor : json)
    (cpu_count memory_mb : Z) :
  Forall (λ other, ∃ v r, flavor_resources other = Return (v, r)
                          ∧ (v, r) ≠ (cpu_count, memory_mb)) before →
  flavor_resources flavor = Return (cpu_count, memory_mb) →
  find_matching_flavor (before ++ flavor :: after) cpu_count memory_mb
  = (flavor_ref ← flavor_link flavor;
     flavor_id ← Json.subscript flavor "id";
     Return (flavor_ref, flavor_id)).
Proof.
  intros Hbefore Hres.
  induction Hbefore as [|x before (v & r & Hx & Hne) _ IH].
  - cbn [app find_matching_flavor]. unfold flavor_resources in Hres. unfold flavor_link.
    destruct (Json.subscript flavor "vcpus") as [vf|]; [|discriminate Hres].
    cbn [mbind Json.outcome_bind] in *.
    destruct (Json.int vf) as [v|]; [|discriminate Hres].
    cbn [mbind Json.outcome_bind] in *.
    destruct (Json.subscript flavor "ram") as [rf|]; [|discriminate Hres].
    cbn [mbind Json.outcome_bind] in *.
    destruct (Json.int rf) as [r|]; [|discriminate Hres].
    cbn [mbind Json.outcome_bind] in *.
    injection Hres as -> ->. rewrite !Z.eqb_refl. cbn [andb].
    destruct (Json.subscript flavor "links") as [links|]; [|reflexivity].
    cbn [mbind Json.outcome_bind].
    destruct (Json.first links) as [link|]; [|reflexivity].
    cbn [mbind Json.outcome_bind].
    destruct (Json.subscript link "href") as [href|]; reflexivity.
  - cbn [app find_matching_flavor]. unfold flavor_resources in Hx.
    destruct (Json.subscript x "vcpus") as [vf|]; [|discriminate Hx].
    cbn [mbind Json.outcome_bind] in *.
    destruct (Json.int vf) as [v'|]; [|discriminate Hx].
    cbn [mbind Json.outcome_bind] in *.
    destruct (Json.subscript x "ram") as [rf|]; [|discriminate Hx].
    cbn [mbind Json.outcome_bind] in *.
    destruct (Json.int rf) as [r'|]; [|discriminate Hx].
    cbn [mbind Json.outcome_bind] in *.
    injection Hx as -> ->.
    destruct (Z.eqb_spec v cpu_count) as [->|]; cbn [andb]; [|exact IH].
    destruct (Z.eqb_spec r memory_mb) as [->|]; [congruence | exact IH].
Qed.

(** A larger flavor, then two flavors of the requested size. *)
Lemma find_matching_flavor_first_match_witness :
  find_matching_flavor ([a_flavor "f-4-8192" 4 8192]
                          ++ a_flavor "f-a" 2 4096 :: [a_flavor "f-b" 2 4096]) 2 4096
  = Return (JStr "http://dest:8774/flavors/f-a", JStr "f-a").
Proof.
  rewrite find_matching_flavor_first_match; [reflexivity| |reflexivity].
  repeat constructor. exists 4, 8192. split; [reflexivity | discriminate].
Defined.

(** The network loop has no such exit: what it answers is decided by the
    last network of the catalogue that the project owns.  A network of
    another project at the end changes nothing; a network of the project
    at the end gives its [id] when it has the requested name and [None]
    when it has not, whatever was found before. *)
Theorem find_network_last_decides (before : list json) (network_item owner : json)
    (project : string) (dest_network : option string) (found : option json) :
  find_network before project dest_network None = Return found →
  Json.subscript network_item "project_id" = Return owner →
  find_network (before ++ [network_item]) project dest_network None
  = if Json.eq_str owner project then
      name ← Json.subscript network_item "name";
      if Json.eq_opt_str name dest_network
      then id ← Json.subscript network_item "id"; Return (Some id)
      else Return (Some JNull)
    else Return found.
Proof.
  intros Hfound Howner. rewrite find_network_snoc, Hfound.
  cbn [find_network]. rewrite Howner. cbn [mbind Json.outcome_bind].
  destruct (Json.eq_str owner project); cbn [negb]; [|reflexivity].
  destruct (Json.subscript network_item "name") as [name|]; [|reflexivity].
  cbn [mbind Json.outcome_bind].
  destruct (Json.eq_opt_str name dest_network); [|reflexivity].
  destruct (Json.subscript network_item "id") as [id|]; reflexivity.
Qed.

(** The requested network first, another network of the project last. *)
Lemma find_network_last_decides_witness :
  find_network ([a_network "net-1" "proj-1" "private"] ++ [a_network "net-2" "proj-1" "public"])
    "proj-1" (Some "private") None
  = Return (Some JNull).
Proof.
  rewrite (find_network_last_decides [a_network "net-1" "proj-1" "private"]
             (a_network "net-2" "proj-1" "public") (JStr "proj-1") "proj-1"
             (Some "private") (Some (JStr "net-1")) eq_refl eq_refl).
  reflexivity.
Defined.

End Loops.

(** ** Port forwarding: nothing is lost *)

Section RelayDelivers.
Import PortForwarding RelayVocab.

(** A relay direction delivers every byte its source sends, in order:
    when no segment of the source is empty, the chunks it forwards make
    up, end to end, exactly what the source had to deliver; nothing is
    left unread and the other direction's data is not touched. *)
Theorem forward_delivers_everything (source dest : endpoint) (cb : state → state)
    (s : state) :
  source ≠ dest →
  Forall (λ seg, seg ≠ "") (incoming source s) →
  ∃ chunks s1,
    forward source dest cb s = cb s1
    ∧ trace s1 = trace s ++ relay source dest chunks ++ [Recv source ""]
    ∧ String.concat "" chunks = String.concat "" (incoming source s)
    ∧ incoming source s1 = []
    ∧ incoming dest s1 = incoming dest s.
Proof.
  intros Hends. funelim (forward source dest cb s); intros Hsegs.
  - pose proof (recv_conserves source CHUNK s CHUNK_positive Hsegs)
      as (_ & _ & Hclosed).
    match goal with
    | Hd : String.eqb _ _ = true |- _ =>
        pose proof (proj1 (String.eqb_eq _ _) Hd) as Hnone
    end.
    specialize (Hclosed Hnone).
    exists [], (recv source CHUNK s).2. split; [reflexivity|].
    rewrite recv_trace, Hnone. split; [reflexivity|].
    unfold recv. rewrite Hclosed. cbn [snd]. rewrite !incoming_log, Hclosed.
    repeat split; reflexivity.
  - pose proof (recv_conserves source CHUNK s CHUNK_positive Hsegs)
      as (Hsplit & Hrest & _).
    match goal with
    | IH : _ → _ → ∃ chunks s1, _ |- _ =>
        destruct (IH Hends) as (chunks & s1 & Hrun & Htrace & Hconcat & Hdone & Hother)
    end.
    { unfold sendall. now rewrite incoming_log. }
    exists ((recv source CHUNK s).1 :: chunks), s1.
    split; [exact Hrun|]. split; [|split; [|split]].
    + rewrite Htrace. unfold sendall, log, relay. cbn [trace fmap list_fmap concat].
      rewrite recv_trace. rewrite <- !app_assoc. reflexivity.
    + unfold sendall in Hconcat. rewrite incoming_log in Hconcat.
      rewrite <- Hsplit, <- Hconcat.
      destruct chunks; [now rewrite append_empty_r | reflexivity].
    + exact Hdone.
    + rewrite Hother. unfold sendall. rewrite incoming_log.
      unfold recv. destruct (incoming source s) as [|seg rest]; cbn [snd].
      * apply incoming_log.
      * rewrite incoming_log. now apply incoming_set_other.
Qed.

(** The client sends two segments, the server one. *)
Lemma forward_delivers_everything_witness :
  let s := {| from_client := ["GET / "; "HTTP/1.0"]; from_server := ["200 OK"];
              trace := [] |} in
  ∃ chunks s1,
    forward Client Server closed_callback s = closed_callback s1
    ∧ String.concat "" chunks = "GET / HTTP/1.0"
    ∧ from_client s1 = [] ∧ from_server s1 = ["200 OK"].
Proof.
  intros s.
  destruct (forward_delivers_everything Client Server closed_callback s)
    as (chunks & s1 & Hrun & _ & Hconcat & Hdone & Hother).
  - discriminate.
  - repeat constructor; discriminate.
  - exists chunks, s1. auto.
Defined.

End RelayDelivers.

(** ** The driver: destroying an instance, the image cache *)

Lemma bind_assoc {St A B C} (m : M St A) (f : A → M St B) (g : B → M St C) (s : St) :
  ((m ≫= f) ≫= g) s = (m ≫= (λ a, f a ≫= g)) s.
Proof. unfold mbind, M_bind. now destruct (m s) as [[a|e] s1]. Qed.

(** Runs the steps at the head of the computation in the goal. *)
Ltac run_steps := repeat first [run_step | rewrite bind_assoc].

(** Reads the fields of a state that was built by the setters. *)
Ltac driver_fields :=
  cbn [CloudletDriver.domains CloudletDriver.images CloudletDriver.files
         CloudletDriver.resumed_vm_dict CloudletDriver.synthesized_vm_dics
         CloudletDriver.trace DriverScenario.logged CloudletDriver.set_domains
         CloudletDriver.set_resumed CloudletDriver.set_synthesized
         CloudletDriver.set_files] in *.

Section DriverState.
Import Nova CloudletDriver DriverScenario.

(** A call is made, and fails when its collaborator does. *)
Lemma call_run (E : env) (ev : event) (s : state) :
  call E ev s
  = (match library_error E ev with Some x => Raise x | None => Return tt end, logged ev s).
Proof.
  unfold call, mbind, M_bind, log, modify, raise, mret, M_ret, logged.
  now destruct (library_error E ev).
Qed.

Lemma bind_call {A} (E : env) (ev : event) (k : unit → M state A) (s : state) :
  (call E ev ≫= k) s
  = match library_error E ev with
    | Some x => (Raise x, logged ev s)
    | None => k tt (logged ev s)
    end.
Proof.
  unfold mbind at 1, M_bind at 1. rewrite call_run.
  now destruct (library_error E ev).
Qed.

Lemma quiet_call (allowed : event → Prop) (E : env) (ev : event) :
  allowed ev → quiet allowed (call E ev).
Proof.
  intros Hev s r s'. rewrite call_run. intros [= _ <-]. now apply extends_logged.
Qed.

(** [_destroy] forgets the instance when it returns: its domain and its
    session in either dictionary are gone.  It returns when no call
    fails: the parent's [_destroy], and the [terminate] of each session
    that is registered.  A failure of the parent leaves everything as it
    was; a failing [terminate] leaves its session registered, and the
    sessions looked at after it as well.  On every path the sessions of
    other instances, the files and the images are as before. *)
Theorem destroy_forgets_instance (E : env) (inst : instance) (s : state)
    (r : outcome unit) (s' : state) :
  _destroy E inst s = (r, s') →
  let id := uuid inst in
  files s' = files s ∧ images s' = images s
  ∧ (∀ other, other ≠ id →
       resumed_vm_dict s' !! other = resumed_vm_dict s !! other
       ∧ synthesized_vm_dics s' !! other = synthesized_vm_dics s !! other)
  ∧ (r = Return tt →
     domains s' = delete id (domains s)
     ∧ resumed_vm_dict s' = delete id (resumed_vm_dict s)
     ∧ synthesized_vm_dics s' = delete id (synthesized_vm_dics s))
  ∧ (∀ e, r = Raise e →
       (library_error E (DestroyDomain id) = Some e ∧ s' = logged (DestroyDomain id) s)
       ∨ (library_error E (TerminateOverlay id) = Some e
          ∧ is_Some (resumed_vm_dict s !! id)
          ∧ domains s' = delete id (domains s)
          ∧ resumed_vm_dict s' = resumed_vm_dict s
          ∧ synthesized_vm_dics s' = synthesized_vm_dics s)
       ∨ (library_error E (TerminateSynthesized id) = Some e
          ∧ is_Some (synthesized_vm_dics s !! id)
          ∧ domains s' = delete id (domains s)
          ∧ resumed_vm_dict s' = delete id (resumed_vm_dict s)
          ∧ synthesized_vm_dics s' = synthesized_vm_dics s))
  ∧ (library_error E (DestroyDomain id) = None →
     (is_Some (resumed_vm_dict s !! id) → library_error E (TerminateOverlay id) = None) →
     (is_Some (synthesized_vm_dics s !! id) →
      library_error E (TerminateSynthesized id) = None) →
     r = Return tt).
Proof.
  intros Hrun id. subst id. revert Hrun. unfold _destroy. rewrite bind_call.
  destruct (library_error E (DestroyDomain (uuid inst))) as [x|] eqn:Hparent.
  { intros [= <- <-]. driver_fields.
    split; [reflexivity|]. split; [reflexivity|]. split; [now intros|].
    split; [discriminate|]. split; [|discriminate].
    intros e [= <-]. left. now split. }
  run_steps. driver_fields.
  destruct (resumed_vm_dict s !! uuid inst) as [vm|] eqn:Hresumed.
  - rewrite bind_assoc, bind_call.
    destruct (library_error E (TerminateOverlay (uuid inst))) as [x|] eqn:Hoverlay.
    { intros [= <- <-]. driver_fields.
      split; [reflexivity|]. split; [reflexivity|]. split; [now intros|].
      split; [discriminate|]. split.
      - intros e [= <-]. right. left. repeat split; eauto.
      - intros _ Hnone _. now discriminate (Hnone (ltac:(eauto))). }
    run_steps. driver_fields.
    destruct (synthesized_vm_dics s !! uuid inst) as [svm|] eqn:Hsynth.
    + rewrite bind_call.
      destruct (library_error E (TerminateSynthesized (uuid inst))) as [x|] eqn:Hterm.
      { intros [= <- <-]. driver_fields.
        split; [reflexivity|]. split; [reflexivity|].
        split; [intros other Hother; split; [now apply lookup_delete_ne | reflexivity]|].
        split; [discriminate|]. split.
        - intros e [= <-]. right. right. repeat split; eauto.
        - intros _ _ Hnone. now discriminate (Hnone (ltac:(eauto))). }
      run_steps. intros [= <- <-]. driver_fields.
      split; [reflexivity|]. split; [reflexivity|].
      split; [intros other Hother; split; now apply lookup_delete_ne|].
      split; [now intros _|]. split; [discriminate | reflexivity].
    + intros [= <- <-]. driver_fields.
      split; [reflexivity|]. split; [reflexivity|].
      split; [intros other Hother; split; [now apply lookup_delete_ne | reflexivity]|].
      split; [|split; [discriminate | reflexivity]].
      intros _. split; [reflexivity|]. split; [reflexivity|].
      symmetry. now apply delete_id.
  - run_steps. driver_fields.
    destruct (synthesized_vm_dics s !! uuid inst) as [svm|] eqn:Hsynth.
    + rewrite bind_call.
      destruct (library_error E (TerminateSynthesized (uuid inst))) as [x|] eqn:Hterm.
      { intros [= <- <-]. driver_fields.
        split; [reflexivity|]. split; [reflexivity|]. split; [now intros|].
        split; [discriminate|]. split.
        - intros e [= <-]. right. right.
          repeat split; eauto. symmetry. now apply delete_id.
        - intros _ _ Hnone. now discriminate (Hnone (ltac:(eauto))). }
      run_steps. intros [= <- <-]. driver_fields.
      split; [reflexivity|]. split; [reflexivity|].
      split; [intros other Hother; split; [reflexivity | now apply lookup_delete_ne]|].
      split; [|split; [discriminate | reflexivity]].
      intros _. split; [reflexivity|]. split; [|reflexivity].
      symmetry. now apply delete_id.
    + intros [= <- <-]. driver_fields.
      split; [reflexivity|]. split; [reflexivity|]. split; [now intros|].
      split; [|split; [discriminate | reflexivity]].
      intros _. split; [reflexivity|]. split; symmetry; now apply delete_id.
Qed.

(** "vm-1" is registered in both dictionaries.  With collaborators that
    do not fail [_destroy] clears both entries; when the [terminate] of
    the resumed base VM fails, both sessions stay registered. *)
Lemma destroy_forgets_instance_witness :
  let E := an_env (a_worker 0 "") (a_worker 0 openstack_line) in
  let broken :=
    failing (λ ev, match ev with
                   | TerminateOverlay _ => Some (OSError "qemu")
                   | _ => None
                   end) E in
  let both :=
    a_host (<["vm-1" := a_vm_overlay]> ∅)
      (<["vm-1" := a_synthesized_vm "/tmp/launch-disk" "/tmp/launch-mem" "<domain/>"]> ∅) in
  ((_destroy E Scenario.vm both).1 = Return tt
   ∧ resumed_vm_dict (_destroy E Scenario.vm both).2 = ∅
   ∧ synthesized_vm_dics (_destroy E Scenario.vm both).2 = ∅)
  ∧ ((_destroy broken Scenario.vm both).1 = Raise (OSError "qemu")
     ∧ resumed_vm_dict (_destroy broken Scenario.vm both).2 = resumed_vm_dict both
     ∧ synthesized_vm_dics (_destroy broken Scenario.vm both).2
       = synthesized_vm_dics both).
Proof.
  intros E broken both. split.
  - destruct (destroy_forgets_instance E Scenario.vm both _ _ (surjective_pairing _))
      as (_ & _ & _ & Hreturn & _ & Hreturns).
    assert (Hr : (_destroy E Scenario.vm both).1 = Return tt)
      by (apply Hreturns; reflexivity).
    destruct (Hreturn Hr) as (_ & -> & ->). split; [exact Hr|]. split; reflexivity.
  - assert (Hr : (_destroy broken Scenario.vm both).1 = Raise (OSError "qemu"))
      by (vm_compute; reflexivity).
    destruct (destroy_forgets_instance broken Scenario.vm both _ _ (surjective_pairing _))
      as (_ & _ & _ & _ & Hraise & _).
    destruct (Hraise _ Hr) as [(Hparent & _)|[(_ & _ & _ & -> & ->)|(Hterm & _)]];
      [discriminate Hparent | | discriminate Hterm].
    split; [exact Hr|]. split; reflexivity.
Defined.

End DriverState.

Section ImageCache.
Import Nova CloudletDriver DriverScenario CacheVocab.

Lemma present_again (p : string) (fs : gset string) : p ∈ fs → {[p]} ∪ fs = fs.
Proof. set_solver. Qed.



End ImageCache.

(** ** The driver: which files a computation leaves behind *)

Section Files.
Import Nova CloudletDriver DriverScenario CacheVocab FilesVocab.

Lemma adds_ret {A} (P : string → Prop) (a : A) : adds P (mret a).
Proof. intros s r s' [= <- <-] p Hp. now left. Qed.

Lemma adds_raise {A} (P : string → Prop) (e : exn) : adds P (raise (A:=A) e).
Proof. intros s r s' [= <- <-] p Hp. now left. Qed.

Lemma adds_gets {A} (P : string → Prop) (f : state → A) : adds P (gets f).
Proof. intros s r s' [= <- <-] p Hp. now left. Qed.

Lemma adds_modify (P : string → Prop) (f : state → state) :
  (∀ s p, p ∈ files (f s) → p ∈ files s ∨ P p) → adds P (modify f).
Proof. intros Hf s r s' [= <- <-] p Hp. now apply Hf. Qed.

Lemma adds_log (P : string → Prop) (e : event) : adds P (log e).
Proof. apply adds_modify. intros s p Hp. now left. Qed.

Lemma adds_bind {A B} (P : string → Prop) (m : M state A) (k : A → M state B) :
  adds P m → (∀ a, adds P (k a)) → adds P (m ≫= k).
Proof.
  intros Hm Hk s r s' Hrun p Hp.
  apply bind_inv in Hrun as [(e & Hrun & ->)|(a & s1 & Hrun & Hrest)].
  - exact (Hm _ _ _ Hrun p Hp).
  - destruct (Hk a _ _ _ Hrest p Hp) as [Hin|HP]; [|now right].
    exact (Hm _ _ _ Hrun p Hin).
Qed.

Lemma adds_try_except {A} (P : string → Prop) (m : M state A)
    (h : exn → option (M state A)) :
  adds P m → (∀ e k, h e = Some k → adds P k) → adds P (try_except m h).
Proof.
  intros Hm Hh s r s'. unfold try_except.
  destruct (m s) as [[a|e] s1] eqn:Hrun.
  - intros [= <- <-]. exact (Hm _ _ _ Hrun).
  - destruct (h e) as [k|] eqn:Hk.
    + intros Hrest p Hp.
      destruct (Hh _ _ Hk _ _ _ Hrest p Hp) as [Hin|HP]; [|now right].
      exact (Hm _ _ _ Hrun p Hin).
    + intros [= <- <-]. exact (Hm _ _ _ Hrun).
Qed.

Lemma adds_try_finally {A} (P : string → Prop) (m : M state A) (fin : M state unit) :
  adds P m → adds P fin → adds P (try_finally m fin).
Proof.
  intros Hm Hfin s r s'. unfold try_finally.
  destruct (m s) as [r1 s1] eqn:Hrun.
  destruct (fin s1) as [[[]|e] s2] eqn:Hrest; intros [= <- <-] p Hp;
    (destruct (Hfin _ _ _ Hrest p Hp) as [Hin|HP]; [|now right]);
    exact (Hm _ _ _ Hrun p Hin).
Qed.

Lemma adds_when (P : string → Prop) (b : bool) (m : M state unit) :
  adds P m → adds P (when b m).
Proof. destruct b; [trivial|]. intros _. apply adds_ret. Qed.

Lemma adds_mono {A} (P Q : string → Prop) (m : M state A) :
  (∀ p, P p → Q p) → adds P m → adds Q m.
Proof.
  intros HPQ Hm s r s' Hrun p Hp.
  destruct (Hm _ _ _ Hrun p Hp); [now left | right; auto].
Qed.

Lemma adds_fmap {A B} (P : string → Prop) (f : A → B) (m : M state A) :
  adds P m → adds P (f <$> m).
Proof.
  intros Hm s r s'. unfold fmap, M_fmap.
  destruct (m s) as [[a|e] s1] eqn:Hrun; intros [= <- <-]; exact (Hm _ _ _ Hrun).
Qed.

Lemma adds_create_path (P : string → Prop) (p : string) : P p → adds P (create_path p).
Proof.
  intros HP. apply adds_modify. intros s q Hq. cbn in Hq.
  apply elem_of_union in Hq as [Hq|Hq]; [|now left].
  apply elem_of_singleton in Hq as ->. now right.
Qed.

Lemma adds_set_files_subset (P : string → Prop) (f : gset string → gset string) :
  (∀ fs, f fs ⊆ fs) → adds P (modify (set_files f)).
Proof. intros Hf. apply adds_modify. intros s q Hq. left. now apply (Hf (files s)). Qed.

Lemma adds_set_domains (P : string → Prop) (f : gmap string domain → gmap string domain) :
  adds P (modify (set_domains f)).
Proof. apply adds_modify. intros s q Hq. now left. Qed.

Lemma adds_set_resumed (P : string → Prop)
    (f : gmap string VM_Overlay → gmap string VM_Overlay) :
  adds P (modify (set_resumed f)).
Proof. apply adds_modify. intros s q Hq. now left. Qed.

Lemma adds_set_synthesized (P : string → Prop)
    (f : gmap string SynthesizedVM → gmap string SynthesizedVM) :
  adds P (modify (set_synthesized f)).
Proof. apply adds_modify. intros s q Hq. now left. Qed.

End Files.

Create HintDb files.

Ltac adds_step :=
  lazymatch goal with
  | |- FilesVocab.adds _ (mret _) => apply adds_ret
  | |- FilesVocab.adds _ (raise _) => apply adds_raise
  | |- FilesVocab.adds _ (Py.gets _) => apply adds_gets
  | |- FilesVocab.adds _ (CloudletDriver.log _) => apply adds_log
  | |- FilesVocab.adds _ (modify (CloudletDriver.set_domains _)) => apply adds_set_domains
  | |- FilesVocab.adds _ (modify (CloudletDriver.set_resumed _)) => apply adds_set_resumed
  | |- FilesVocab.adds _ (modify (CloudletDriver.set_synthesized _)) =>
      apply adds_set_synthesized
  | |- FilesVocab.adds _ (mbind _ _) => apply adds_bind; [|intros ?]
  | |- FilesVocab.adds _ (fmap _ _) => apply adds_fmap
  | |- FilesVocab.adds _ (try_except _ _) =>
      apply adds_try_except;
      [|let e := fresh "e" in let k := fresh "k" in let Hk := fresh "Hk" in
        intros e k Hk; destruct e; try discriminate Hk; injection Hk as <-]
  | |- FilesVocab.adds _ (try_finally _ _) => apply adds_try_finally
  | |- FilesVocab.adds _ (when _ _) => apply adds_when
  | |- FilesVocab.adds _ (match ?x with _ => _ end) => destruct x
  | |- FilesVocab.adds _ (let _ := _ in _) => cbv zeta
  | |- _ => solve [eauto with files]
  end.

Ltac adds_tac := repeat adds_step.

Section FilesSteps.
Import Nova CloudletDriver DriverScenario CacheVocab FilesVocab.
Context (P : string → Prop).

Lemma adds_path_exists (p : string) : adds P (path_exists p).
Proof. unfold path_exists. adds_tac. Qed.

Lemma adds_os_remove (p : string) : adds P (os_remove p).
Proof.
  unfold os_remove. adds_tac; [apply adds_path_exists|].
  apply adds_set_files_subset. set_solver.
Qed.

Lemma adds_rmtree (dir : string) : adds P (rmtree dir).
Proof.
  unfold rmtree. adds_tac; [apply adds_path_exists|].
  apply adds_set_files_subset. intros fs p Hp. now apply elem_of_filter in Hp as [_ Hp].
Qed.

Lemma adds_image_show (image_id : string) : adds P (image_show image_id).
Proof. unfold image_show. adds_tac. Qed.

Lemma adds_prop (props : option (gmap string string)) (key : string) :
  adds P (prop props key).
Proof. unfold prop. adds_tac. Qed.

#[local] Hint Resolve adds_path_exists adds_os_remove adds_rmtree adds_image_show
  adds_prop : files.

Lemma adds_copy_properties (props : option (gmap string string)) (keys : list string)
    (acc : gmap string string) : adds P (copy_properties props keys acc).
Proof. revert acc; induction keys as [|key rest IH]; intros acc; simpl; adds_tac. Qed.

#[local] Hint Resolve adds_copy_properties : files.

Lemma adds_get_snapshot_metadata (inst : instance) (snapshot_id : string) :
  adds P (_get_snapshot_metadata inst snapshot_id).
Proof. unfold _get_snapshot_metadata. adds_tac. Qed.

Lemma adds_update_to_glance (filepath meta_id : string) (metadata : snapshot_metadata) :
  adds P (_update_to_glance filepath meta_id metadata).
Proof. unfold _update_to_glance. adds_tac. Qed.

Lemma adds_running_domain (inst : instance) : adds P (running_domain inst).
Proof. unfold running_domain, get_domain. adds_tac. Qed.

Lemma adds_detach_neutron_nic (inst : instance) (virt_dom : domain) :
  adds P (detach_neutron_nic inst virt_dom).
Proof. unfold detach_neutron_nic. adds_tac. Qed.

Lemma adds_py_int (x : string) : adds P (py_int x).
Proof. unfold py_int. adds_tac. Qed.

Lemma adds_str_prop (props : option (gmap string string)) (key : string) :
  adds P (str_prop props key).
Proof. unfold str_prop. adds_tac. Qed.

Lemma adds_handoff_launch_vm (E : env) (xml base_disk base_mem launch_disk
    launch_memory : string) (disk_size memory_size : Z) (disk_map memory_map : string) :
  adds P (_handoff_launch_vm E xml base_disk base_mem launch_disk launch_memory disk_size
            memory_size disk_map memory_map).
Proof. unfold _handoff_launch_vm. adds_tac. Qed.

End FilesSteps.

#[export] Hint Resolve adds_path_exists adds_os_remove adds_rmtree adds_image_show
  adds_prop adds_copy_properties adds_get_snapshot_metadata adds_update_to_glance
  adds_running_domain adds_detach_neutron_nic adds_py_int adds_str_prop
  adds_handoff_launch_vm : files.

Section Grows.
Import Nova CloudletDriver DriverScenario CacheVocab FilesVocab.

Lemma grows_same {A} (W : gset string) (m : M state A) :
  (∀ s r s', m s = (r, s') → files s' = files s) → grows W m.
Proof. intros Hm s r s' Hrun. rewrite (Hm _ _ _ Hrun). set_solver. Qed.

Lemma grows_ret {A} (W : gset string) (a : A) : grows W (mret a).
Proof. apply grows_same. now intros s r s' [= <- <-]. Qed.

Lemma grows_raise {A} (W : gset string) (e : exn) : grows W (raise (A:=A) e).
Proof. apply grows_same. now intros s r s' [= <- <-]. Qed.

Lemma grows_gets {A} (W : gset string) (f : state → A) : grows W (gets f).
Proof. apply grows_same. now intros s r s' [= <- <-]. Qed.

Lemma grows_log (W : gset string) (e : event) : grows W (log e).
Proof. apply grows_same. now intros s r s' [= <- <-]. Qed.

Lemma grows_create_path (W : gset string) (p : string) : p ∈ W → grows W (create_path p).
Proof. intros Hp s r s' [= <- <-]. cbn. set_solver. Qed.

Lemma grows_bind {A B} (W : gset string) (m : M state A) (k : A → M state B) :
  grows W m → (∀ a, grows W (k a)) → grows W (m ≫= k).
Proof.
  intros Hm Hk s r s' Hrun.
  apply bind_inv in Hrun as [(e & Hrun & ->)|(a & s1 & Hrun & Hrest)].
  - exact (Hm _ _ _ Hrun).
  - apply Hm in Hrun. apply Hk in Hrest. set_solver.
Qed.

Lemma grows_try_except {A} (W : gset string) (m : M state A)
    (h : exn → option (M state A)) :
  grows W m → (∀ e k, h e = Some k → grows W k) → grows W (try_except m h).
Proof.
  intros Hm Hh s r s'. unfold try_except.
  destruct (m s) as [[a|e] s1] eqn:Hrun; apply Hm in Hrun.
  - now intros [= <- <-].
  - destruct (h e) as [k|] eqn:Hk.
    + intros Hrest. apply (Hh _ _ Hk) in Hrest. set_solver.
    + now intros [= <- <-].
Qed.

Lemma grows_try_finally {A} (W : gset string) (m : M state A) (fin : M state unit) :
  grows W m → grows W fin → grows W (try_finally m fin).
Proof.
  intros Hm Hfin s r s'. unfold try_finally.
  destruct (m s) as [r1 s1] eqn:Hrun. apply Hm in Hrun.
  destruct (fin s1) as [[[]|e] s2] eqn:Hrest; apply Hfin in Hrest; intros [= <- <-];
    set_solver.
Qed.

Lemma grows_when (W : gset string) (b : bool) (m : M state unit) :
  grows W m → grows W (when b m).
Proof. destruct b; [trivial|]. intros _. apply grows_ret. Qed.

Lemma grows_adds {A} (W : gset string) (m : M state A) : grows W m → adds (.∈ W) m.
Proof. intros Hm s r s' Hrun p Hp. apply Hm in Hrun. set_solver. Qed.

End Grows.

Ltac grows_step :=
  lazymatch goal with
  | |- FilesVocab.grows _ (mret _) => apply grows_ret
  | |- FilesVocab.grows _ (raise _) => apply grows_raise
  | |- FilesVocab.grows _ (Py.gets _) => apply grows_gets
  | |- FilesVocab.grows _ (CloudletDriver.log _) => apply grows_log
  | |- FilesVocab.grows _ (CloudletDriver.create_path _) =>
      apply grows_create_path; set_solver
  | |- FilesVocab.grows _ (mbind _ _) => apply grows_bind; [|intros ?]
  | |- FilesVocab.grows _ (try_except _ _) =>
      apply grows_try_except;
      [|let e := fresh "e" in let k := fresh "k" in let Hk := fresh "Hk" in
        intros e k Hk; destruct e; try discriminate Hk; injection Hk as <-]
  | |- FilesVocab.grows _ (try_finally _ _) => apply grows_try_finally
  | |- FilesVocab.grows _ (when _ _) => apply grows_when
  | |- FilesVocab.grows _ (match ?x with _ => _ end) => destruct x
  | |- FilesVocab.grows _ (let _ := _ in _) => cbv zeta
  | |- _ => solve [eauto with files]
  end.

Ltac grows_tac := repeat grows_step.

Section GrowsSteps.
Import Nova CloudletDriver DriverScenario CacheVocab FilesVocab.
Context (W : gset string).

Lemma grows_path_exists (p : string) : grows W (path_exists p).
Proof. unfold path_exists. grows_tac. Qed.

Lemma grows_image_show (image_id : string) : grows W (image_show image_id).
Proof. unfold image_show. grows_tac. Qed.

#[local] Hint Resolve grows_path_exists grows_image_show : files.

Lemma grows_update_to_glance (filepath meta_id : string) (metadata : snapshot_metadata) :
  grows W (_update_to_glance filepath meta_id metadata).
Proof. unfold _update_to_glance. grows_tac. Qed.

Lemma grows_py_int (x : string) : grows W (py_int x).
Proof. unfold py_int. grows_tac. Qed.

Lemma grows_handoff_launch_vm (E : env) (xml base_disk base_mem launch_disk
    launch_memory : string) (disk_size memory_size : Z) (disk_map memory_map : string) :
  grows W (_handoff_launch_vm E xml base_disk base_mem launch_disk launch_memory disk_size
             memory_size disk_map memory_map).
Proof. unfold _handoff_launch_vm. grows_tac. Qed.

Lemma grows_handoff_recv (E : env) (base_vm_paths : list string)
    (base_hashvalue : option string) (datafile launch_disk launch_memory : string) :
  {[datafile; launch_disk; launch_memory]} ⊆ W →
  grows W (_handoff_recv E base_vm_paths base_hashvalue datafile launch_disk launch_memory).
Proof. intros HW. unfold _handoff_recv. grows_tac. Qed.

End GrowsSteps.

#[export] Hint Resolve grows_path_exists grows_image_show grows_update_to_glance
  grows_py_int grows_handoff_launch_vm grows_handoff_recv : files.

(** ** The driver: temporary directories *)

Section TempDirs.
Import Nova CloudletDriver DriverScenario CacheVocab FilesVocab.

Lemma prefix_append (a b : string) : String.prefix a (a +:+ b) = true.
Proof.
  induction a as [|c a IH].
  { change (String.prefix "" b = true). now destruct b. }
  change (String.prefix (String c a) (String c (a +:+ b)) = true).
  cbn [String.prefix]. destruct (ascii_dec c c) as [_|Hne]; [exact IH | now destruct Hne].
Qed.

Lemma under_self (dir : string) : under dir dir = true.
Proof. unfold under. now rewrite bool_decide_eq_true_2. Qed.

Lemma under_join (dir name : string) : under dir (path_join dir name) = true.
Proof.
  unfold under, path_join. rewrite <- append_assoc, prefix_append. apply orb_true_r.
Qed.

Lemma adds_get_cache_image (E : env) (inst : instance) (snapshot_id : option string) :
  adds (permanent E inst) (_get_cache_image E inst snapshot_id).
Proof.
  unfold _get_cache_image, ensure_tree. adds_tac.
  - apply adds_create_path. now left.
  - apply adds_create_path. right. right. eexists. reflexivity.
Qed.

(** The run of [mkdtemp]. *)
Lemma mkdtemp_run (E : env) (dir prefix : string) (s : state) :
  mkdtemp E dir prefix s
  = (Return (path_join dir (prefix +:+ mkdtemp_suffix E (files s))),
     set_files (λ fs, {[path_join dir (prefix +:+ mkdtemp_suffix E (files s))]} ∪ fs) s).
Proof. reflexivity. Qed.

(** The exit of [with utils.tempdir()]: it never raises, removes the
    directory and what is under it when the directory is there, and
    nothing otherwise. *)
Lemma tempdir_exit_run (tmpdir : string) (s : state) :
  ∃ s',
    try_except (rmtree tmpdir)
      (λ e, match e with OSError _ => Some (mret tt) | _ => None end) s
    = (Return tt, s')
    ∧ files s' ⊆ files s
    ∧ (tmpdir ∉ files s')
    ∧ (tmpdir ∈ files s → ∀ p, p ∈ files s' → under tmpdir p = false)
    ∧ trace s' = trace s
    ∧ resumed_vm_dict s' = resumed_vm_dict s
    ∧ synthesized_vm_dics s' = synthesized_vm_dics s.
Proof.
  unfold try_except, rmtree, path_exists. run_steps.
  destruct (decide (tmpdir ∈ files s)) as [Hin|Hout].
  - rewrite bool_decide_eq_true_2 by exact Hin.
    eexists. split; [reflexivity|]. cbn.
    split; [|split; [|split]].
    + intros p Hp. now apply elem_of_filter in Hp as [_ Hp].
    + intros Hp. apply elem_of_filter in Hp as [Hp _]. now rewrite under_self in Hp.
    + intros _ p Hp. now apply elem_of_filter in Hp as [Hp _].
    + repeat split; reflexivity.
  - rewrite bool_decide_eq_false_2 by exact Hout.
    eexists. split; [reflexivity|]. split; [reflexivity|]. split; [exact Hout|].
    split; [|repeat split; reflexivity].
    intros Hin. now destruct Hout.
Qed.

(** A body that leaves no file of its own: neither does the block. *)
Lemma adds_with_tempdir_tidy {A} (E : env) (dir : string) (body : string → M state A) :
  (∀ tmpdir, adds nothing (body tmpdir)) → adds nothing (with_tempdir E dir body).
Proof.
  intros Hbody s r s'. unfold with_tempdir.
  rewrite (bind_return _ _ _ _ _ (mkdtemp_run E dir "tmp" s)).
  set (tmpdir := path_join dir _). unfold try_finally.
  destruct (body tmpdir _) as [r1 s1] eqn:Hrun.
  destruct (tempdir_exit_run tmpdir s1) as (s2 & -> & Hsub & Hgone & _ & _).
  intros [= <- <-] p Hp. left.
  assert (Hp1 : p ∈ files s1) by set_solver.
  destruct (Hbody _ _ _ _ Hrun p Hp1) as [Hin|[]]. cbn in Hin.
  apply elem_of_union in Hin as [Hin|Hin]; [|exact Hin].
  apply elem_of_singleton in Hin as ->. now destruct Hgone.
Qed.

(** A body that removes nothing and writes under the directory only:
    the block leaves no file of its own. *)
Lemma adds_with_tempdir_under {A} (E : env) (dir : string) (body : string → M state A) :
  (∀ tmpdir, ∃ W, (∀ p, p ∈ W → under tmpdir p = true) ∧ grows W (body tmpdir)) →
  adds nothing (with_tempdir E dir body).
Proof.
  intros Hbody s r s'. unfold with_tempdir.
  rewrite (bind_return _ _ _ _ _ (mkdtemp_run E dir "tmp" s)).
  set (tmpdir := path_join dir _). unfold try_finally.
  destruct (Hbody tmpdir) as (W & Hunder & Hgrows).
  destruct (body tmpdir _) as [r1 s1] eqn:Hrun.
  apply Hgrows in Hrun as [Hkept Hnew]. cbn in Hkept, Hnew.
  destruct (tempdir_exit_run tmpdir s1) as (s2 & -> & Hsub & Hgone & Hclean & _).
  intros [= <- <-] p Hp. left.
  assert (Hout : under tmpdir p = false) by (apply Hclean; set_solver).
  assert (Hp1 : p ∈ W ∪ ({[tmpdir]} ∪ files s)) by set_solver.
  apply elem_of_union in Hp1 as [Hp1|Hp1].
  { apply Hunder in Hp1. congruence. }
  apply elem_of_union in Hp1 as [Hp1|Hp1]; [|exact Hp1].
  apply elem_of_singleton in Hp1 as ->. now rewrite under_self in Hout.
Qed.

(** The [finally] clause of the receive role: it never raises; the
    request directory, what is under it, and the two launch files are
    gone afterwards. *)
Lemma handoff_recv_cleanup_run (tmp_dir launch_diskpath launch_memorypath : string)
    (s : state) :
  tmp_dir ∈ files s →
  ∃ s',
    (tmp_dir_exists ← path_exists tmp_dir;
     when tmp_dir_exists (rmtree tmp_dir);;
     disk_exists ← path_exists launch_diskpath;
     when disk_exists (os_remove launch_diskpath);;
     memory_exists ← path_exists launch_memorypath;
     when memory_exists (os_remove launch_memorypath)) s
    = (Return tt, s')
    ∧ files s' ⊆ files s
    ∧ (∀ p, p ∈ files s' → under tmp_dir p = false)
    ∧ (launch_diskpath ∉ files s')
    ∧ (launch_memorypath ∉ files s').
Proof.
  intros Hdir. unfold path_exists, rmtree, os_remove, path_exists.
  run_steps. rewrite bool_decide_eq_true_2 by exact Hdir. cbn [when].
  run_steps. rewrite bool_decide_eq_true_2 by exact Hdir.
  run_steps. driver_fields.
  set (fs1 := filter (λ p, under tmp_dir p = false) (files s)).
  assert (Hfs1 : ∀ p, p ∈ fs1 → p ∈ files s ∧ under tmp_dir p = false).
  { intros p Hp. apply elem_of_filter in Hp. tauto. }
  destruct (decide (launch_diskpath ∈ fs1)) as [Hdisk|Hdisk].
  - rewrite (bool_decide_eq_true_2 (launch_diskpath ∈ fs1)) by exact Hdisk. cbn [when].
    run_steps. driver_fields.
    rewrite (bool_decide_eq_true_2 (launch_diskpath ∈ fs1)) by exact Hdisk.
    run_steps. driver_fields.
    destruct (decide (launch_memorypath ∈ fs1 ∖ {[launch_diskpath]})) as [Hmem|Hmem].
    + rewrite (bool_decide_eq_true_2 _ Hmem). cbn [when].
      run_steps. driver_fields. rewrite (bool_decide_eq_true_2 _ Hmem).
      eexists. split; [reflexivity|]. cbn.
      split; [set_solver|]. split; [intros p Hp; apply Hfs1; set_solver|].
      split; set_solver.
    + rewrite (bool_decide_eq_false_2 _ Hmem). cbn [when].
      eexists. split; [reflexivity|]. cbn.
      split; [set_solver|]. split; [intros p Hp; apply Hfs1; set_solver|].
      split; set_solver.
  - rewrite (bool_decide_eq_false_2 (launch_diskpath ∈ fs1)) by exact Hdisk. cbn [when].
    run_steps. driver_fields.
    destruct (decide (launch_memorypath ∈ fs1)) as [Hmem|Hmem].
    + rewrite (bool_decide_eq_true_2 _ Hmem). cbn [when].
      run_steps. driver_fields. rewrite (bool_decide_eq_true_2 _ Hmem).
      eexists. split; [reflexivity|]. cbn.
      split; [set_solver|]. split; [intros p Hp; apply Hfs1; set_solver|].
      split; set_solver.
    + rewrite (bool_decide_eq_false_2 _ Hmem). cbn [when].
      eexists. split; [reflexivity|]. cbn.
      split; [set_solver|]. split; [intros p Hp; apply Hfs1; set_solver|].
      split; set_solver.
Qed.

End TempDirs.

(** ** The receive role of a handoff leaves no temporary file *)

Section RecvCleanup.
Import Nova CloudletDriver DriverScenario CacheVocab FilesVocab.

(** Whatever way [_spawn_using_handoff] ends (the VM launched, the
    worker failed, its output was malformed, an image was missing),
    every file that exists afterwards existed before or belongs to the
    host for good: the directory of the instance, the directory of the
    snapshots, an entry of the image cache.  The request directory, the
    request file in it, the two launch files and the snapshot directory
    of the call are gone.  The send role has no such clause. *)
Theorem spawn_using_handoff_cleans (E : env) (inst : instance)
    (xml image_meta_id handoff_info : string) (s : state)
    (r : outcome SynthesizedVM) (s' : state) :
  _spawn_using_handoff E inst xml image_meta_id handoff_info s = (r, s') →
  ∀ p, p ∈ files s' → p ∈ files s ∨ permanent E inst p.
Proof.
  revert s r s'. change (adds (permanent E inst)
                           (_spawn_using_handoff E inst xml image_meta_id handoff_info)).
  unfold _spawn_using_handoff, ensure_tree.
  adds_tac; try apply adds_get_cache_image.
  { apply adds_create_path. right. now left. }
  apply (adds_mono nothing); [intros p []|].
  apply adds_with_tempdir_tidy. intros tmpdir s1 r1 s2 Hrun p Hp. left.
  rewrite (bind_return _ _ _ _ _ (mkdtemp_run E (gettempdir E) "cloudlet-residue-" s1))
    in Hrun.
  set (tmp_dir := path_join (gettempdir E) _) in Hrun.
  set (datafile := path_join tmp_dir "handoff-data") in Hrun.
  set (launch_disk := path_join tmpdir _) in Hrun.
  set (launch_memory := path_join tmpdir _) in Hrun.
  unfold try_finally in Hrun.
  match type of Hrun with
  | context [try_except ?m ?h ?st] =>
      assert (Hgrows : grows {[datafile; launch_disk; launch_memory]} (try_except m h));
      [|destruct (try_except m h st) as [r3 s3] eqn:Hinner]
  end.
  { grows_tac. }
  apply Hgrows in Hinner as [Hkept Hnew]. cbn in Hkept, Hnew.
  destruct (handoff_recv_cleanup_run tmp_dir launch_disk launch_memory s3)
    as (s4 & Hfin & Hsub & Hclean & Hdisk & Hmemory); [set_solver|].
  rewrite Hfin in Hrun. injection Hrun as _ <-.
  pose proof (Hclean p Hp) as Hout.
  assert (Hp3 : p ∈ {[datafile; launch_disk; launch_memory]} ∪ ({[tmp_dir]} ∪ files s1))
    by set_solver.
  apply elem_of_union in Hp3 as [Hp3|Hp3].
  - exfalso. apply elem_of_union in Hp3 as [Hp3|Hp3];
      [apply elem_of_union in Hp3 as [Hp3|Hp3]|];
      apply elem_of_singleton in Hp3; subst p.
    + unfold datafile in Hout. now rewrite under_join in Hout.
    + now apply Hdisk.
    + now apply Hmemory.
  - apply elem_of_union in Hp3 as [Hp3|Hp3]; [|exact Hp3].
    apply elem_of_singleton in Hp3. subst p. now rewrite under_self in Hout.
Qed.

(** A handoff received for "vm-1": the VM is launched and the request
    directory is gone. *)
Lemma spawn_using_handoff_cleans_witness :
  let E := an_env (a_worker 0 "") (a_worker 0 openstack_line) in
  let run := _spawn_using_handoff E Scenario.vm "<domain/>" "img-base" "demo-handoff"
               (a_host ∅ ∅) in
  (∃ synthesized_vm, run.1 = Return synthesized_vm)
  ∧ Popen ["/usr/local/bin/handoff-server-proc"; "-d";
           "/tmp/cloudlet-residue-Xy12ab/handoff-data"] ∈ trace run.2
  ∧ ("/tmp/cloudlet-residue-Xy12ab" ∉ files run.2)
  ∧ ("/tmp/cloudlet-residue-Xy12ab/handoff-data" ∉ files run.2).
Proof.
  intros E run.
  pose proof (spawn_using_handoff_cleans E Scenario.vm "<domain/>" "img-base"
                "demo-handoff" (a_host ∅ ∅) run.1 run.2 (surjective_pairing _)) as Hclean.
  split; [eexists; vm_compute; reflexivity|]. split.
  { apply list_elem_of_In. vm_compute. tauto. }
  split; intros Hin; apply Hclean in Hin as [Hin|[Hin|[Hin|[snapshot_id Hin]]]];
    try (now apply not_elem_of_empty in Hin); try discriminate Hin;
    vm_compute in Hin; discriminate Hin.
Defined.

End RecvCleanup.

(** ** Spawning: which session is registered *)

Section Spawn.
Import Nova CloudletDriver DriverScenario CacheVocab FilesVocab SpawnVocab.

Lemma quiet_spawn_using_synthesis (E : env) (inst : instance)
    (xml image_meta_id overlay_url : string) :
  quiet any_event (_spawn_using_synthesis E inst xml image_meta_id overlay_url).
Proof.
  unfold _spawn_using_synthesis. quiet_tac;
    try (apply quiet_get_cache_image; intros; exact I).
Qed.

Lemma quiet_spawn_using_handoff (E : env) (inst : instance)
    (xml image_meta_id handoff_info : string) :
  quiet any_event (_spawn_using_handoff E inst xml image_meta_id handoff_info).
Proof.
  unfold _spawn_using_handoff. quiet_tac;
    try (apply quiet_get_cache_image; intros; exact I).
  apply quiet_with_tempdir. intros tmpdir. quiet_tac.
  - apply quiet_handoff_recv; intros; exact I.
  - apply quiet_handoff_launch_vm; intros; exact I.
Qed.

(** How a run of [spawn] can go.  It fails before anything is
    registered; or it gets as far as the final wait, having gone the way
    the metadata of the instance and of the image decide; or, on the way
    of a resumed base VM, the NIC cannot be attached again after the
    session was registered. *)
Lemma spawn_run (E : env) (inst : instance) (image_meta_id : string)
    (s : state) (r : outcome unit) (s' : state) :
  spawn E inst image_meta_id s = (r, s') →
  (∃ e, r = Raise e ∧ resumed_vm_dict s' = resumed_vm_dict s
        ∧ synthesized_vm_dics s' = synthesized_vm_dics s)
  ∨ ∃ image xml_obj s2,
      images s !! default "" (image_ref inst) = Some image
      ∧ _polish_VM_configuration (guest_xml E inst) = Return xml_obj
      ∧ domains s2 !! uuid inst = Some (new_domain E inst)
      ∧ match handoff_info_of inst, overlay_url_of inst, memory_snapshot_of image with
        | Some info, _, _ =>
            ∃ vm s1,
              _spawn_using_handoff E inst (tostring E xml_obj) image_meta_id info
                (prepared inst s) = (Return vm, s1)
              ∧ resumed_vm_dict s2 = resumed_vm_dict s
              ∧ synthesized_vm_dics s2 = <[uuid inst := vm]> (synthesized_vm_dics s)
              ∧ call E (WaitForBoot (uuid inst)) s2 = (r, s')
        | None, Some overlay_url, _ =>
            ∃ vm s1,
              _spawn_using_synthesis E inst (tostring E xml_obj) image_meta_id overlay_url
                (prepared inst s) = (Return vm, s1)
              ∧ resumed_vm_dict s2 = resumed_vm_dict s
              ∧ synthesized_vm_dics s2 = <[uuid inst := vm]> (synthesized_vm_dics s)
              ∧ call E (WaitForBoot (uuid inst)) s2 = (r, s')
        | None, None, Some _ =>
            ∃ vm,
              vo_nova_xml vm = tostring E xml_obj
              ∧ synthesized_vm_dics s2 = synthesized_vm_dics s
              ∧ resumed_vm_dict s2 = <[uuid inst := vm]> (resumed_vm_dict s)
              ∧ ((∃ e, library_error E RettachNic = Some e ∧ r = Raise e ∧ s' = s2)
                 ∨ (library_error E RettachNic = None
                    ∧ call E (WaitForBoot (uuid inst)) s2 = (r, s')))
        | None, None, None =>
            resumed_vm_dict s2 = resumed_vm_dict s
            ∧ synthesized_vm_dics s2 = synthesized_vm_dics s
            ∧ call E (WaitForBoot (uuid inst)) s2 = (r, s')
        end.
Proof.
  unfold spawn, memory_snapshot_of, prepared.
  fold (overlay_url_of inst) (handoff_info_of inst).
  intros Hrun.
  apply bind_inv in Hrun as [(e & Hshow & ->)|(image & s0 & Hshow & Hrun)].
  { left. exists e. split; [reflexivity|].
    apply (quiet_image_show any_event) in Hshow as (Hres & Hsyn & _). now split. }
  assert (Himage : images s !! default "" (image_ref inst) = Some image ∧ s0 = s).
  { revert Hshow. unfold image_show. run_steps.
    destruct (images s !! default "" (image_ref inst)); now intros [= <- <-]. }
  destruct Himage as [Himage ->]. clear Hshow.
  destruct (_get_basevm_meta_info image)
    as [[[base_sha256 memory_snap] diskhash_snap] memhash_snap] eqn:Hmeta.
  rewrite bind_call in Hrun.
  destruct (library_error E (CreateImage (uuid inst))) as [x|].
  { injection Hrun as <- <-. left. exists x. now repeat split. }
  rewrite bind_call in Hrun.
  destruct (library_error E (GetGuestXML (uuid inst))) as [x|].
  { injection Hrun as <- <-. left. exists x. now repeat split. }
  unfold mbind at 1, M_bind at 1, Json.lift in Hrun.
  destruct (_polish_VM_configuration (guest_xml E inst)) as [xml_obj|x] eqn:Hpolish.
  2: { injection Hrun as <- <-. left. exists x. now repeat split. }
  cbv zeta in Hrun.
  set (s_xml := logged (GetGuestXML (uuid inst)) (logged (CreateImage (uuid inst)) s)) in *.
  assert (Hfail : ∀ e s1, extends any_event s_xml s1 →
            ∃ e0, Raise (A:=unit) e = Raise e0 ∧ resumed_vm_dict s1 = resumed_vm_dict s
                  ∧ synthesized_vm_dics s1 = synthesized_vm_dics s).
  { intros e s1 (Hres & Hsyn & _). exists e. now repeat split. }
  assert (Hsynthesized : ∀ vm s1 (callee : M state SynthesizedVM),
            quiet any_event callee →
            callee (logged (PlugNetwork (uuid inst)) s_xml) = (Return vm, s1) →
            ((modify (set_domains (<[uuid inst := new_domain E inst]>));;
              modify (set_synthesized (<[uuid inst := vm]>));;
              log (SynthesizedRegistered (uuid inst)));;
             call E (WaitForBoot (uuid inst))) s1 = (r, s') →
            ∃ s2, domains s2 !! uuid inst = Some (new_domain E inst)
                  ∧ resumed_vm_dict s2 = resumed_vm_dict s
                  ∧ synthesized_vm_dics s2 = <[uuid inst := vm]> (synthesized_vm_dics s)
                  ∧ call E (WaitForBoot (uuid inst)) s2 = (r, s')).
  { intros vm s1 callee Hquiet Hcallee. apply Hquiet in Hcallee as (Hres & Hsyn & _).
    run_steps. intros Hwait. eexists. split; [|split; [|split; [|exact Hwait]]].
    - driver_fields. apply lookup_insert_eq.
    - driver_fields. exact Hres.
    - driver_fields. now rewrite Hsyn. }
  assert (Hway : ∀ (callee : M state SynthesizedVM),
            quiet any_event callee →
            ((call E (PlugNetwork (uuid inst));;
              synthesized_vm ← callee;
              modify (set_domains (<[uuid inst := new_domain E inst]>));;
              modify (set_synthesized (<[uuid inst := synthesized_vm]>));;
              log (SynthesizedRegistered (uuid inst)));;
             call E (WaitForBoot (uuid inst))) s_xml = (r, s') →
            (∃ e, r = Raise e ∧ resumed_vm_dict s' = resumed_vm_dict s
                  ∧ synthesized_vm_dics s' = synthesized_vm_dics s)
            ∨ ∃ vm s1 s2,
                callee (logged (PlugNetwork (uuid inst)) s_xml) = (Return vm, s1)
                ∧ domains s2 !! uuid inst = Some (new_domain E inst)
                ∧ resumed_vm_dict s2 = resumed_vm_dict s
                ∧ synthesized_vm_dics s2 = <[uuid inst := vm]> (synthesized_vm_dics s)
                ∧ call E (WaitForBoot (uuid inst)) s2 = (r, s')).
  { intros callee Hquiet Hway. rewrite bind_assoc, bind_call in Hway.
    destruct (library_error E (PlugNetwork (uuid inst))) as [x|].
    { injection Hway as <- <-. left. exists x. now repeat split. }
    rewrite bind_assoc in Hway.
    apply bind_inv in Hway as [(e & Hcallee & ->)|(vm & s1 & Hcallee & Hway)].
    { left. apply Hquiet in Hcallee as (Hres & Hsyn & _). exists e. now repeat split. }
    right. destruct (Hsynthesized vm s1 callee Hquiet Hcallee Hway)
      as (s2 & Hdom & Hres & Hsyn & Hwait).
    exists vm, s1, s2. auto. }
  destruct (overlay_url_of inst) as [overlay_url|], (handoff_info_of inst) as [info|].
  - (* handoff has precedence *)
    apply Hway in Hrun as [Hfails|(vm & s1 & s2 & Hcallee & Hdom & Hres & Hsyn & Hwait)];
      [now left | | apply quiet_spawn_using_handoff].
    right. exists image, xml_obj, s2. do 3 (split; [first [assumption | reflexivity]|]). exists vm, s1. auto.
  - (* synthesis *)
    apply Hway in Hrun as [Hfails|(vm & s1 & s2 & Hcallee & Hdom & Hres & Hsyn & Hwait)];
      [now left | | apply quiet_spawn_using_synthesis].
    right. exists image, xml_obj, s2. do 3 (split; [first [assumption | reflexivity]|]). exists vm, s1. auto.
  - (* handoff *)
    apply Hway in Hrun as [Hfails|(vm & s1 & s2 & Hcallee & Hdom & Hres & Hsyn & Hwait)];
      [now left | | apply quiet_spawn_using_handoff].
    right. exists image, xml_obj, s2. do 3 (split; [first [assumption | reflexivity]|]). exists vm, s1. auto.
  - destruct memory_snap as [memory_snap|].
    + (* resume from the memory snapshot *)
      pose proof (extends_refl any_event s_xml) as Hext.
      rewrite bind_assoc in Hrun.
      do 4 (quiet_bind_step any_event Hrun Hext;
            [left; now apply Hfail|]; rewrite ?bind_assoc in Hrun).
      destruct Hext as (Hres & Hsyn & _).
      rewrite bind_call in Hrun.
      destruct (library_error E (PlugNetwork (uuid inst))) as [x|].
      { injection Hrun as <- <-. left. exists x. now repeat split. }
      unfold resume_basevm in Hrun. rewrite bind_assoc, bind_call in Hrun.
      destruct (library_error E (ResumeBaseVM a)) as [x|].
      { injection Hrun as <- <-. left. exists x. now repeat split. }
      revert Hrun. run_steps. rewrite bind_call.
      destruct (library_error E RettachNic) as [x|] eqn:Hnic.
      * intros Hend.
        match type of Hend with
        | (_, ?st) = _ => assert (Hdom : domains st !! uuid inst = Some (new_domain E inst))
                            by (driver_fields; apply lookup_insert_eq)
        end.
        injection Hend as <- <-. right. exists image, xml_obj. eexists.
        split; [exact Himage|]. split; [first [assumption | reflexivity]|].
        split; [exact Hdom|].
        rewrite Hmeta. cbn [fst snd]. eexists. split; [|split; [|split]].
        3: driver_fields; rewrite Hres; reflexivity.
        1: reflexivity.
        1: driver_fields; exact Hsyn.
        left. eauto.
      * intros Hwait.
        match type of Hwait with
        | call _ _ ?st = _ =>
            assert (Hdom : domains st !! uuid inst = Some (new_domain E inst))
              by (driver_fields; apply lookup_insert_eq)
        end.
        right. exists image, xml_obj. eexists.
        split; [exact Himage|]. split; [first [assumption | reflexivity]|].
        split; [exact Hdom|].
        rewrite Hmeta. cbn [fst snd]. eexists. split; [|split; [|split]].
        3: driver_fields; rewrite Hres; reflexivity.
        1: reflexivity.
        1: driver_fields; exact Hsyn.
        right. now split.
    + rewrite bind_assoc, bind_call in Hrun.
      destruct (library_error E (CreateDomainAndNetwork (uuid inst))) as [x|].
      { injection Hrun as <- <-. left. exists x. now repeat split. }
      revert Hrun. run_steps. intros Hwait.
      match type of Hwait with
      | call _ _ ?st = _ =>
          assert (Hdom : domains st !! uuid inst = Some (new_domain E inst))
            by (driver_fields; apply lookup_insert_eq)
      end.
      right. exists image, xml_obj. eexists.
      split; [exact Himage|]. split; [first [assumption | reflexivity]|].
      split; [exact Hdom|].
      rewrite Hmeta. cbn [fst snd]. now repeat split.
Qed.

(** A spawn that returns has started the domain and waited for it to
    run, and has registered the instance as the metadata of the instance
    and the image decide.  With [handoff_info] the session registered in
    [synthesized_vm_dics] is the one [_spawn_using_handoff] returned,
    also when an [overlay_url] is given: a handoff has precedence.  With
    [overlay_url] alone it is the one [_spawn_using_synthesis] returned.
    With neither, and an image that names a memory snapshot, a resumed
    base VM is registered in [resumed_vm_dict]; otherwise nothing is.
    The other dictionary is left as it was.  A spawn that fails has
    either registered nothing, or it has registered the session and then
    failed to attach the NIC again or to see the instance run: the
    session then stays registered. *)
Theorem spawn_registers (E : env) (inst : instance) (image_meta_id : string)
    (s : state) (r : outcome unit) (s' : state) :
  spawn E inst image_meta_id s = (r, s') →
  (r = Return tt →
   domains s' !! uuid inst = Some (new_domain E inst)
   ∧ last (trace s') = Some (WaitForBoot (uuid inst))
   ∧ ∃ image xml_obj,
       images s !! default "" (image_ref inst) = Some image
       ∧ _polish_VM_configuration (guest_xml E inst) = Return xml_obj
       ∧ match handoff_info_of inst, overlay_url_of inst, memory_snapshot_of image with
         | Some info, _, _ =>
             resumed_vm_dict s' = resumed_vm_dict s
             ∧ ∃ vm s1,
                 _spawn_using_handoff E inst (tostring E xml_obj) image_meta_id info
                   (prepared inst s) = (Return vm, s1)
                 ∧ synthesized_vm_dics s' = <[uuid inst := vm]> (synthesized_vm_dics s)
         | None, Some overlay_url, _ =>
             resumed_vm_dict s' = resumed_vm_dict s
             ∧ ∃ vm s1,
                 _spawn_using_synthesis E inst (tostring E xml_obj) image_meta_id
                   overlay_url (prepared inst s) = (Return vm, s1)
                 ∧ synthesized_vm_dics s' = <[uuid inst := vm]> (synthesized_vm_dics s)
         | None, None, Some _ =>
             synthesized_vm_dics s' = synthesized_vm_dics s
             ∧ ∃ vm, vo_nova_xml vm = tostring E xml_obj
                     ∧ resumed_vm_dict s' = <[uuid inst := vm]> (resumed_vm_dict s)
         | None, None, None =>
             resumed_vm_dict s' = resumed_vm_dict s
             ∧ synthesized_vm_dics s' = synthesized_vm_dics s
         end)
  ∧ (∀ e, r = Raise e →
       (resumed_vm_dict s' = resumed_vm_dict s
        ∧ synthesized_vm_dics s' = synthesized_vm_dics s)
       ∨ ((library_error E RettachNic = Some e
           ∨ library_error E (WaitForBoot (uuid inst)) = Some e)
          ∧ ((∃ vm, resumed_vm_dict s' = <[uuid inst := vm]> (resumed_vm_dict s)
                    ∧ synthesized_vm_dics s' = synthesized_vm_dics s)
             ∨ (∃ vm, synthesized_vm_dics s' = <[uuid inst := vm]> (synthesized_vm_dics s)
                      ∧ resumed_vm_dict s' = resumed_vm_dict s)))).
Proof.
  intros Hrun.
  apply spawn_run in Hrun
    as [(e & -> & Hres & Hsyn)|(image & xml_obj & s2 & Himage & Hpolish & Hdom & Hway)].
  { split; [discriminate|]. intros e0 _. left. now split. }
  assert (Hwait : ∀ st, call E (WaitForBoot (uuid inst)) st = (r, s') →
            s' = logged (WaitForBoot (uuid inst)) st
            ∧ (∀ e, r = Raise e → library_error E (WaitForBoot (uuid inst)) = Some e)).
  { intros st. rewrite call_run. intros [= <- <-]. split; [reflexivity|].
    intros e. destruct (library_error E (WaitForBoot (uuid inst))); now intros [= <-]. }
  split.
  - intros ->. 
    assert (Hend : s' = logged (WaitForBoot (uuid inst)) s2).
    { destruct (handoff_info_of inst), (overlay_url_of inst), (memory_snapshot_of image);
        repeat match goal with
               | H : ∃ _, _ |- _ => destruct H
               | H : _ ∧ _ |- _ => destruct H
               | H : _ ∨ _ |- _ => destruct H
               end;
        try discriminate;
        match goal with H : call _ _ _ = _ |- _ => now apply Hwait in H end. }
    subst s'. driver_fields.
    split; [exact Hdom|]. split; [apply last_snoc|].
    exists image, xml_obj. split; [exact Himage|]. split; [exact Hpolish|].
    destruct (handoff_info_of inst) as [info|], (overlay_url_of inst) as [overlay_url|],
      (memory_snapshot_of image) as [memory_snap|];
      repeat match goal with
             | H : ∃ _, _ |- _ => destruct H
             | H : _ ∧ _ |- _ => destruct H
             end; eauto 10.
  - intros e ->.
    destruct (handoff_info_of inst) as [info|], (overlay_url_of inst) as [overlay_url|],
      (memory_snapshot_of image) as [memory_snap|];
      repeat match goal with
             | H : ∃ _, _ |- _ => destruct H
             | H : _ ∧ _ |- _ => destruct H
             | H : _ ∨ _ |- _ => destruct H
             end;
      repeat match goal with
             | H : Raise _ = Raise _ |- _ => injection H as ->
             | H : call _ _ _ = _ |- _ =>
                 let Hs := fresh "Hs" in let He := fresh "He" in
                 apply Hwait in H as [Hs He]; specialize (He _ eq_refl); subst s';
                 driver_fields
             end;
      subst; eauto 10.
Qed.

(** "vm-1" booted from its base image.  With no metadata it is resumed
    from the memory snapshot and registered as a resumed base VM.  With
    both [handoff_info] and [overlay_url] the session registered is the
    one the handoff gave.  When the instance is never seen running the
    spawn fails, and the resumed base VM stays registered. *)
Lemma spawn_registers_witness :
  let E := an_env (a_worker 0 "") (a_worker 0 openstack_line) in
  let late :=
    failing (λ ev, match ev with
                   | WaitForBoot id => Some (InstanceNotFound id)
                   | _ => None
                   end) E in
  let handed :=
    with_metadata (<["handoff_info" := "demo-handoff"]>
                     (<["overlay_url" := "http://10.0.0.9/overlay.zip"]> ∅)) Scenario.vm in
  ((spawn E Scenario.vm "img-base" (a_host ∅ ∅)).1 = Return tt
   ∧ synthesized_vm_dics (spawn E Scenario.vm "img-base" (a_host ∅ ∅)).2 = ∅
   ∧ ∃ vm, resumed_vm_dict (spawn E Scenario.vm "img-base" (a_host ∅ ∅)).2
           = <["vm-1" := vm]> ∅)
  ∧ ((spawn E handed "img-base" (a_host ∅ ∅)).1 = Return tt
     ∧ ∃ vm s1,
         _spawn_using_handoff E handed "<domain/>" "img-base" "demo-handoff"
           (prepared handed (a_host ∅ ∅)) = (Return vm, s1)
         ∧ synthesized_vm_dics (spawn E handed "img-base" (a_host ∅ ∅)).2
           = <["vm-1" := vm]> ∅)
  ∧ ((spawn late Scenario.vm "img-base" (a_host ∅ ∅)).1 = Raise (InstanceNotFound "vm-1")
     ∧ ∃ vm, resumed_vm_dict (spawn late Scenario.vm "img-base" (a_host ∅ ∅)).2
             = <["vm-1" := vm]> ∅).
Proof.
  intros E late handed. split; [|split].
  - assert (Hreturns : (spawn E Scenario.vm "img-base" (a_host ∅ ∅)).1 = Return tt)
      by (vm_compute; reflexivity).
    destruct (spawn_registers E Scenario.vm "img-base" (a_host ∅ ∅) _ _
                (surjective_pairing _)) as [Hregistered _].
    destruct (Hregistered Hreturns) as (_ & _ & image & xml_obj & Himage & _ & Hcase).
    injection Himage as <-.
    destruct Hcase as (Hsyn & vm & _ & Hres).
    split; [exact Hreturns|]. split; [exact Hsyn|]. exists vm. exact Hres.
  - assert (Hreturns : (spawn E handed "img-base" (a_host ∅ ∅)).1 = Return tt)
      by (vm_compute; reflexivity).
    destruct (spawn_registers E handed "img-base" (a_host ∅ ∅) _ _
                (surjective_pairing _)) as [Hregistered _].
    destruct (Hregistered Hreturns) as (_ & _ & image & xml_obj & Himage & _ & Hcase).
    injection Himage as <-.
    destruct Hcase as (_ & vm & s1 & Hcallee & Hsyn).
    split; [exact Hreturns|]. exists vm, s1. split; [exact Hcallee | exact Hsyn].
  - assert (Hfails : (spawn late Scenario.vm "img-base" (a_host ∅ ∅)).1
                     = Raise (InstanceNotFound "vm-1")) by (vm_compute; reflexivity).
    destruct (spawn_registers late Scenario.vm "img-base" (a_host ∅ ∅) _ _
                (surjective_pairing _)) as [_ Hfailed].
    assert (Hsome : is_Some (resumed_vm_dict (spawn late Scenario.vm "img-base"
                                                (a_host ∅ ∅)).2 !! "vm-1"))
      by (eexists; vm_compute; reflexivity).
    destruct (Hfailed _ Hfails)
      as [(Hres & _)|(_ & [(vm & Hres & _)|(vm & Hsyn & Hres)])].
    + exfalso. rewrite Hres in Hsome. destruct Hsome as [vm Hvm].
      exact (lookup_empty_Some (M:=gmap string) _ _ Hvm).
    + split; [exact Hfails|]. exists vm. exact Hres.
    + exfalso. rewrite Hres in Hsome. destruct Hsome as [vm' Hvm].
      exact (lookup_empty_Some (M:=gmap string) _ _ Hvm).
Defined.

End Spawn.

(** ** The metadata of an upload *)

Section Metadata.
Import Nova CloudletDriver DriverScenario.

Lemma prop_run (props : option (gmap string string)) (key : string) (s : state)
    (r : outcome string) (s' : state) :
  prop props key s = (r, s') →
  s' = s ∧ ∀ v, r = Return v → ∃ m, props = Some m ∧ m !! key = Some v.
Proof.
  unfold prop. destruct props as [m|]; [|intros [= <- <-]; split; [reflexivity | discriminate]].
  destruct (m !! key) as [v|] eqn:Hv; intros [= <- <-]; (split; [reflexivity|]).
  - intros v0 [= <-]. eauto.
  - discriminate.
Qed.

Lemma copy_properties_run (props : option (gmap string string)) (keys : list string)
    (acc : gmap string string) (s : state) (r : outcome (gmap string string)) (s' : state) :
  copy_properties props keys acc s = (r, s') →
  s' = s
  ∧ ∀ copied, r = Return copied →
      (∀ key, key ∉ keys → copied !! key = acc !! key)
      ∧ (∀ key, key ∈ keys →
           ∃ m v, props = Some m ∧ m !! key = Some v ∧ copied !! key = Some v).
Proof.
  revert acc. induction keys as [|k rest IH]; intros acc; cbn [copy_properties].
  - intros [= <- <-]. split; [reflexivity|]. intros copied [= <-].
    split; [reflexivity|]. intros key Hkey. now apply elem_of_nil in Hkey.
  - intros Hrun.
    apply bind_inv in Hrun as [(e & Hprop & ->)|(v & s1 & Hprop & Hrun)];
      apply prop_run in Hprop as [-> Hv]; [split; [reflexivity | discriminate]|].
    destruct (Hv v eq_refl) as (m & -> & Hk).
    apply IH in Hrun as [-> Hcopied]. split; [reflexivity|].
    intros copied Hr. destruct (Hcopied copied Hr) as [Hother Hkeys]. split.
    + intros key Hkey. rewrite Hother by set_solver.
      apply lookup_insert_ne. set_solver.
    + intros key Hkey. destruct (decide (key ∈ rest)) as [Hrest|Hrest]; [now apply Hkeys|].
      apply elem_of_cons in Hkey as [->|Hkey]; [|contradiction].
      exists m, v. split; [reflexivity|]. split; [exact Hk|].
      rewrite Hother by exact Hrest. apply lookup_insert_eq.
Qed.

Lemma image_show_state (image_id : string) (s : state) (r : outcome image_meta)
    (s' : state) :
  image_show image_id s = (r, s') → s' = s.
Proof.
  unfold image_show. run_steps. destruct (images s !! image_id); now intros [= _ <-].
Qed.

Lemma get_snapshot_metadata_state (inst : instance) (snapshot_id : string) (s : state)
    (r : outcome snapshot_metadata) (s' : state) :
  _get_snapshot_metadata inst snapshot_id s = (r, s') → s' = s.
Proof.
  unfold _get_snapshot_metadata. intros Hrun.
  apply bind_inv in Hrun as [(? & Hshow & _)|(snapshot & s1 & Hshow & Hrun)];
    apply image_show_state in Hshow as ->; [reflexivity|].
  apply bind_inv in Hrun as [(? & Hcopy & _)|(copied & s2 & Hcopy & Hrun)];
    apply copy_properties_run in Hcopy as [-> _]; [reflexivity|].
  apply bind_inv in Hrun as [(? & Hbase & _)|(base & s3 & Hbase & Hrun)].
  - revert Hbase. unfold try_except, fmap, M_fmap, image_show. run_steps.
    destruct (images s !! default "" (image_ref inst)); now intros [= _ <-].
  - injection Hrun as _ <-.
    revert Hbase. unfold try_except, fmap, M_fmap, image_show. run_steps.
    destruct (images s !! default "" (image_ref inst)); now intros [= _ <-].
Qed.

(** [_get_snapshot_metadata] reads and changes nothing.  The metadata
    it answers are those of a public, active, raw image named as the
    record to be filled; the ten cloudlet properties are copied from
    that record, which must have every one of them; the owner is the
    instance's project; the container format is that of the image the
    instance was booted from, or "bare" when that image has none or is
    gone. *)
Theorem snapshot_metadata_copies (inst : instance) (snapshot_id : string)
    (s : state) (r : outcome snapshot_metadata) (s' : state) :
  _get_snapshot_metadata inst snapshot_id s = (r, s') →
  s' = s
  ∧ (images s !! snapshot_id = None → r = Raise (ImageNotFound snapshot_id))
  ∧ ∀ md, r = Return md →
      ∃ snapshot props,
        images s !! snapshot_id = Some snapshot
        ∧ im_properties snapshot = Some props
        ∧ md_name md = im_name snapshot
        ∧ md_is_public md = true ∧ md_status md = "active" ∧ md_disk_format md = "raw"
        ∧ md_container_format md
          = default "bare" (images s !! default "" (image_ref inst) ≫= im_container_format)
        ∧ md_properties md !! "owner_id" = Some (project_id inst)
        ∧ (∀ key, key ∈ copied_properties →
             is_Some (props !! key) ∧ md_properties md !! key = props !! key).
Proof.
  unfold _get_snapshot_metadata, image_show. run_steps.
  destruct (images s !! snapshot_id) as [snapshot|] eqn:Hsnapshot; run_steps.
  2: { intros [= <- <-]. split; [reflexivity|]. split; [reflexivity | discriminate]. }
  intros Hrun.
  apply bind_inv in Hrun as [(e & Hcopy & ->)|(copied & s1 & Hcopy & Hrun)];
    apply copy_properties_run in Hcopy as [-> Hcopied].
  { split; [reflexivity|]. split; discriminate. }
  destruct (Hcopied copied eq_refl) as [Hother Hkeys].
  assert (Hbase : ∃ base,
            try_except (Some <$> (found ← gets (λ s, images s !! default "" (image_ref inst));
                                  match found with
                                  | Some meta => mret meta
                                  | None => raise (ImageNotFound (default "" (image_ref inst)))
                                  end))
              (λ e, match e with ImageNotFound _ => Some (mret None) | _ => None end) s
            = (Return base, s)
            ∧ base = images s !! default "" (image_ref inst)).
  { unfold try_except, fmap, M_fmap. run_steps.
    destruct (images s !! default "" (image_ref inst)); eexists; split; reflexivity. }
  destruct Hbase as (base & Hbase & ->).
  rewrite (bind_return _ _ _ _ _ Hbase) in Hrun.
  injection Hrun as <- <-. split; [reflexivity|]. split; [discriminate|].
  intros md [= <-].
  destruct (Hkeys "user_id" ltac:(left)) as (props & v & Hprops & _).
  exists snapshot, props. cbn.
  split; [reflexivity|]. split; [exact Hprops|]. do 5 (split; [reflexivity|]).
  assert (Harch : ∀ key, key ≠ "architecture" →
            match default ∅ (images s !! default "" (image_ref inst) ≫= im_properties)
                    !! "architecture" with
            | Some arch => <["architecture" := arch]> copied
            | None => copied
            end !! key = copied !! key).
  { intros key Hkey. destruct (_ !! "architecture"); [|reflexivity].
    now apply lookup_insert_ne. }
  split.
  - rewrite Harch by discriminate. rewrite Hother.
    + reflexivity.
    + intros Hin. repeat (apply elem_of_cons in Hin as [Hin|Hin]; [discriminate Hin|]).
      now apply elem_of_nil in Hin.
  - intros key Hkey. destruct (Hkeys key Hkey) as (m & v' & Hm & Hv & Hc).
    rewrite Hprops in Hm. injection Hm as <-.
    rewrite Hv. split; [eauto|].
    rewrite Harch; [exact Hc|].
    intros ->. repeat (apply elem_of_cons in Hkey as [Hkey|Hkey]; [discriminate Hkey|]).
    now apply elem_of_nil in Hkey.
Qed.

(** The metadata for the overlay of "vm-1". *)
Lemma snapshot_metadata_copies_witness :
  ∃ md, (_get_snapshot_metadata Scenario.vm "img-new" (a_host ∅ ∅)).1 = Return md
        ∧ md_name md = "name-of-img-new"
        ∧ md_properties md !! "base_sha256_uuid" = Some "abc123".
Proof.
  assert (Hr : ∃ md, (_get_snapshot_metadata Scenario.vm "img-new" (a_host ∅ ∅)).1
                     = Return md) by (eexists; vm_compute; reflexivity).
  destruct Hr as (md & Hr). exists md. split; [exact Hr|].
  destruct (snapshot_metadata_copies Scenario.vm "img-new" (a_host ∅ ∅) _ _
              (surjective_pairing _)) as (_ & _ & Hmd).
  destruct (Hmd md Hr) as (snapshot & props & Hsnapshot & Hprops & Hname & _ & _ & _
                             & _ & _ & Hcopied).
  assert (Himage : images (a_host ∅ ∅) !! "img-new"
                   = Some (an_image "img-new" base_properties))
    by (vm_compute; reflexivity).
  rewrite Himage in Hsnapshot. injection Hsnapshot as <-. injection Hprops as <-.
  split; [exact Hname|].
  destruct (Hcopied "base_sha256_uuid") as [_ ->]; [do 3 right; left|].
  vm_compute. reflexivity.
Defined.

End Metadata.

(** ** The overlay and the residue: uploaded, then removed *)

(** One quiet step of a computation that returned. *)
Ltac returned_step allowed H Hext :=
  let a := fresh "a" in
  let s1 := fresh "s" in
  let H1 := fresh "Hstep" in
  apply (bind_quiet_inv allowed) in H as [(? & [=] & _)|(a & s1 & H1 & H)];
  [ apply (extends_trans _ _ _ _ Hext) in H1; clear Hext; rename H1 into Hext
  | solve [eauto with quiet | apply quiet_log; exact I
          | apply quiet_get_cache_image; intros; exact I
          | apply quiet_detach_neutron_nic; intros; exact I] ].

Section OverlayUpload.
Import Nova CloudletDriver DriverScenario.

Lemma update_to_glance_returns (filepath meta_id : string) (metadata : snapshot_metadata)
    (s s' : state) :
  _update_to_glance filepath meta_id metadata s = (Return tt, s') →
  s' = logged (GlanceUpdate meta_id filepath metadata) s
  ∧ filepath ∈ files s ∧ is_Some (images s !! meta_id).
Proof.
  unfold _update_to_glance, path_exists, image_show. run_steps.
  destruct (decide (filepath ∈ files s)) as [Hin|Hout].
  - rewrite bool_decide_eq_true_2 by exact Hin. cbn [negb]. run_steps.
    destruct (images s !! meta_id) as [meta|]; run_steps; [|discriminate].
    intros [= <-]. eauto.
  - rewrite bool_decide_eq_false_2 by exact Hout. discriminate.
Qed.

Lemma remove_if_exists_run (p : string) (s : state) :
  ∃ s', (present ← path_exists p; when present (os_remove p)) s = (Return tt, s')
        ∧ files s' = files s ∖ {[p]}
        ∧ trace s' = trace s
        ∧ resumed_vm_dict s' = resumed_vm_dict s
        ∧ synthesized_vm_dics s' = synthesized_vm_dics s.
Proof.
  unfold path_exists, os_remove, path_exists. run_steps.
  destruct (decide (p ∈ files s)) as [Hin|Hout].
  - rewrite bool_decide_eq_true_2 by exact Hin. cbn [when]. run_steps.
    rewrite bool_decide_eq_true_2 by exact Hin.
    eexists. split; [reflexivity|]. repeat split; reflexivity.
  - rewrite bool_decide_eq_false_2 by exact Hout. cbn [when].
    eexists. split; [reflexivity|]. repeat split; try reflexivity. set_solver.
Qed.

(** When [create_overlay_vm] returns, this is what happened, in this
    order: the preparation; the announcement of the upload; the session
    taken out of the dictionary; the overlay packed; the upload of the
    package to the record [overlay_id], which is the last event.  The
    package is removed from the host afterwards. *)
Theorem overlay_uploaded_then_removed (E : env) (inst : instance)
    (overlay_name overlay_id : string) (s s' : state) :
  create_overlay_vm E inst overlay_name overlay_id s = (Return tt, s') →
  ∃ vm metadata prep,
    resumed_vm_dict s !! uuid inst = Some vm
    ∧ Forall prep_event prep
    ∧ trace s'
      = trace s ++ prep
          ++ [UpdateTaskState IMAGE_PENDING_UPLOAD None;
              ResumedRemoved (uuid inst);
              CreateOverlay (overlay_zip_path E vm);
              UpdateTaskState IMAGE_UPLOADING (Some IMAGE_PENDING_UPLOAD);
              GlanceUpdate overlay_id (overlay_zip_path E vm) metadata]
    ∧ (overlay_zip_path E vm ∉ files s')
    ∧ resumed_vm_dict s' = delete (uuid inst) (resumed_vm_dict s)
    ∧ synthesized_vm_dics s' = synthesized_vm_dics s.
Proof.
  unfold create_overlay_vm. intros Hrun.
  pose proof (extends_refl prep_event s) as Hext.
  returned_step prep_event Hrun Hext.
  returned_step prep_event Hrun Hext.
  destruct (_get_basevm_meta_info a0)
    as [[[base_sha256 memory_snap] diskhash_snap] memhash_snap].
  do 7 returned_step prep_event Hrun Hext.
  revert Hrun. run_steps. driver_fields.
  lazymatch type of Hext with extends _ _ ?sc => rename sc into s_prep end.
  destruct Hext as (Hres & Hsyn & prep & Htrace & Hprep).
  rewrite Hres.
  destruct (resumed_vm_dict s !! uuid inst) as [vm|] eqn:Hvm; [|discriminate].
  unfold create_overlay. run_steps. cbn [overlay_zipfile default from_option id].
  set (zip := overlay_zip_path E vm). intros Hrun.
  apply bind_inv in Hrun as [(? & _ & [=])|([] & s_up & Hupload & Hrun)].
  apply update_to_glance_returns in Hupload as (-> & _ & _).
  destruct (remove_if_exists_run zip
              (logged (GlanceUpdate overlay_id zip a7)
                 (logged (UpdateTaskState IMAGE_UPLOADING (Some IMAGE_PENDING_UPLOAD))
                    (consumed E inst vm s_prep))))
    as (s_end & Hremove & Hfiles & Htrace_end & Hres_end & Hsyn_end).
  unfold consumed in Hremove. fold zip in Hremove.
  rewrite Hremove in Hrun. injection Hrun as <-.
  exists vm, a7, prep. split; [reflexivity|]. split; [exact Hprep|].
  split; [|split; [|split]].
  - rewrite Htrace_end. unfold consumed, logged. driver_fields. rewrite Htrace.
    rewrite <- !app_assoc. reflexivity.
  - rewrite Hfiles. set_solver.
  - rewrite Hres_end. unfold consumed, logged. driver_fields. now rewrite Hres.
  - rewrite Hsyn_end. unfold consumed, logged. driver_fields. exact Hsyn.
Qed.

(** The overlay of "vm-1", resumed from its base. *)
Lemma overlay_uploaded_then_removed_witness :
  let E := an_env (a_worker 0 "") (a_worker 0 openstack_line) in
  ∃ s' metadata,
    create_overlay_vm E Scenario.vm "overlay" "img-new" resumed_host = (Return tt, s')
    ∧ last (trace s')
      = Some (GlanceUpdate "img-new" "/tmp/cloudlet-overlay-Qw34cd/overlay.zip" metadata)
    ∧ "/tmp/cloudlet-overlay-Qw34cd/overlay.zip" ∉ files s'.
Proof.
  intros E. set (run := create_overlay_vm E Scenario.vm "overlay" "img-new" resumed_host).
  assert (Hreturns : run.1 = Return tt) by (vm_compute; reflexivity).
  assert (Hrun : run = (Return tt, run.2))
    by (rewrite <- Hreturns; apply surjective_pairing).
  destruct (overlay_uploaded_then_removed E Scenario.vm "overlay" "img-new" resumed_host
              run.2 Hrun) as (vm & metadata & prep & Hvm & _ & Htrace & Hgone & _).
  exists run.2, metadata. split; [exact Hrun|].
  split; [|exact Hgone]. rewrite Htrace.
  match goal with
  | |- last (?a ++ ?b ++ [?x1; ?x2; ?x3; ?x4; ?x5]) = _ =>
      change [x1; x2; x3; x4; x5] with ([x1; x2; x3; x4] ++ [x5])
  end.
  rewrite !app_assoc, last_snoc. reflexivity.
Defined.

End OverlayUpload.

Section ResidueUpload.
Import Nova CloudletDriver DriverScenario.

Lemma path_join_nonempty (a b : string) : nonempty (Some (path_join a b)) = true.
Proof. unfold path_join. now destruct a. Qed.

(** When the send role of a handoff returns, the session was removed
    after the worker's exit and, for a destination other than a file,
    that is the end.  For a "file" destination the residue package is
    uploaded to the record [residue_glance_id] when one was given, and is
    removed from the host in either case: without a record the residue
    is deleted and saved nowhere. *)
Theorem residue_uploaded_then_removed (E : env) (inst : instance) (handoff_url : string)
    (residue_glance_id : option string) (s s' : state) :
  perform_vmhandoff E inst handoff_url residue_glance_id s = (Return tt, s') →
  ∃ s0 code,
    extends handoff_event s s0
    ∧ synthesized_vm_dics s' = delete (uuid inst) (synthesized_vm_dics s)
    ∧ if String.eqb (Url.scheme (Url.urlsplit handoff_url)) "file" then
        let zip := path_join (residue_tmp_dir E s0) (OVERLAY_ZIP E) in
        (zip ∉ files s')
        ∧ if nonempty residue_glance_id then
            ∃ metadata,
              last (trace s')
              = Some (GlanceUpdate (default "" residue_glance_id) zip metadata)
          else
            ∃ pre, trace s' = trace s ++ pre
                                ++ [ProcExited code; SynthesizedRemoved (uuid inst)]
                   ∧ Forall handoff_event pre
      else
        ∃ pre, trace s' = trace s ++ pre
                            ++ [ProcExited code; SynthesizedRemoved (uuid inst)]
               ∧ Forall handoff_event pre.
Proof.
  unfold perform_vmhandoff. intros Hrun.
  pose proof (extends_refl handoff_event s) as Hext.
  returned_step handoff_event Hrun Hext.
  revert Hrun. run_steps.
  lazymatch type of Hext with extends _ _ ?sc => rename sc into s_dom end.
  destruct Hext as (Hres0 & Hsyn0 & Hevents0). rewrite Hsyn0.
  destruct (synthesized_vm_dics s !! uuid inst) as [vm|] eqn:Hvm; [|discriminate].
  intros Hrun.
  assert (Hext : extends handoff_event s s_dom) by (now split).
  returned_step handoff_event Hrun Hext.
  destruct (_get_basevm_meta_info a0)
    as [[[base_sha256 memory_snap] diskhash_snap] memhash_snap].
  do 6 returned_step handoff_event Hrun Hext.
  lazymatch type of Hext with extends _ _ ?sc => rename sc into s_ready end.
  apply bind_inv in Hrun as [(? & _ & [=])|(zip & s_sent & Hsend & Hrun)].
  unfold try_except in Hsend.
  match type of Hsend with
  | context [_handoff_send E ?paths ?hash vm handoff_url ?st] =>
      destruct (_handoff_send E paths hash vm handoff_url st) as [[z|e] s_send] eqn:Hrun_send
  end.
  2: { destruct e; discriminate Hsend. }
  injection Hsend as -> ->.
  apply handoff_send_trace in Hrun_send
    as ((data & Htrace_sent) & Hres_sent & Hsyn_sent & Hfiles_sent & ->).
  exists s_ready, (returncode (send_worker E (handoff_send_datafile E s_ready))).
  split; [exact Hext|].
  destruct Hext as (Hres & Hsyn & pre & Htrace & Hpre).
  revert Hrun. run_steps. driver_fields.
  destruct (String.eqb (Url.scheme (Url.urlsplit handoff_url)) "file").
  - rewrite path_join_nonempty.
    set (zip := path_join (residue_tmp_dir E s_ready) (OVERLAY_ZIP E)).
    cbn [andb default from_option id].
    destruct (nonempty residue_glance_id).
    + intros Hrun. rewrite bind_assoc in Hrun.
      apply bind_inv in Hrun as [(? & _ & [=])|(metadata & s_md & Hmd & Hrun)].
      apply get_snapshot_metadata_state in Hmd as ->.
      revert Hrun. run_steps. driver_fields. intros Hrun.
      apply bind_inv in Hrun as [(? & _ & [=])|([] & s_up & Hupload & Hrun)].
      apply update_to_glance_returns in Hupload as (-> & _ & _).
      revert Hrun. run_steps.
      match goal with
      | |- context [(path_exists zip ≫= _) ?st] =>
          destruct (remove_if_exists_run zip st)
            as (s_end & Hremove & Hfiles & Htrace_end & _ & Hsyn_end)
      end.
      rewrite Hremove. intros [= <-].
      split; [rewrite Hsyn_end; unfold handed_off, logged; driver_fields;
              now rewrite Hsyn_sent, Hsyn|].
      split; [rewrite Hfiles; set_solver|].
      exists metadata. rewrite Htrace_end. unfold logged. driver_fields.
      apply last_snoc.
    + run_steps.
      match goal with
      | |- context [(path_exists zip ≫= _) ?st] =>
          destruct (remove_if_exists_run zip st)
            as (s_end & Hremove & Hfiles & Htrace_end & _ & Hsyn_end)
      end.
      rewrite Hremove. intros [= <-].
      split; [rewrite Hsyn_end; driver_fields; now rewrite Hsyn_sent, Hsyn|].
      split; [rewrite Hfiles; set_solver|].
      exists (pre ++ [Preload a3 a4; SaveDataSend data (handoff_send_datafile E s_ready);
                      Popen ["/usr/local/bin/handoff-proc";
                             handoff_send_datafile E s_ready]]).
      rewrite Htrace_end. driver_fields. rewrite Htrace_sent, Htrace.
      split; [now rewrite <- !app_assoc|].
      apply Forall_app. split; [exact Hpre | repeat constructor].
  - cbn [nonempty andb]. run_steps. intros [= <-]. driver_fields.
    split; [now rewrite Hsyn_sent, Hsyn|].
    exists (pre ++ [Preload a3 a4; SaveDataSend data (handoff_send_datafile E s_ready);
                    Popen ["/usr/local/bin/handoff-proc";
                           handoff_send_datafile E s_ready]]).
    rewrite Htrace_sent, Htrace.
    split; [now rewrite <- !app_assoc|].
    apply Forall_app. split; [exact Hpre | repeat constructor].
Qed.

(** The residue of "vm-1" saved to a file and uploaded to the record
    "img-new". *)
Lemma residue_uploaded_then_removed_witness :
  let E := an_env (a_worker 0 "") (a_worker 0 openstack_line) in
  let run := perform_vmhandoff E Scenario.vm "file://residue-1" (Some "img-new")
               synthesized_host in
  run.1 = Return tt
  ∧ ("/tmp/cloudlet-residue-Xy12ab/overlay.zip" ∉ files run.2)
  ∧ ∃ metadata,
      last (trace run.2)
      = Some (GlanceUpdate "img-new" "/tmp/cloudlet-residue-Xy12ab/overlay.zip" metadata).
Proof.
  intros E run.
  assert (Hreturns : run.1 = Return tt) by (vm_compute; reflexivity).
  assert (Hrun : run = (Return tt, run.2))
    by (rewrite <- Hreturns; apply surjective_pairing).
  split; [exact Hreturns|].
  destruct (residue_uploaded_then_removed E Scenario.vm "file://residue-1" (Some "img-new")
              synthesized_host run.2 Hrun) as (s0 & code & _ & _ & Hfile).
  exact Hfile.
Defined.

End ResidueUpload.

(** ** Synthesis: the overlay must belong to the image *)

Section Synthesis.
Import Nova CloudletDriver DriverScenario.

(** [_spawn_using_synthesis] compares the base VM the overlay was made
    from with the [base_sha256_uuid] of the image before it does
    anything: when they differ it fails with [ImageNotFound], naming
    both, and nothing was cached, written or started.  When it returns,
    the two were equal (an overlay and an image that both name no base
    VM pass). *)
Theorem synthesis_checks_base (E : env) (inst : instance)
    (xml image_meta_id overlay_url : string) (image : image_meta)
    (props : gmap string string) (s : state) (r : outcome SynthesizedVM) (s' : state) :
  images s !! default "" (image_ref inst) = Some image →
  im_properties image = Some props →
  _spawn_using_synthesis E inst xml image_meta_id overlay_url s = (r, s') →
  (overlay_base_sha256 E overlay_url ≠ props !! CloudletAPI.PROPERTY_KEY_BASE_UUID →
   r = Raise (ImageNotFound
                ("requested base vm is not compatible with openstack base disk "
                   +:+ default "None" (overlay_base_sha256 E overlay_url) +:+ " != "
                   +:+ default "None" (props !! CloudletAPI.PROPERTY_KEY_BASE_UUID)))
   ∧ s' = s)
  ∧ (∀ synthesized_vm, r = Return synthesized_vm →
       overlay_base_sha256 E overlay_url = props !! CloudletAPI.PROPERTY_KEY_BASE_UUID
       ∧ synthesized_vm
         = new_synthesized_vm E (recovered_launch_paths E overlay_url).1
             (recovered_launch_paths E overlay_url).2 xml).
Proof.
  intros Himage Hprops. unfold _spawn_using_synthesis, image_show. run_steps.
  rewrite Himage. run_steps. rewrite Hprops.
  destruct (decide (overlay_base_sha256 E overlay_url
                    = props !! CloudletAPI.PROPERTY_KEY_BASE_UUID)) as [Hsame|Hother].
  - rewrite bool_decide_eq_true_2 by exact Hsame. cbn [negb].
    intros Hrun. split; [contradiction|].
    intros synthesized_vm ->. split; [exact Hsame|].
    do 4 (apply bind_inv in Hrun as [(? & _ & [=])|(? & ? & _ & Hrun)]).
    revert Hrun. unfold ensure_tree. run_steps.
    destruct (recovered_launch_paths E overlay_url) as [launch_disk launch_mem].
    run_steps. now intros [= <- _].
  - rewrite bool_decide_eq_false_2 by exact Hother. cbn [negb].
    intros [= <- <-]. split; [now split | discriminate].
Qed.

(** An overlay made from another base VM. *)
Lemma synthesis_checks_base_witness :
  let E := an_env (a_worker 0 "") (a_worker 0 openstack_line) in
  let other := {| sha1_hexdigest := sha1_hexdigest E; instances_path := instances_path E;
                  image_cache_subdirectory_name := image_cache_subdirectory_name E;
                  snapshots_directory := snapshots_directory E;
                  get_instance_path := get_instance_path E; gettempdir := gettempdir E;
                  mkdtemp_suffix := mkdtemp_suffix E; uuid4_hex := uuid4_hex E;
                  OVERLAY_ZIP := OVERLAY_ZIP E; libvirt_uri := libvirt_uri E;
                  overlay_zip_path := overlay_zip_path E; send_worker := send_worker E;
                  recv_worker := recv_worker E; new_synthesized_vm := new_synthesized_vm E;
                  guest_xml := guest_xml E; tostring := tostring E;
                  library_error := library_error E; new_domain := new_domain E;
                  recovered_launch_paths := recovered_launch_paths E;
                  overlay_base_sha256 := λ _, Some "fff999" |} in
  _spawn_using_synthesis other Scenario.vm "<domain/>" "img-base" "http://x/overlay.zip"
    (a_host ∅ ∅)
  = (Raise (ImageNotFound
              "requested base vm is not compatible with openstack base disk fff999 != abc123"),
     a_host ∅ ∅).
Proof.
  intros E other.
  destruct (synthesis_checks_base other Scenario.vm "<domain/>" "img-base"
              "http://x/overlay.zip" (an_image "img-base" base_properties) base_properties
              (a_host ∅ ∅) _ _ ltac:(vm_compute; reflexivity) eq_refl
              (surjective_pairing _)) as [Hrefused _].
  destruct Hrefused as [Hr Hs]; [vm_compute; discriminate|].
  rewrite (surjective_pairing (_spawn_using_synthesis _ _ _ _ _ _)) at 1.
  rewrite Hr, Hs. reflexivity.
Defined.

End Synthesis.

(** ** The receive role: reading the worker's output *)

Section StatusLine.
Import Nova CloudletDriver DriverScenario LineVocab.

Lemma split_nonempty (sep : ascii) (s : string) : split sep s ≠ [].
Proof.
  destruct s as [|c s]; cbn [split]; [discriminate|].
  destruct (Ascii.eqb c sep); [discriminate|]. now destruct (split sep s).
Qed.

Lemma split_free (sep : ascii) (s : string) : free_of sep s = true → split sep s = [s].
Proof.
  induction s as [|c s IH]; [reflexivity|]. cbn [free_of split].
  intros Hfree. apply andb_true_iff in Hfree as [Hc Hs].
  apply negb_true_iff in Hc. rewrite Hc, (IH Hs). reflexivity.
Qed.

Lemma split_field (sep : ascii) (a b : string) :
  free_of sep a = true → split sep (a +:+ String sep b) = a :: split sep b.
Proof.
  induction a as [|c a IH]; intros Hfree.
  - change (split sep (String sep b) = "" :: split sep b). cbn [split].
    now rewrite Ascii.eqb_refl.
  - change (split sep (String c (a +:+ String sep b)) = String c a :: split sep b).
    cbn [free_of] in Hfree. apply andb_true_iff in Hfree as [Hc Ha].
    apply negb_true_iff in Hc. cbn [split]. rewrite Hc, (IH Ha). reflexivity.
Qed.

Lemma last_item_cons {A} (x : A) (l : list A) : l ≠ [] → last_item (x :: l) = last_item l.
Proof. now destruct l. Qed.

(** The last element of a split is what follows the last separator. *)
Lemma split_after_separator (sep : ascii) (a b : string) :
  ∃ w ws, split sep (a +:+ String sep b) = w :: ws ∧ ws ≠ []
          ∧ last_item ws = last_item (split sep b).
Proof.
  induction a as [|c a (w & ws & Hsplit & Hws & Hlast)].
  - change (∃ w ws, split sep (String sep b) = w :: ws ∧ ws ≠ []
                    ∧ last_item ws = last_item (split sep b)).
    cbn [split]. rewrite Ascii.eqb_refl. eexists _, _. split; [reflexivity|].
    split; [apply split_nonempty | reflexivity].
  - change (∃ w' ws', split sep (String c (a +:+ String sep b)) = w' :: ws' ∧ ws' ≠ []
                      ∧ last_item ws' = last_item (split sep b)).
    cbn [split]. rewrite Hsplit. destruct (Ascii.eqb c sep).
    + eexists _, _. split; [reflexivity|]. split; [discriminate|].
      now rewrite last_item_cons.
    + eexists _, _. split; [reflexivity|]. now split.
Qed.

Lemma last_line (logs line : string) :
  free_of LF line = true →
  last_item (split LF (logs +:+ String LF line)) = Some line.
Proof.
  intros Hfree.
  destruct (split_after_separator LF logs line) as (w & ws & -> & Hws & Hlast).
  rewrite last_item_cons by exact Hws. rewrite Hlast, (split_free _ _ Hfree). reflexivity.
Qed.

Lemma status_line_fields (keyword d m dm mm : string) :
  free_of TAB keyword = true → free_of TAB d = true → free_of TAB m = true →
  free_of TAB dm = true → free_of TAB mm = true →
  split TAB (status_line keyword d m dm mm) = [keyword; d; m; dm; mm].
Proof.
  intros Hk Hd Hm Hdm Hmm. unfold status_line, tab.
  change (split TAB (keyword +:+ String TAB (d +:+ String TAB (m +:+ String TAB
                       (dm +:+ String TAB mm))))
          = [keyword; d; m; dm; mm]).
  rewrite !split_field by assumption. now rewrite split_free.
Qed.

Lemma free_of_append (c : ascii) (a b : string) :
  free_of c (a +:+ b) = free_of c a && free_of c b.
Proof.
  induction a as [|x a IH]; [reflexivity|].
  change (free_of c (String x (a +:+ b)) = free_of c (String x a) && free_of c b).
  cbn [free_of]. rewrite IH. now rewrite andb_assoc.
Qed.

(** After exit code 0 the receive role reads the last line of all the
    worker has printed.  When that line is a record of five fields with
    no tab or newline inside them, whatever was logged before it, the
    four values are handed back as they stand when the keyword
    lower-cases to "openstack", and the record is refused otherwise.
    When the worker ends its output with a newline the last line is
    empty: the call fails with a [ValueError], which is not the
    [HandoffError] its caller translates. *)
Theorem handoff_recv_reads_last_line (E : env) (base_vm_paths : list string)
    (base_hashvalue : option string) (datafile launch_disk launch_memory : string)
    (s : state) (logs keyword disk_size memory_size disk_overlay_map
    memory_overlay_map : string) :
  let proc := recv_worker E datafile in
  let fields := [keyword; disk_size; memory_size; disk_overlay_map; memory_overlay_map] in
  let result :=
    (_handoff_recv E base_vm_paths base_hashvalue datafile launch_disk launch_memory s).1 in
  returncode proc = 0 →
  Forall (λ field, free_of TAB field = true ∧ free_of LF field = true) fields →
  (worker_stdout proc
   = logs +:+ newline +:+ status_line keyword disk_size memory_size disk_overlay_map
                            memory_overlay_map →
   result = if String.eqb (lower keyword) "openstack"
            then Return (disk_size, memory_size, disk_overlay_map, memory_overlay_map)
            else Raise (HandoffError "Failed to parse returned data"))
  ∧ (worker_stdout proc
     = logs +:+ newline +:+ status_line keyword disk_size memory_size disk_overlay_map
                              memory_overlay_map +:+ newline →
     result = Raise (ValueError "wrong number of values to unpack")).
Proof.
  intros proc fields result Hcode Hfields. subst result fields.
  rewrite handoff_recv_outcome. cbv zeta. fold proc. rewrite Hcode. cbn [Z.eqb negb].
  apply Forall_cons in Hfields as [[Hk Hk'] Hfields].
  apply Forall_cons in Hfields as [[Hd Hd'] Hfields].
  apply Forall_cons in Hfields as [[Hm Hm'] Hfields].
  apply Forall_cons in Hfields as [[Hdm Hdm'] Hfields].
  apply Forall_cons in Hfields as [[Hmm Hmm'] _].
  assert (Hline : free_of LF (status_line keyword disk_size memory_size disk_overlay_map
                                memory_overlay_map) = true).
  { unfold status_line. rewrite !free_of_append, Hk', Hd', Hm', Hdm', Hmm'. reflexivity. }
  split; intros Hout; unfold final_line; rewrite Hout.
  - change (logs +:+ newline +:+ ?x) with (logs +:+ String LF x).
    rewrite (last_line _ _ Hline). cbn [default from_option id].
    rewrite status_line_fields by assumption.
    now destruct (String.eqb (lower keyword) "openstack").
  - change (logs +:+ newline +:+ ?x +:+ newline)
      with (logs +:+ String LF (x +:+ String LF "")).
    destruct (split_after_separator LF logs
                (status_line keyword disk_size memory_size disk_overlay_map
                   memory_overlay_map +:+ String LF ""))
      as (w & ws & -> & Hws & Hlast).
    rewrite last_item_cons by exact Hws. rewrite Hlast, (last_line _ "" eq_refl).
    reflexivity.
Qed.

(** A worker that logs two lines and ends with the "OPENSTACK" line. *)
Lemma handoff_recv_reads_last_line_witness :
  let E := an_env (a_worker 0 "") (a_worker 0 openstack_line) in
  let s := a_host ∅ ∅ in
  (_handoff_recv E ["a"; "b"; "c"; "d"] (Some "abc123") "/tmp/d/handoff-data"
     "/tmp/t/x-launch-disk" "/tmp/t/x-launch-memory" s).1
  = Return ("10737418240", "1073741824", "{}", "{}").
Proof.
  intros E s.
  refine (proj1 (handoff_recv_reads_last_line E ["a"; "b"; "c"; "d"] (Some "abc123")
                   "/tmp/d/handoff-data" "/tmp/t/x-launch-disk" "/tmp/t/x-launch-memory" s
                   ("connecting" +:+ newline +:+ "transferring") "OPENSTACK" "10737418240"
                   "1073741824" "{}" "{}" eq_refl _) _).
  - repeat constructor.
  - vm_compute. reflexivity.
Defined.

End StatusLine.

(** ** Creating a base VM on the compute host *)

Section CloudletBase.
Import Nova CloudletDriver DriverScenario CacheVocab FilesVocab BaseVocab.

Lemma get_snapshot_metadata_name (inst : instance) (snapshot_id : string) (s : state)
    (md : snapshot_metadata) (s' : state) :
  _get_snapshot_metadata inst snapshot_id s = (Return md, s') →
  ∃ record, images s !! snapshot_id = Some record ∧ md_name md = im_name record.
Proof.
  unfold _get_snapshot_metadata, image_show. run_steps.
  destruct (images s !! snapshot_id) as [record|]; run_steps; [|discriminate].
  intros Hrun. exists record. split; [reflexivity|].
  apply bind_inv in Hrun as [(? & _ & [=])|(copied & s1 & _ & Hrun)].
  apply bind_inv in Hrun as [(? & _ & [=])|(base & s2 & _ & Hrun)].
  now injection Hrun as <- _.
Qed.

(** Whatever way [cloudlet_base] ends, the temporary directory it
    worked in is gone with the four files of the base VM: every file
    that exists afterwards existed before, or is the directory of the
    snapshots itself. *)
Theorem cloudlet_base_leaves_no_file (E : env) (inst : instance)
    (vm_name disk_meta_id memory_meta_id diskhash_meta_id memoryhash_meta_id : string)
    (s : state) (r : outcome unit) (s' : state) :
  cloudlet_base E inst vm_name disk_meta_id memory_meta_id diskhash_meta_id
    memoryhash_meta_id s = (r, s') →
  ∀ p, p ∈ files s' → p ∈ files s ∨ p = snapshots_directory E.
Proof.
  revert s r s'.
  change (adds (λ p, p = snapshots_directory E)
            (cloudlet_base E inst vm_name disk_meta_id memory_meta_id diskhash_meta_id
               memoryhash_meta_id)).
  unfold cloudlet_base, ensure_tree. adds_tac.
  { now apply adds_create_path. }
  apply (adds_mono nothing); [intros p []|].
  apply adds_with_tempdir_under. intros tmpdir.
  exists (list_to_set (base_files E tmpdir)). split.
  - intros p Hp. apply elem_of_list_to_set in Hp. unfold base_files in Hp.
    repeat (apply elem_of_cons in Hp as [->|Hp]; [apply under_join|]).
    now apply elem_of_nil in Hp.
  - unfold base_files. cbn [list_to_set foldr]. grows_tac.
Qed.

(** The base VM of "vm-1": the four uploads are made and the directory
    they were made from is gone. *)
Lemma cloudlet_base_leaves_no_file_witness :
  let E := an_env (a_worker 0 "") (a_worker 0 openstack_line) in
  let run := cloudlet_base E Scenario.vm "base" "rec-disk" "rec-mem" "rec-diskhash"
               "rec-memhash" a_base_host in
  run.1 = Return tt
  ∧ ∀ p, p ∈ files run.2 → p = "/var/lib/nova/instances/snapshots".
Proof.
  intros E run. split; [vm_compute; reflexivity|].
  intros p Hp.
  destruct (cloudlet_base_leaves_no_file E Scenario.vm "base" "rec-disk" "rec-mem"
              "rec-diskhash" "rec-memhash" a_base_host run.1 run.2
              (surjective_pairing _) p Hp) as [Hin|Hdir]; [|exact Hdir].
  now apply not_elem_of_empty in Hin.
Defined.

Lemma trace_logged (e : event) (s : state) : trace (logged e s) = trace s ++ [e].
Proof. reflexivity. Qed.

Lemma trace_set_files (f : gset string → gset string) (s : state) :
  trace (set_files f s) = trace s.
Proof. reflexivity. Qed.

Lemma resumed_logged (e : event) (s : state) :
  resumed_vm_dict (logged e s) = resumed_vm_dict s.
Proof. reflexivity. Qed.

Lemma resumed_set_files (f : gset string → gset string) (s : state) :
  resumed_vm_dict (set_files f s) = resumed_vm_dict s.
Proof. reflexivity. Qed.

Lemma synthesized_logged (e : event) (s : state) :
  synthesized_vm_dics (logged e s) = synthesized_vm_dics s.
Proof. reflexivity. Qed.

Lemma synthesized_set_files (f : gset string → gset string) (s : state) :
  synthesized_vm_dics (set_files f s) = synthesized_vm_dics s.
Proof. reflexivity. Qed.

Lemma extract_run (out_path : string) (s : state) :
  try_finally (create_path out_path) (mret tt) s
  = (Return tt, set_files (λ fs, {[out_path]} ∪ fs) s).
Proof. reflexivity. Qed.

(** When [cloudlet_base] returns, this is what happened, in this order:
    the VM was paused, the upload announced and started, and the disk,
    the memory snapshot, the disk hash list and the memory hash list
    were uploaded from one temporary directory to the records given for
    them, each under the name its record had.  No session was
    registered or removed. *)
Theorem cloudlet_base_uploads (E : env) (inst : instance)
    (vm_name disk_meta_id memory_meta_id diskhash_meta_id memoryhash_meta_id : string)
    (s s' : state) :
  cloudlet_base E inst vm_name disk_meta_id memory_meta_id diskhash_meta_id
    memoryhash_meta_id s = (Return tt, s') →
  ∃ tmpdir disk_md mem_md diskhash_md memhash_md,
    trace s'
    = trace s ++ [Pause (uuid inst);
                  UpdateTaskState IMAGE_PENDING_UPLOAD None;
                  UpdateTaskState IMAGE_UPLOADING (Some IMAGE_PENDING_UPLOAD);
                  GlanceUpdate disk_meta_id (path_join tmpdir (uuid4_hex E)) disk_md;
                  GlanceUpdate memory_meta_id
                    (path_join tmpdir (uuid4_hex E +:+ "-mem")) mem_md;
                  GlanceUpdate diskhash_meta_id
                    (path_join tmpdir (uuid4_hex E +:+ "-disk_hash")) diskhash_md;
                  GlanceUpdate memoryhash_meta_id
                    (path_join tmpdir (uuid4_hex E +:+ "-mem_hash")) memhash_md]
    ∧ Forall2 (λ id md, ∃ record, images s !! id = Some record
                                  ∧ md_name md = im_name record)
        [disk_meta_id; memory_meta_id; diskhash_meta_id; memoryhash_meta_id]
        [disk_md; mem_md; diskhash_md; memhash_md]
    ∧ is_Some (domains s !! uuid inst)
    ∧ resumed_vm_dict s' = resumed_vm_dict s
    ∧ synthesized_vm_dics s' = synthesized_vm_dics s.
Proof.
  unfold cloudlet_base. intros Hrun.
  apply bind_inv in Hrun as [(? & _ & [=])|(virt_dom & s0 & Hdom & Hrun)].
  apply running_domain_inv in Hdom as [-> Hdom].
  assert (Hsome : is_Some (domains s !! uuid inst))
    by (destruct (domains s !! uuid inst); [eauto | discriminate]).
  clear Hdom. revert Hrun. run_steps. intros Hrun.
  apply bind_inv in Hrun as [(? & _ & [=])|(disk_md & s1 & Hdisk & Hrun)].
  pose proof (get_snapshot_metadata_name _ _ _ _ _ Hdisk) as Hdisk_name.
  apply get_snapshot_metadata_state in Hdisk as ->.
  apply bind_inv in Hrun as [(? & _ & [=])|(mem_md & s1 & Hmem & Hrun)].
  pose proof (get_snapshot_metadata_name _ _ _ _ _ Hmem) as Hmem_name.
  apply get_snapshot_metadata_state in Hmem as ->.
  apply bind_inv in Hrun as [(? & _ & [=])|(diskhash_md & s1 & Hdiskhash & Hrun)].
  pose proof (get_snapshot_metadata_name _ _ _ _ _ Hdiskhash) as Hdiskhash_name.
  apply get_snapshot_metadata_state in Hdiskhash as ->.
  apply bind_inv in Hrun as [(? & _ & [=])|(memhash_md & s1 & Hmemhash & Hrun)].
  pose proof (get_snapshot_metadata_name _ _ _ _ _ Hmemhash) as Hmemhash_name.
  apply get_snapshot_metadata_state in Hmemhash as ->.
  driver_fields.
  revert Hrun. unfold ensure_tree. run_steps. unfold with_tempdir.
  match goal with
  | |- context [(mkdtemp E ?d ?p ≫= _) ?st] =>
      rewrite (bind_return _ _ _ _ _ (mkdtemp_run E d p st))
  end.
  set (tmpdir := path_join (snapshots_directory E) _).
  unfold try_finally at 1.
  match goal with
  | |- context [let (_, _) := ?body ?st in _] => destruct (body st) as [r1 s1] eqn:Hbody
  end.
  destruct (tempdir_exit_run tmpdir s1)
    as (s2 & -> & _ & _ & _ & Htrace & Hres & Hsyn).
  intros [= -> <-].
  revert Hbody. rewrite (bind_return _ _ _ _ _ (extract_run _ _)). run_steps.
  intros Hbody.
  apply bind_inv in Hbody as [(? & _ & [=])|([] & s3 & Hup & Hbody)].
  apply update_to_glance_returns in Hup as (-> & _ & _).
  apply bind_inv in Hbody as [(? & _ & [=])|([] & s3 & Hup & Hbody)].
  apply update_to_glance_returns in Hup as (-> & _ & _).
  apply bind_inv in Hbody as [(? & _ & [=])|([] & s3 & Hup & Hbody)].
  apply update_to_glance_returns in Hup as (-> & _ & _).
  apply update_to_glance_returns in Hbody as (-> & _ & _).
  exists tmpdir, disk_md, mem_md, diskhash_md, memhash_md.
  rewrite Htrace, Hres, Hsyn.
  repeat first [rewrite trace_logged | rewrite trace_set_files
               | rewrite resumed_logged | rewrite resumed_set_files
               | rewrite synthesized_logged | rewrite synthesized_set_files].
  split; [now rewrite <- !app_assoc|].
  split; [repeat constructor; assumption|]. repeat split; [exact Hsome|..]; reflexivity.
Qed.

(** The base VM of "vm-1". *)
Lemma cloudlet_base_uploads_witness :
  let E := an_env (a_worker 0 "") (a_worker 0 openstack_line) in
  let run := cloudlet_base E Scenario.vm "base" "rec-disk" "rec-mem" "rec-diskhash"
               "rec-memhash" a_base_host in
  run.1 = Return tt
  ∧ ∃ tmpdir disk_md mem_md diskhash_md memhash_md,
      drop 3 (trace run.2)
      = [GlanceUpdate "rec-disk" (path_join tmpdir (uuid4_hex E)) disk_md;
         GlanceUpdate "rec-mem" (path_join tmpdir (uuid4_hex E +:+ "-mem")) mem_md;
         GlanceUpdate "rec-diskhash" (path_join tmpdir (uuid4_hex E +:+ "-disk_hash"))
           diskhash_md;
         GlanceUpdate "rec-memhash" (path_join tmpdir (uuid4_hex E +:+ "-mem_hash"))
           memhash_md].
Proof.
  intros E run.
  assert (Hreturns : run.1 = Return tt) by (vm_compute; reflexivity).
  assert (Hrun : run = (Return tt, run.2))
    by (rewrite <- Hreturns; apply surjective_pairing).
  split; [exact Hreturns|].
  destruct (cloudlet_base_uploads E Scenario.vm "base" "rec-disk" "rec-mem" "rec-diskhash"
              "rec-memhash" a_base_host run.2 Hrun)
    as (tmpdir & disk_md & mem_md & diskhash_md & memhash_md & Htrace & _).
  exists tmpdir, disk_md, mem_md, diskhash_md, memhash_md. rewrite Htrace. reflexivity.
Defined.

(** [cloudlet_base] pauses the VM as soon as it has found its domain and
    never resumes it: whatever way a run ends, its events are the pause
    first, then announcements of the task state and uploads only; no
    session is registered or removed.  Without a domain it fails with
    [InstanceNotRunning] and has done nothing. *)
Theorem cloudlet_base_never_resumes (E : env) (inst : instance)
    (vm_name disk_meta_id memory_meta_id diskhash_meta_id memoryhash_meta_id : string)
    (s : state) (r : outcome unit) (s' : state) :
  cloudlet_base E inst vm_name disk_meta_id memory_meta_id diskhash_meta_id
    memoryhash_meta_id s = (r, s') →
  resumed_vm_dict s' = resumed_vm_dict s
  ∧ synthesized_vm_dics s' = synthesized_vm_dics s
  ∧ (domains s !! uuid inst = None →
     r = Raise (InstanceNotRunning (uuid inst)) ∧ s' = s)
  ∧ (is_Some (domains s !! uuid inst) →
     ∃ events, trace s' = trace s ++ Pause (uuid inst) :: events
               ∧ Forall upload_event events).
Proof.
  unfold cloudlet_base. intros Hrun.
  apply bind_inv in Hrun as [(e & Hdom & ->)|(virt_dom & s0 & Hdom & Hrun)];
    apply running_domain_inv in Hdom as [-> Hdom].
  { destruct (domains s !! uuid inst) as [d|] eqn:Hd; [discriminate Hdom|].
    injection Hdom as ->. repeat split; try reflexivity. now intros [? [=]]. }
  revert Hrun. run_steps.
  match goal with
  | |- ?m ?st = _ → _ => assert (Hquiet : quiet upload_event m)
  end.
  { unfold ensure_tree. quiet_tac.
    apply quiet_with_tempdir. intros tmpdir. quiet_tac;
      apply quiet_update_to_glance; intros; exact I. }
  intros Hrun. apply Hquiet in Hrun as (Hres & Hsyn & events & Htrace & Hevents).
  driver_fields. split; [exact Hres|]. split; [exact Hsyn|].
  split; [intros Hnone; rewrite Hnone in Hdom; discriminate Hdom|].
  intros _. exists events. split; [|exact Hevents].
  rewrite Htrace. now rewrite <- app_assoc.
Qed.

(** A record of the base VM is missing: the VM stays paused. *)
Lemma cloudlet_base_never_resumes_witness :
  let E := an_env (a_worker 0 "") (a_worker 0 openstack_line) in
  let run := cloudlet_base E Scenario.vm "base" "rec-disk" "rec-mem" "rec-diskhash"
               "nowhere" a_base_host in
  run.1 = Raise (ImageNotFound "nowhere")
  ∧ ∃ events, trace run.2 = Pause "vm-1" :: events ∧ Forall upload_event events.
Proof.
  intros E run. split; [vm_compute; reflexivity|].
  destruct (cloudlet_base_never_resumes E Scenario.vm "base" "rec-disk" "rec-mem"
              "rec-diskhash" "nowhere" a_base_host run.1 run.2 (surjective_pairing _))
    as (_ & _ & _ & Hpaused).
  apply Hpaused. apply (bool_decide_unpack _). vm_compute. exact I.
Defined.

End CloudletBase.

(** ** The guest XML made portable *)

Section Polish.
Import Nova CloudletDriver PolishVocab.

Lemma element_eta (x : element) : Element (etag x) (eattrib x) (echildren x) = x.
Proof. now destruct x. Qed.

Lemma find_update_first (tag : string) (f : element → element) (l : list element) :
  (∀ c, etag (f c) = etag c) → find tag (update_first tag f l) = f <$> find tag l.
Proof.
  intros Hf. induction l as [|c l IH]; [reflexivity|]. cbn [find update_first].
  destruct (String.eqb (etag c) tag) eqn:Hc; cbn [find].
  - now rewrite Hf, Hc.
  - now rewrite Hc.
Qed.

Lemma update_first_twice (tag : string) (f : element → element) (l : list element) :
  (∀ c, etag (f c) = etag c) → (∀ c, f (f c) = f c) →
  update_first tag f (update_first tag f l) = update_first tag f l.
Proof.
  intros Htag Hf. induction l as [|c l IH]; [reflexivity|]. cbn [update_first].
  destruct (String.eqb (etag c) tag) eqn:Hc; cbn [update_first].
  - now rewrite Htag, Hc, Hf.
  - now rewrite Hc, IH.
Qed.

Lemma tags_update_first (tag : string) (f : element → element) (l : list element) :
  (∀ c, etag (f c) = etag c) → etag <$> update_first tag f l = etag <$> l.
Proof.
  intros Hf. induction l as [|c l IH]; [reflexivity|]. cbn [update_first].
  destruct (String.eqb (etag c) tag); cbn [fmap list_fmap]; [now rewrite Hf|].
  f_equal. exact IH.
Qed.

Lemma find_remove_all (tag : string) (l : list element) :
  find tag (remove_all tag l) = None.
Proof.
  induction l as [|c l IH]; [reflexivity|]. cbn [remove_all].
  destruct (String.eqb (etag c) tag) eqn:Hc; [exact IH|]. cbn [find]. now rewrite Hc.
Qed.

Lemma find_remove_all_kept (tag other : string) (l : list element) :
  find other l = None → find other (remove_all tag l) = None.
Proof.
  induction l as [|c l IH]; [reflexivity|]. cbn [remove_all find].
  destruct (String.eqb (etag c) other) eqn:Hc; [discriminate|]. intros Hl.
  destruct (String.eqb (etag c) tag); [now apply IH|]. cbn [find]. rewrite Hc. now apply IH.
Qed.

Lemma remove_all_absent (tag : string) (l : list element) :
  find tag l = None → remove_all tag l = l.
Proof.
  induction l as [|c l IH]; [reflexivity|]. cbn [remove_all find].
  destruct (String.eqb (etag c) tag); [discriminate|]. intros Hl. now rewrite IH.
Qed.

Lemma find_tag (tag : string) (l : list element) (c : element) :
  find tag l = Some c → etag c = tag.
Proof.
  induction l as [|x l IH]; [discriminate|]. cbn [find].
  destruct (String.eqb_spec (etag x) tag) as [Hx|]; [|exact IH]. now intros [= <-].
Qed.

Lemma find_remove_first_other (tag other : string) (l : list element) :
  tag ≠ other → find tag (remove_first other l) = find tag l.
Proof.
  intros Hne. induction l as [|c l IH]; [reflexivity|]. cbn [remove_first find].
  destruct (String.eqb_spec (etag c) other) as [Hc|Hc].
  - destruct (String.eqb_spec (etag c) tag); [congruence | reflexivity].
  - cbn [find]. now rewrite IH.
Qed.

Lemma update_first_same (tag : string) (f : element → element) (l : list element)
    (c : element) :
  find tag l = Some c → f c = c → update_first tag f l = l.
Proof.
  intros Hfind Hf. induction l as [|x l IH]; [reflexivity|].
  cbn [find update_first] in *.
  destruct (String.eqb (etag x) tag); [congruence|]. now rewrite IH.
Qed.

Lemma Forall2_elem_of_r {A B} (R : A → B → Prop) (l : list A) (l' : list B) (y : B) :
  Forall2 R l l' → y ∈ l' → ∃ x, x ∈ l ∧ R x y.
Proof.
  induction 1 as [|x x' l l' Hx _ IH]; intros Hy.
  - now apply elem_of_nil in Hy.
  - apply elem_of_cons in Hy as [->|Hy].
    + exists x. split; [apply elem_of_cons; now left | exact Hx].
    + destruct (IH Hy) as (z & Hz & HR). exists z. split; [|exact HR].
      apply elem_of_cons. now right.
Qed.

Lemma remove_first_none (tag : string) (l : list element) :
  find tag l = None → remove_first tag l = l.
Proof.
  induction l as [|c l IH]; [reflexivity|]. cbn [find remove_first].
  destruct (String.eqb (etag c) tag); [discriminate|]. intros Hl. now rewrite IH.
Qed.

Lemma drop_cache_tag (d : element) : etag (drop_cache d) = etag d.
Proof. unfold drop_cache. now destruct (eattrib d !! "cache"). Qed.

Lemma drop_cache_none (d : element) : eattrib (drop_cache d) !! "cache" = None.
Proof.
  unfold drop_cache. destruct (eattrib d !! "cache") eqn:Hd; [|exact Hd].
  apply lookup_delete_eq.
Qed.

Lemma drop_cache_twice (d : element) : drop_cache (drop_cache d) = drop_cache d.
Proof.
  unfold drop_cache at 1. now rewrite drop_cache_none.
Qed.

(** One disk: its driver loses the [cache] attribute when the disk is a
    hard disk, and nothing else changes. *)
Lemma polish_disk_run (disk disk' : element) :
  polish_disk disk = Return disk' →
  etag disk' = etag disk ∧ eattrib disk' = eattrib disk
  ∧ etag <$> echildren disk' = etag <$> echildren disk
  ∧ (eattrib disk !! "device" = Some "disk" →
     ∀ hdd_driver, find "driver" (echildren disk') = Some hdd_driver →
                   eattrib hdd_driver !! "cache" = None)
  ∧ (eattrib disk !! "device" ≠ Some "disk" → disk' = disk)
  ∧ polish_disk disk' = Return disk'.
Proof.
  unfold polish_disk. destruct (eattrib disk !! "device") as [disk_type|] eqn:Hdevice;
    [|discriminate].
  destruct (String.eqb_spec disk_type "disk") as [->|Hother]; intros [= <-].
  - cbn [etag eattrib echildren]. rewrite Hdevice. cbn.
    split; [reflexivity|]. split; [reflexivity|].
    split; [apply tags_update_first, drop_cache_tag|].
    split; [|split; [intros Hne; now destruct Hne|]].
    + intros _ hdd_driver. rewrite find_update_first by apply drop_cache_tag.
      destruct (find "driver" (echildren disk)) as [d|]; [|discriminate].
      intros [= <-]. apply drop_cache_none.
    + now rewrite update_first_twice by (apply drop_cache_tag || apply drop_cache_twice).
  - rewrite Hdevice. destruct (String.eqb_spec disk_type "disk"); [contradiction|].
    repeat split; try reflexivity. intros [= Hdisk]. contradiction.
Qed.

Lemma polish_disks_run (l l' : list element) :
  polish_disks l = Return l' →
  Forall2 disk_polished l l' ∧ polish_disks l' = Return l'.
Proof.
  revert l'. induction l as [|c l IH]; intros l'; cbn [polish_disks].
  - intros [= <-]. split; [constructor | reflexivity].
  - destruct (String.eqb_spec (etag c) "disk") as [Hdisk|Hother].
    + destruct (polish_disk c) as [c'|] eqn:Hc; [|discriminate].
      cbn [mbind Json.outcome_bind].
      destruct (polish_disks l) as [rest|]; [|discriminate].
      cbn [mbind Json.outcome_bind]. intros [= <-].
      destruct (IH rest eq_refl) as [Hrest Hagain].
      destruct (polish_disk_run c c' Hc) as (Htag & _ & _ & _ & _ & Hc').
      split.
      * constructor; [|exact Hrest]. split; [exact Htag|]. split; [auto | contradiction].
      * cbn [polish_disks]. rewrite Htag, Hdisk. cbn [String.eqb Ascii.eqb Bool.eqb].
        rewrite Hc'. cbn [mbind Json.outcome_bind]. now rewrite Hagain.
    + cbn [mbind Json.outcome_bind].
      destruct (polish_disks l) as [rest|]; [|discriminate].
      cbn [mbind Json.outcome_bind]. intros [= <-].
      destruct (IH rest eq_refl) as [Hrest Hagain].
      split.
      * constructor; [|exact Hrest]. split; [reflexivity|]. split; [contradiction | auto].
      * cbn [polish_disks]. destruct (String.eqb_spec (etag c) "disk"); [contradiction|].
        cbn [mbind Json.outcome_bind]. now rewrite Hagain.
Qed.

Lemma disk_polished_tags (l l' : list element) :
  Forall2 disk_polished l l' → etag <$> l' = etag <$> l.
Proof.
  induction 1 as [|c c' l l' (Htag & _) _ IH]; [reflexivity|].
  cbn [fmap list_fmap]. f_equal; assumption.
Qed.

Lemma polish_devices_run (l l' : list element) :
  polish_devices l = Return l' →
  Forall2 devices_polished l l' ∧ polish_devices l' = Return l'.
Proof.
  revert l'. induction l as [|c l IH]; intros l'; cbn [polish_devices].
  - intros [= <-]. split; [constructor | reflexivity].
  - destruct (String.eqb_spec (etag c) "devices") as [Hdevices|Hother].
    + destruct (polish_disks (echildren c)) as [disks|] eqn:Hdisks; [|discriminate].
      cbn [mbind Json.outcome_bind].
      destruct (polish_devices l) as [rest|]; [|discriminate].
      cbn [mbind Json.outcome_bind]. intros [= <-].
      destruct (IH rest eq_refl) as [Hrest Hagain].
      destruct (polish_disks_run _ _ Hdisks) as [Hpolished Hdisks'].
      split.
      * constructor; [|exact Hrest]. split; [reflexivity|]. split; [reflexivity|].
        split; [intros _; exact Hpolished | contradiction].
      * cbn [polish_devices etag eattrib echildren]. rewrite Hdevices.
        cbn [String.eqb Ascii.eqb Bool.eqb]. rewrite Hdisks'.
        cbn [mbind Json.outcome_bind]. now rewrite Hagain.
    + cbn [mbind Json.outcome_bind].
      destruct (polish_devices l) as [rest|]; [|discriminate].
      cbn [mbind Json.outcome_bind]. intros [= <-].
      destruct (IH rest eq_refl) as [Hrest Hagain].
      split.
      * constructor; [|exact Hrest]. split; [reflexivity|]. split; [reflexivity|].
        split; [contradiction | reflexivity].
      * cbn [polish_devices]. destruct (String.eqb_spec (etag c) "devices"); [contradiction|].
        cbn [mbind Json.outcome_bind]. now rewrite Hagain.
Qed.

Lemma devices_polished_tags (l l' : list element) :
  Forall2 devices_polished l l' → etag <$> l' = etag <$> l.
Proof.
  induction 1 as [|c c' l l' (Htag & _) _ IH]; [reflexivity|].
  cbn [fmap list_fmap]. f_equal; assumption.
Qed.

Lemma find_tags (tag : string) (l l' : list element) :
  etag <$> l' = etag <$> l → find tag l = None → find tag l' = None.
Proof.
  revert l'. induction l as [|c l IH]; intros [|c' l']; try discriminate; [reflexivity|].
  cbn [fmap list_fmap find]. intros [= Hc Hl]. rewrite Hc.
  destruct (String.eqb (etag c) tag); [discriminate|]. now apply IH.
Qed.

Lemma find_devices_polished (tag : string) (l l' : list element) (c : element) :
  Forall2 devices_polished l l' → find tag l = Some c →
  ∃ c', find tag l' = Some c' ∧ devices_polished c c'.
Proof.
  induction 1 as [|x x' l l' Hx _ IH]; [discriminate|]. cbn [find].
  destruct Hx as (Htag & Hx). rewrite Htag.
  destruct (String.eqb (etag x) tag); [|exact IH].
  intros [= <-]. exists x'. split; [reflexivity|]. now split.
Qed.

(** What [_polish_VM_configuration] does to a document, read off its three
    steps. *)
Lemma polish_run (xml y : element) :
  _polish_VM_configuration xml = Return y →
  ∃ device_element children,
    find "devices" (remove_first "cpu" (echildren xml)) = Some device_element
    ∧ Forall2 devices_polished
        (update_first "devices"
           (λ d, Element (etag d) (eattrib d)
                   (remove_all "serial" (remove_all "console" (echildren d))))
           (remove_first "cpu" (echildren xml)))
        children
    ∧ polish_devices children = Return children
    ∧ y = Element (etag xml) (eattrib xml) children.
Proof.
  unfold _polish_VM_configuration.
  destruct (find "devices" (remove_first "cpu" (echildren xml))) as [dev|]; [|discriminate].
  match goal with |- context [polish_devices ?l] =>
    destruct (polish_devices l) as [children|] eqn:Hrun; [|discriminate] end.
  cbn [mbind Json.outcome_bind]. intros [= <-].
  destruct (polish_devices_run _ _ Hrun) as [Hpolished Hagain].
  now exists dev, children.
Qed.

(** the first [devices] child of the result has lost its consoles and
    serial ports *)
Lemma polish_first_devices (xml y : element) :
  _polish_VM_configuration xml = Return y →
  ∃ device_element,
    find "devices" (echildren y) = Some device_element
    ∧ find "console" (echildren device_element) = None
    ∧ find "serial" (echildren device_element) = None.
Proof.
  intros Hrun. destruct (polish_run _ _ Hrun) as (dev & children & Hdev & Hpolished & _ & ->).
  cbn [etag eattrib echildren].
  set (strip := λ d, Element (etag d) (eattrib d)
                       (remove_all "serial" (remove_all "console" (echildren d)))) in *.
  assert (Hstripped : find "devices"
                        (update_first "devices" strip (remove_first "cpu" (echildren xml)))
                      = Some (strip dev))
    by (rewrite find_update_first by reflexivity; now rewrite Hdev).
  destruct (find_devices_polished _ _ _ _ Hpolished Hstripped)
    as (dev' & Hfound & _ & _ & Hdisks & _).
  exists dev'. split; [exact Hfound|].
  assert (Htags : etag <$> echildren dev' = etag <$> echildren (strip dev))
    by (apply disk_polished_tags, Hdisks; cbn [strip etag]; exact (find_tag _ _ _ Hdev)).
  split; apply (find_tags _ _ _ Htags); cbn [strip echildren].
  - apply find_remove_all_kept, find_remove_all.
  - apply find_remove_all.
Qed.

(** A document without a [devices] child stops the function with the
    AttributeError of a call on None, whatever else it holds. *)
Theorem polish_needs_devices (xml : element) :
  find "devices" (echildren xml) = None →
  _polish_VM_configuration xml
  = Raise (AttributeError "'NoneType' object has no attribute 'findall'").
Proof.
  intros Hnone. unfold _polish_VM_configuration.
  now rewrite find_remove_first_other, Hnone.
Qed.

Lemma polish_needs_devices_witness :
  let xml := Element "domain" ∅ [Element "cpu" ∅ []; Element "memory" ∅ []] in
  find "devices" (echildren xml) = None
  ∧ _polish_VM_configuration xml
    = Raise (AttributeError "'NoneType' object has no attribute 'findall'").
Proof.
  intros xml. split; [reflexivity|]. now apply (polish_needs_devices xml).
Defined.

(** The polished document keeps its tag, its attributes and its children's
    tags in order, without the first [cpu] child only; its first
    [devices] child has no console and no serial port; and under every
    [devices] child the driver found in a hard disk has no [cache]
    attribute. *)
Theorem polish_result (xml y : element) :
  _polish_VM_configuration xml = Return y →
  etag y = etag xml ∧ eattrib y = eattrib xml
  ∧ etag <$> echildren y = etag <$> remove_first "cpu" (echildren xml)
  ∧ (∃ device_element,
       find "devices" (echildren y) = Some device_element
       ∧ find "console" (echildren device_element) = None
       ∧ find "serial" (echildren device_element) = None)
  ∧ (∀ d disk_element hdd_driver,
       d ∈ echildren y → etag d = "devices" →
       disk_element ∈ echildren d → etag disk_element = "disk" →
       eattrib disk_element !! "device" = Some "disk" →
       find "driver" (echildren disk_element) = Some hdd_driver →
       eattrib hdd_driver !! "cache" = None).
Proof.
  intros Hrun. pose proof (polish_first_devices _ _ Hrun) as Hfirst.
  destruct (polish_run _ _ Hrun) as (dev & children & Hdev & Hpolished & _ & ->).
  cbn [etag eattrib echildren] in *.
  split; [reflexivity|]. split; [reflexivity|].
  split; [|split].
  - rewrite (devices_polished_tags _ _ Hpolished). now apply tags_update_first.
  - exact Hfirst.
  - intros d disk_element hdd_driver Hd Hdevices Hdisk Htag Htype Hdriver.
    destruct (Forall2_elem_of_r _ _ _ _ Hpolished Hd) as (d0 & _ & Hd0 & _ & Hdisks & _).
    rewrite Hdevices in Hd0. symmetry in Hd0.
    destruct (Forall2_elem_of_r _ _ _ _ (Hdisks Hd0) Hdisk) as (disk0 & _ & Hdisk0 & Hbody & _).
    rewrite Htag in Hdisk0. symmetry in Hdisk0.
    destruct (polish_disk_run _ _ (Hbody Hdisk0)) as (_ & Hattrib & _ & Hcache & _).
    rewrite Hattrib in Htype. exact (Hcache Htype hdd_driver Hdriver).
Qed.

Lemma polish_result_witness :
  ∃ y, _polish_VM_configuration (a_domain_xml 2) = Return y
       ∧ etag <$> echildren y = ["name"; "cpu"; "devices"; "memory"]
       ∧ ∃ device_element,
           find "devices" (echildren y) = Some device_element
           ∧ find "console" (echildren device_element) = None
           ∧ find "serial" (echildren device_element) = None.
Proof.
  destruct (_polish_VM_configuration (a_domain_xml 2)) as [y|] eqn:Hrun;
    [|vm_compute in Hrun; discriminate].
  exists y. split; [reflexivity|].
  destruct (polish_result (a_domain_xml 2) y Hrun) as (_ & _ & Htags & Hdevices & _).
  split; [exact Htags | exact Hdevices].
Defined.

(** Polishing is done once and for all as soon as no [cpu] child is left:
    a second pass over such a result returns it as it is. *)
Theorem polish_twice (xml y : element) :
  _polish_VM_configuration xml = Return y →
  find "cpu" (echildren y) = None →
  _polish_VM_configuration y = Return y.
Proof.
  intros Hrun Hcpu.
  destruct (polish_first_devices _ _ Hrun) as (dev' & Hfound & Hconsole & Hserial).
  destruct (polish_run _ _ Hrun) as (_ & children & _ & _ & Hagain & ->).
  cbn [echildren] in *. unfold _polish_VM_configuration. cbn [etag eattrib echildren].
  rewrite (remove_first_none _ _ Hcpu), Hfound.
  rewrite (update_first_same _ _ _ dev' Hfound).
  - now rewrite Hagain.
  - rewrite (remove_all_absent _ _ Hconsole), (remove_all_absent _ _ Hserial).
    apply element_eta.
Qed.

Lemma polish_twice_witness :
  ∃ y, _polish_VM_configuration (a_domain_xml 1) = Return y
       ∧ find "cpu" (echildren y) = None
       ∧ _polish_VM_configuration y = Return y.
Proof.
  destruct (_polish_VM_configuration (a_domain_xml 1)) as [y|] eqn:Hrun;
    [|vm_compute in Hrun; discriminate].
  assert (Hcpu : find "cpu" (echildren y) = None).
  { assert (Hy : Return y = _polish_VM_configuration (a_domain_xml 1)) by now rewrite Hrun.
    vm_compute in Hy. now injection Hy as ->. }
  exists y. split; [reflexivity|]. split; [exact Hcpu|].
  exact (polish_twice (a_domain_xml 1) y Hrun Hcpu).
Defined.

End Polish.

(** ** When a session leaves its dictionary *)

Section Sessions.
Import Nova CloudletDriver DriverScenario SpawnVocab.

Lemma consumed_trace (E : env) (inst : instance) (vm : VM_Overlay) (s : state) :
  trace (consumed E inst vm s)
  = trace s ++ [UpdateTaskState IMAGE_PENDING_UPLOAD None; ResumedRemoved (uuid inst);
                CreateOverlay (overlay_zip_path E vm)].
Proof. unfold consumed. cbn. now rewrite <- !app_assoc. Qed.

Lemma handoff_events_keep_session (id : string) (events : list event) :
  Forall handoff_event events → SynthesizedRemoved id ∉ events.
Proof.
  intros Hall Hin. rewrite Forall_forall in Hall. now apply Hall in Hin.
Qed.




End Sessions.

